(** * Jenkins MCP server: job resolution, tree walk, crumb cache

    A shallow embedding of [src/jenkins_mcp/jenkins_mcp_server_enhanced.py]
    and the properties of its path encoding, parameter normalization,
    crumb cache, tree walk, search and job lookup.

    Conventions of the embedding.
    - A Python [str] is a [string]: the sequence of the bytes of its UTF-8
      encoding.  [str.lower] and [str.upper] act on the ASCII letters.
    - A Python object that came out of JSON (a tool argument, a response
      body) is a [value]: [None], a boolean, an integer, a string, a list
      or a dict (floats are left out).  A [dict] is an association list
      in insertion order, written by [dict_set] as Python writes
      [d[k] = v].
    - Code that raises returns [Raise e]; [try/except] is [try_except].
      A pydantic model refuses a field of the wrong type with
      [ValidationError].
    - What the module takes from outside is an [Env]: its configuration,
      the remote server behind [requests.request], the clock behind
      [datetime.now], and the library functions [fnmatch.fnmatch] and
      [repr].  A call runs in a [State]: the crumb cache, the world
      outside, and the log of the requests sent.
    - A request returns: [send] gives a response or a failure, it does
      not hang.
    - The recursion of the tree walk is bounded by fuel; the walk is shown
      never to use up the fuel that [_collect_jobs_recursive] gives it.
    - Logging has no effect on any result and is left out, and with it the
      per-request [context] dictionary, which only carries the log prefix. *)

From Stdlib Require Import ZArith String Ascii List Bool Lia.
From Stdlib Require Import DecimalString.
From stdpp Require Import base tactics option list strings.
Import ListNotations.

Local Open Scope string_scope.
Local Open Scope Z_scope.
Local Open Scope list_scope.

(** ** Strings *)

Module Str.

Definition is_upper (c : ascii) : bool :=
  let n := nat_of_ascii c in ((65 <=? n) && (n <=? 90))%nat.

Definition is_lower (c : ascii) : bool :=
  let n := nat_of_ascii c in ((97 <=? n) && (n <=? 122))%nat.

Definition is_digit (c : ascii) : bool :=
  let n := nat_of_ascii c in ((48 <=? n) && (n <=? 57))%nat.

Definition lower_char (c : ascii) : ascii :=
  if is_upper c then ascii_of_nat (nat_of_ascii c + 32) else c.

Definition upper_char (c : ascii) : ascii :=
  if is_lower c then ascii_of_nat (nat_of_ascii c - 32) else c.

Fixpoint map_chars (f : ascii -> ascii) (s : string) : string :=
  match s with
  | EmptyString => EmptyString
  | String c s' => String (f c) (map_chars f s')
  end.

(** [s.lower()] and [s.upper()] *)
Definition lower : string -> string := map_chars lower_char.
Definition upper : string -> string := map_chars upper_char.

(** [sub in s] *)
Fixpoint contains (sub s : string) : bool :=
  String.prefix sub s ||
  match s with
  | EmptyString => false
  | String _ s' => contains sub s'
  end.

(** [sep.join(parts)] *)
Definition join (sep : string) (parts : list string) : string :=
  String.concat sep parts.

(** [s.split('/')]: never empty, one more piece than there are slashes. *)
Fixpoint split_slash (s : string) : list string :=
  match s with
  | EmptyString => [EmptyString]
  | String c s' =>
      if Ascii.eqb c "/" then EmptyString :: split_slash s'
      else match split_slash s' with
           | h :: t => String c h :: t
           | [] => [String c EmptyString]
           end
  end.

(** [s.count(sub)] for a non-empty [sub]: occurrences found scanning left
    to right, the scan resuming after each occurrence found ([skip] is the
    number of characters of the last occurrence still to step over). *)
Fixpoint count_from (sub s : string) (skip : nat) : nat :=
  match s with
  | EmptyString => 0%nat
  | String _ s' =>
      match skip with
      | S k => count_from sub s' k
      | O => if String.prefix sub s
             then S (count_from sub s' (String.length sub - 1))
             else count_from sub s' 0
      end
  end.

Definition count (sub s : string) : nat := count_from sub s 0.

(** [str(n)] for an integer *)
Definition of_Z (z : Z) : string := NilZero.string_of_int (Z.to_int z).
Definition of_nat (n : nat) : string := of_Z (Z.of_nat n).

End Str.

(** ** Python values *)

Set Warnings "-register-all".

Inductive value : Type :=
  | VNone
  | VBool (b : bool)
  | VInt (z : Z)
  | VStr (s : string)
  | VList (l : list value)
  | VDict (d : list (string * value)).

Definition dict (A : Type) : Type := list (string * A).

Section Dict.
Context {A : Type}.

(** [d.get(k)] *)
Fixpoint dict_get (k : string) (d : dict A) : option A :=
  match d with
  | [] => None
  | (k', v) :: d' => if String.eqb k k' then Some v else dict_get k d'
  end.

(** [d.get(k, dflt)] *)
Definition dict_get_default (k : string) (dflt : A) (d : dict A) : A :=
  match dict_get k d with Some v => v | None => dflt end.

(** [d[k] = v]: an existing key keeps its place, a new one goes last. *)
Fixpoint dict_set (k : string) (v : A) (d : dict A) : dict A :=
  match d with
  | [] => [(k, v)]
  | (k', v') :: d' =>
      if String.eqb k k' then (k', v) :: d' else (k', v') :: dict_set k v d'
  end.

Definition dict_keys (d : dict A) : list string := map fst d.

End Dict.

(** Truth value of an object, as [if x:] takes it. *)
Definition truthy (v : value) : bool :=
  match v with
  | VNone => false
  | VBool b => b
  | VInt z => negb (z =? 0)
  | VStr s => negb (String.eqb s "")
  | VList l => negb (Nat.eqb (length l) 0)
  | VDict d => negb (Nat.eqb (length d) 0)
  end.

Section Normalize.

(** [repr] of a container: [str] of a list or dict is its [repr]. *)
Variable py_repr : value -> string.

(** [str(v)] *)
Definition py_str (v : value) : string :=
  match v with
  | VNone => "None"
  | VBool true => "True"
  | VBool false => "False"
  | VInt z => Str.of_Z z
  | VStr s => s
  | VList _ | VDict _ => py_repr v
  end.

(** The three branches of the loop body of [process_jenkins_parameters]:
    [isinstance(value, list)], then [isinstance(value, bool)], then the
    rest. *)
Definition process_value (v : value) : string :=
  match v with
  | VList l => Str.join "," (map py_str l)
  | VBool _ => Str.lower (py_str v)
  | _ => py_str v
  end.

Definition process_jenkins_parameters (params : dict value) : dict string :=
  fold_left (fun processed_params kv =>
               dict_set (fst kv) (process_value (snd kv)) processed_params)
            params [].

End Normalize.

(** ** Percent-encoding ([urllib.parse]) *)

Module Url.

Definition always_safe (c : ascii) : bool :=
  Str.is_upper c || Str.is_lower c || Str.is_digit c ||
  Ascii.eqb c "_" || Ascii.eqb c "." || Ascii.eqb c "-" || Ascii.eqb c "~".

Fixpoint mem_char (c : ascii) (s : string) : bool :=
  match s with
  | EmptyString => false
  | String c' s' => Ascii.eqb c c' || mem_char c s'
  end.

Definition hex_digit (n : nat) : ascii :=
  nth n (list_ascii_of_string "0123456789ABCDEF") "0"%char.

Definition percent (c : ascii) : string :=
  let n := nat_of_ascii c in
  String "%" (String (hex_digit (n / 16)) (String (hex_digit (n mod 16)) "")).

Definition quote_char (safe : string) (c : ascii) : string :=
  if always_safe c || mem_char c safe then String c "" else percent c.

(** [quote(s, safe=safe)] *)
Fixpoint quote (safe s : string) : string :=
  match s with
  | EmptyString => EmptyString
  | String c s' => quote_char safe c +:+ quote safe s'
  end.

Definition replace_char (a b : ascii) : string -> string :=
  Str.map_chars (fun c => if Ascii.eqb c a then b else c).

(** [quote_plus(s, safe=safe)] *)
Definition quote_plus (safe s : string) : string :=
  if Str.contains " " s
  then replace_char " " "+" (quote (safe +:+ " ") s)
  else quote safe s.

(** [urlencode(query)] for a mapping of strings to strings *)
Definition urlencode (query : dict string) : string :=
  Str.join "&"
    (map (fun kv => quote_plus "" (fst kv) +:+ "=" +:+ quote_plus "" (snd kv)) query).

(** The path that [jenkins_request_nested] puts in the URL:
    [path_parts], [encoded_parts], [encoded_path]. *)
Definition path_parts (job_path : string) : list string :=
  Str.split_slash job_path.

Definition encoded_parts (job_path : string) : list string :=
  map (quote "") (path_parts job_path).

Definition encoded_path (job_path : string) : string :=
  Str.join "/job/" (encoded_parts job_path).

End Url.

(** ** Exceptions and results *)

Inductive exn : Type :=
  | HTTPError (status_code : Z)   (* raised by [raise_for_status] *)
  | TransportError                (* any other [RequestException] of a request *)
  | JSONDecodeError               (* [Response.json] on a body that is not JSON *)
  | AttributeError
  | TypeError
  | KeyError
  | ValidationError               (* pydantic refusing a field *)
  | ValueError (msg : string).

(** [isinstance(e, requests.exceptions.RequestException)] *)
Definition is_RequestException (e : exn) : bool :=
  match e with
  | HTTPError _ | TransportError | JSONDecodeError => true
  | _ => false
  end.

(** [isinstance(e, requests.exceptions.HTTPError)] *)
Definition is_HTTPError (e : exn) : bool :=
  match e with HTTPError _ => true | _ => false end.

Inductive result (A : Type) : Type :=
  | Ok (a : A)
  | Raise (e : exn).
Arguments Ok {A} a.
Arguments Raise {A} e.

Definition result_bind {A B} (r : result A) (k : A -> result B) : result B :=
  match r with Ok a => k a | Raise e => Raise e end.

(** [v.get(k, dflt)] on an object that may not be a dict *)
Definition py_get (v : value) (k : string) (dflt : value) : result value :=
  match v with
  | VDict d => Ok (dict_get_default k dflt d)
  | _ => Raise AttributeError
  end.

(** [for x in v] on an object: a list gives its elements, a dict its keys,
  a string its characters; the rest is not iterable. *)
Definition py_iter (v : value) : result (list value) :=
  match v with
  | VList l => Ok l
  | VDict d => Ok (map (fun kv => VStr (fst kv)) d)
  | VStr s => Ok (map (fun c => VStr (String c "")) (list_ascii_of_string s))
  | _ => Raise TypeError
  end.

(** [v.lower()] on an object that may not be a string *)
Definition py_lower (v : value) : result string :=
  match v with
  | VStr s => Ok (Str.lower s)
  | _ => Raise AttributeError
  end.

(** ** HTTP requests and responses *)

Record Request : Type := mkRequest {
  req_method : string;
  req_url : string;
  req_auth : string * string;
  req_headers : dict value;
  req_data : option string;
  req_timeout : option Z
}.

Record Response : Type := mkResponse {
  status_code : Z;
  headers : dict string;
  json_body : option value   (* [None]: the body is not JSON *)
}.

(** [response.raise_for_status()] *)
Definition raise_for_status (r : Response) : result unit :=
  if (400 <=? status_code r) && (status_code r <? 600)
  then Raise (HTTPError (status_code r)) else Ok tt.

(** [response.json()] *)
Definition json (r : Response) : result value :=
  match json_body r with
  | Some v => Ok v
  | None => Raise JSONDecodeError
  end.

(** What the module takes from outside: its configuration, the remote
  server behind [requests.request], the clock behind [datetime.now],
  and two library functions. *)
Class Env : Type := {
  World : Type;
  JENKINS_URL : string;
  JENKINS_USER : string;
  JENKINS_API_TOKEN : string;
  (** [requests.request]: a response, or [None] for a transport failure;
      the world moves on either way. *)
  send : Request -> World -> option Response * World;
  (** [datetime.now()], in microseconds. *)
  datetime_now : World -> Z * World;
  (** [fnmatch.fnmatch(name, pat)] *)
  fnmatch : string -> string -> bool;
  (** [repr(v)] *)
  py_repr : value -> string
}.

(** [_crumb_cache], without its lock. *)
Record CrumbCache : Type := mkCache {
  token : value;
  expires : option Z
}.

Definition empty_cache : CrumbCache := {| token := VNone; expires := None |}.

(** [timedelta(minutes=30)] in microseconds *)
Definition minutes_30 : Z := 30 * 60 * 1000000.

(** ** The effects of the module *)

Section Server.

Context `{env : Env}.

(** The state a call runs in: the module-level crumb cache, the world
    outside, and the requests sent so far (oldest first). *)
Record State : Type := mkState {
  crumb_cache : CrumbCache;
  world : World;
  sent : list Request
}.

Definition M (A : Type) : Type := State -> result A * State.

Definition ret {A} (a : A) : M A := fun st => (Ok a, st).

Definition raise {A} (e : exn) : M A := fun st => (Raise e, st).

Definition bind {A B} (m : M A) (k : A -> M B) : M B :=
  fun st =>
    match m st with
    | (Ok a, st') => k a st'
    | (Raise e, st') => (Raise e, st')
    end.

Definition lift {A} (r : result A) : M A := fun st => (r, st).

(** [try: body  except <catches> as e: handler e] *)
Definition try_except {A} (body : M A) (catches : exn -> bool)
           (handler : exn -> M A) : M A :=
  fun st =>
    match body st with
    | (Ok a, st') => (Ok a, st')
    | (Raise e, st') => if catches e then handler e st' else (Raise e, st')
    end.

(** [except Exception] *)
Definition any_exception (e : exn) : bool := true.

Local Notation "x <- c1 ;; c2" := (bind c1 (fun x => c2))
  (at level 100, c1 at next level, right associativity).
Local Notation "c1 ;;; c2" := (bind c1 (fun _ => c2))
  (at level 100, right associativity).

(** [datetime.now()] *)
Definition now : M Z :=
  fun st =>
    let (t, w) := datetime_now (world st) in
    (Ok t, {| crumb_cache := crumb_cache st; world := w; sent := sent st |}).

(** [requests.request(method, url, auth=auth, **kwargs)] *)
Definition requests_request (r : Request) : M Response :=
  fun st =>
    let (o, w) := send r (world st) in
    let st' := {| crumb_cache := crumb_cache st; world := w;
                  sent := sent st ++ [r] |} in
    match o with
    | Some resp => (Ok resp, st')
    | None => (Raise TransportError, st')
    end.

Definition read_cache : M CrumbCache := fun st => (Ok (crumb_cache st), st).

Definition write_cache (c : CrumbCache) : M unit :=
  fun st => (Ok tt, {| crumb_cache := c; world := world st; sent := sent st |}).

(** [_crumb_cache["token"] = tok] *)
Definition write_token (tok : value) : M unit :=
  c <- read_cache ;;
  write_cache {| token := tok; expires := expires c |}.

(** [_crumb_cache["expires"] = e] *)
Definition write_expires (e : Z) : M unit :=
  c <- read_cache ;;
  write_cache {| token := token c; expires := Some e |}.

Definition auth : string * string := (JENKINS_USER, JENKINS_API_TOKEN).

Definition crumb_request : Request :=
  {| req_method := "GET";
     req_url := JENKINS_URL +:+ "/crumbIssuer/api/json";
     req_auth := auth;
     req_headers := [];
     req_data := None;
     req_timeout := Some 10 |}.

(** The test at the head of [get_jenkins_crumb]; the clock is read only
    when the two fields before it are set ([and] is short-circuit). *)
Definition cached_crumb_valid (c : CrumbCache) : M bool :=
  if truthy (token c) then
    match expires c with
    | Some e => t <- now ;; ret (t <? e)
    | None => ret false
    end
  else ret false.

(** The first four lines of the [try] block of [get_jenkins_crumb]:
    the request, its status, its body, the crumb field. *)
Definition fetch_crumb_token : M value :=
  response <- requests_request crumb_request ;;
  lift (raise_for_status response) ;;;
  crumb_data <- lift (json response) ;;
  lift (py_get crumb_data "crumb" VNone).

(** [get_jenkins_crumb(context)], the body under the lock. *)
Definition get_jenkins_crumb : M value :=
  c <- read_cache ;;
  valid <- cached_crumb_valid c ;;
  if valid then ret (token c)
  else
    try_except
      (crumb_token <- fetch_crumb_token ;;
       if truthy crumb_token then
         write_token crumb_token ;;;
         t <- now ;;
         write_expires (t + minutes_30) ;;;
         ret crumb_token
       else ret VNone)
      is_RequestException
      (fun _ => ret VNone).

(** [method.upper() in ['POST', 'PUT', 'DELETE']] *)
Definition is_mutating (method : string) : bool :=
  existsb (String.eqb (Str.upper method)) ["POST"; "PUT"; "DELETE"].

(** The crumb block shared by the two request helpers. *)
Definition add_crumb (method : string) (hdrs : dict value) : M (dict value) :=
  if is_mutating method then
    crumb <- get_jenkins_crumb ;;
    if truthy crumb then ret (dict_set "Jenkins-Crumb" crumb hdrs)
    else ret hdrs
  else ret hdrs.

(** The [try] block shared by the two request helpers; its handler logs
    and re-raises. *)
Definition request_checked (r : Request) : M Response :=
  try_except
    (response <- requests_request r ;;
     lift (raise_for_status response) ;;;
     ret response)
    is_RequestException
    (fun e => raise e).

(** [jenkins_request_nested(method, job_path, endpoint_suffix, context,
    data=data, headers=headers)] *)
Definition jenkins_request_nested (method job_path endpoint_suffix : string)
           (data : option string) (hdrs : dict value) : M Response :=
  let url := JENKINS_URL +:+ "/job/" +:+ Url.encoded_path job_path
               +:+ "/" +:+ endpoint_suffix in
  hdrs' <- add_crumb method hdrs ;;
  request_checked {| req_method := method; req_url := url; req_auth := auth;
                     req_headers := hdrs'; req_data := data;
                     req_timeout := None |}.

(** [jenkins_request(method, endpoint, context, is_job_specific,
    data=data, headers=headers)] *)
Definition jenkins_request (method endpoint : string) (is_job_specific : bool)
           (data : option string) (hdrs : dict value) : M Response :=
  let url := if is_job_specific
             then JENKINS_URL +:+ "/job/" +:+ endpoint
             else JENKINS_URL +:+ "/" +:+ endpoint in
  hdrs' <- add_crumb method hdrs ;;
  request_checked {| req_method := method; req_url := url; req_auth := auth;
                     req_headers := hdrs'; req_data := data;
                     req_timeout := None |}.

(** *** Records of the tool surface *)

Record JobTreeItem : Type := mkItem {
  name : string;
  full_name : string;
  type_ : string;               (* "job" or "folder" *)
  url : option string;
  description : option string
}.

Definition opt_str (o : option string) : value :=
  match o with Some s => VStr s | None => VNone end.

(** [item.model_dump()] *)
Definition JobTreeItem_dump (i : JobTreeItem) : value :=
  VDict [("name", VStr (name i)); ("full_name", VStr (full_name i));
         ("type", VStr (type_ i)); ("url", opt_str (url i));
         ("description", opt_str (description i))].

(** Field validation of the pydantic models: a [str] field takes a
    string, an [Optional[str]] field a string or [None]. *)
Definition as_str (v : value) : result string :=
  match v with VStr s => Ok s | _ => Raise ValidationError end.

Definition as_opt_str (v : value) : result (option string) :=
  match v with
  | VNone => Ok None
  | VStr s => Ok (Some s)
  | _ => Raise ValidationError
  end.

(** *** The tree walk *)

(** What the loop body of [_collect_jobs_recursive] does with one entry
    of ["jobs"] before it recurses: the four [item.get], the folder test
    on [item_class.lower()], and the construction of the [JobTreeItem]
    (in either branch: same fields, the type apart).  [full_name] is
    written from the validated name, as the constructor raises when the
    name is not a string. *)
Definition tree_item (path : string) (item : value) : result JobTreeItem :=
  result_bind (py_get item "name" (VStr "")) (fun item_name =>
  result_bind (py_get item "_class" (VStr "")) (fun item_class =>
  result_bind (py_get item "url" (VStr "")) (fun item_url =>
  result_bind (py_get item "description" (VStr "")) (fun item_description =>
  result_bind (py_lower item_class) (fun class_lower =>
  result_bind (as_str item_name) (fun n =>
  result_bind (as_opt_str item_url) (fun u =>
  result_bind (as_opt_str item_description) (fun d =>
  let full := if String.eqb path "" then n else path +:+ "/" +:+ n in
  Ok {| name := n; full_name := full;
        type_ := if Str.contains "folder" class_lower then "folder" else "job";
        url := u; description := d |})))))))).

Definition is_folder (i : JobTreeItem) : bool := String.eqb (type_ i) "folder".
Definition is_job (i : JobTreeItem) : bool := String.eqb (type_ i) "job".

(** A computation that may also run out of fuel ([None]). *)
Definition P (A : Type) : Type := State -> option (result A * State).

Definition retP {A} (a : A) : P A := fun st => Some (Ok a, st).

Definition bindP {A B} (m : P A) (k : A -> P B) : P B :=
  fun st =>
    match m st with
    | Some (Ok a, st') => k a st'
    | Some (Raise e, st') => Some (Raise e, st')
    | None => None
    end.

Definition liftP {A} (m : M A) : P A := fun st => Some (m st).

Definition try_exceptP {A} (body : P A) (catches : exn -> bool)
           (handler : exn -> P A) : P A :=
  fun st =>
    match body st with
    | Some (Ok a, st') => Some (Ok a, st')
    | Some (Raise e, st') =>
        if catches e then handler e st' else Some (Raise e, st')
    | None => None
    end.

(** The [for item in items] loop: [jobs] is the list built so far and
    [recurse] the recursive call at the next depth. *)
Fixpoint walk_items (recurse : string -> P (list JobTreeItem))
         (path : string) (items : list value) (jobs : list JobTreeItem)
  : P (list JobTreeItem) :=
  match items with
  | [] => retP jobs
  | item :: rest =>
      bindP (liftP (lift (tree_item path item))) (fun ti =>
      if is_folder ti then
        bindP (recurse (full_name ti)) (fun sub_jobs =>
        walk_items recurse path rest (jobs ++ [ti] ++ sub_jobs))
      else walk_items recurse path rest (jobs ++ [ti]))
  end.

(** The fetch at the head of the [try] block and the two lines after it. *)
Definition fetch_children (path : string) : M (list value) :=
  resp <- (if negb (String.eqb path "")
           then jenkins_request_nested "GET" path "api/json" None []
           else jenkins_request "GET" "api/json" false None []) ;;
  data <- lift (json resp) ;;
  jobs <- lift (py_get data "jobs" (VList [])) ;;
  lift (py_iter jobs).

(** [_collect_jobs_recursive(path, context, max_depth, current_depth)],
    with a bound [fuel] on the depth of its recursion. *)
Fixpoint collect_jobs (fuel : nat) (path : string)
         (max_depth current_depth : Z) : P (list JobTreeItem) :=
  match fuel with
  | O => fun _ => None
  | S fuel' =>
      if current_depth >=? max_depth then retP []
      else
        try_exceptP
          (bindP (liftP (fetch_children path)) (fun items =>
           walk_items (fun p => collect_jobs fuel' p max_depth (current_depth + 1))
                      path items []))
          any_exception
          (fun _ => retP [])
  end.

(** Fuel that the walk cannot use up: one more than the levels left. *)
Definition walk_fuel (max_depth current_depth : Z) : nat :=
  S (Z.to_nat (max_depth - current_depth)).

Definition _collect_jobs_recursive (path : string)
           (max_depth current_depth : Z) : M (list JobTreeItem) :=
  fun st =>
    match collect_jobs (walk_fuel max_depth current_depth) path
                       max_depth current_depth st with
    | Some r => r
    | None => (Ok [], st)
    end.

(** *** Searching *)

(** The test of the loop of [search_jobs]. *)
Definition matches_pattern (pattern : string) (item : JobTreeItem) : bool :=
  fnmatch (Str.lower (name item)) (Str.lower pattern) ||
  fnmatch (Str.lower (full_name item)) (Str.lower pattern).

Definition filter_by_type (job_type : string) (all_items : list JobTreeItem)
  : list JobTreeItem :=
  if String.eqb job_type "job" then List.filter is_job all_items
  else if String.eqb job_type "folder" then List.filter is_folder all_items
  else all_items.

(** [search_jobs(pattern, job_type, max_depth)] up to the dump: the
    [matching_items]. *)
Definition search_jobs_items (pattern job_type : string) (max_depth : Z)
  : M (list JobTreeItem) :=
  try_except
    (all_items <- _collect_jobs_recursive "" max_depth 0 ;;
     let filtered_items := filter_by_type job_type all_items in
     ret (List.filter (matches_pattern pattern) filtered_items))
    any_exception
    (fun e => raise e).

(** [search_jobs(pattern, job_type, max_depth)] *)
Definition search_jobs (pattern job_type : string) (max_depth : Z)
  : M (list value) :=
  matching_items <- search_jobs_items pattern job_type max_depth ;;
  ret (map JobTreeItem_dump matching_items).

(** *** Triggering *)

Definition nl : string := String (ascii_of_nat 10) "".

(** [enumerate(suggestions, start)] written into the message *)
Fixpoint numbered (start : nat) (suggestions : list string) : string :=
  match suggestions with
  | [] => ""
  | s :: rest =>
      "  " +:+ Str.of_nat start +:+ ". " +:+ s +:+ nl +:+ numbered (S start) rest
  end.

Definition is_space (c : ascii) : bool :=
  let n := nat_of_ascii c in ((9 <=? n) && (n <=? 13) || (n =? 32))%nat.

Fixpoint lstrip (s : string) : string :=
  match s with
  | String c s' => if is_space c then lstrip s' else s
  | EmptyString => EmptyString
  end.

Definition rev_string (s : string) : string :=
  string_of_list_ascii (rev (list_ascii_of_string s)).

(** [s.strip()] *)
Definition strip (s : string) : string :=
  rev_string (lstrip (rev_string (lstrip s))).

(** [create_job_not_found_error(job_name, operation)] *)
Definition create_job_not_found_error (job_name operation : string) : string :=
  let suggestions :=
    ["search_jobs('" +:+ job_name +:+ "')"] ++
    (if negb (Str.contains "*" job_name)
     then ["search_jobs('*" +:+ job_name +:+ "*')"] else []) ++
    ["list_jobs(recursive=True)";
     "get_job_info('" +:+ job_name +:+ "', auto_search=True)"] in
  strip ("Job '" +:+ job_name +:+ "' not found for " +:+ operation
         +:+ ". Try these discovery tools:" +:+ nl +:+ numbered 1 suggestions).

Record TriggerJobResponse : Type := mkTrigger {
  job_name : string;
  status : string;
  queue_url : option string;
  processed_params : option (dict string)
}.

(** [response.model_dump()] *)
Definition TriggerJobResponse_dump (r : TriggerJobResponse) : value :=
  VDict [("job_name", VStr (job_name r)); ("status", VStr (status r));
         ("queue_url", opt_str (queue_url r));
         ("processed_params",
          match processed_params r with
          | Some d => VDict (map (fun kv => (fst kv, VStr (snd kv))) d)
          | None => VNone
          end)].

(** [resp.headers.get(key)]: the headers of a response compare their
    keys without case. *)
Fixpoint header_get (key : string) (hs : dict string) : option string :=
  match hs with
  | [] => None
  | (k, v) :: hs' =>
      if String.eqb (Str.lower k) (Str.lower key) then Some v
      else header_get key hs'
  end.

(** [params.get('args', {}).get('params', params) if params else None] *)
Definition extract_jenkins_params (params : option (dict value)) : result value :=
  match params with
  | Some p =>
      if truthy (VDict p) then
        result_bind (py_get (VDict p) "args" (VDict [])) (fun args =>
        py_get args "params" (VDict p))
      else Ok VNone
  | None => Ok VNone
  end.

(** [process_jenkins_parameters(jenkins_params, context)] on an object:
    [params.items()] needs a dict. *)
Definition process_params_of (jenkins_params : value) : result (dict string) :=
  match jenkins_params with
  | VDict d => Ok (process_jenkins_parameters py_repr d)
  | _ => Raise AttributeError
  end.

Definition form_headers : dict value :=
  [("Content-Type", VStr "application/x-www-form-urlencoded")].

(** The request of [trigger_job], by its four branches. *)
Definition trigger_request (job_name : string) (jenkins_params : value)
  : M (Response * option (dict string)) :=
  if Str.contains "/" job_name then
    if truthy jenkins_params then
      processed <- lift (process_params_of jenkins_params) ;;
      resp <- jenkins_request_nested "POST" job_name "buildWithParameters"
                (Some (Url.urlencode processed)) form_headers ;;
      ret (resp, Some processed)
    else
      resp <- jenkins_request_nested "POST" job_name "build" None [] ;;
      ret (resp, None)
  else
    if truthy jenkins_params then
      processed <- lift (process_params_of jenkins_params) ;;
      resp <- jenkins_request "POST" (job_name +:+ "/buildWithParameters") true
                (Some (Url.urlencode processed)) form_headers ;;
      ret (resp, Some processed)
    else
      resp <- jenkins_request "POST" (job_name +:+ "/build") true None [] ;;
      ret (resp, None).

(** [trigger_job(job_name, params)] *)
Definition trigger_job (job_name : string) (params : option (dict value))
  : M TriggerJobResponse :=
  try_except
    (jenkins_params <- lift (extract_jenkins_params params) ;;
     rp <- trigger_request job_name jenkins_params ;;
     ret {| job_name := job_name; status := "Triggered";
            queue_url := header_get "Location" (headers (fst rp));
            processed_params := snd rp |})
    any_exception
    (fun e =>
       match e with
       | HTTPError code =>
           if code =? 404
           then raise (ValueError (create_job_not_found_error job_name "triggering"))
           else raise e
       | _ => raise e
       end).

(** [v[k]] *)
Definition py_getitem (v : value) (k : string) : result value :=
  match v with
  | VDict d => match dict_get k d with Some x => Ok x | None => Raise KeyError end
  | _ => Raise TypeError
  end.

(** [search_and_trigger(pattern, params, max_depth)] *)
Definition search_and_trigger (pattern : string) (params : option (dict value))
           (max_depth : Z) : M value :=
  try_except
    (found <- search_jobs pattern "job" max_depth ;;
     match found with
     | [] =>
         ret (VDict [("error", VStr "No jobs found");
                     ("pattern", VStr pattern);
                     ("suggestion",
                      VStr ("Try using search_jobs('" +:+ pattern
                            +:+ "*') or search_jobs('*" +:+ pattern
                            +:+ "*') for broader search"))])
     | [m] =>
         job_path <- lift (py_getitem m "full_name") ;;
         match job_path with
         | VStr job_path =>
             trigger_result <- trigger_job job_path params ;;
             ret (VDict [("success", VBool true);
                         ("matched_job", m);
                         ("trigger_result", TriggerJobResponse_dump trigger_result)])
         | _ => raise TypeError
         end
     | _ =>
         ret (VDict [("error", VStr "Multiple jobs match pattern");
                     ("pattern", VStr pattern);
                     ("matches", VList found);
                     ("suggestion",
                      VStr "Use a more specific pattern or call trigger_job with the exact path")])
     end)
    any_exception
    (fun e => raise e).

(** *** Job information *)

Record JobParameter : Type := mkParam {
  param_name : string;
  param_type : string;
  default_value : value;
  param_description : option string;
  choices : option (list string)
}.

Record JobInfo : Type := mkJobInfo {
  info_name : string;
  info_description : option string;
  parameters : list JobParameter;
  last_build_number : option Z;
  last_build_status : option string
}.

Record JobInfoResponse : Type := mkJobInfoResponse {
  success : bool;
  job_info : option JobInfo;
  search_results : option (list value);
  message : string;
  suggestions : option (list string)
}.

Definition opt_value {A} (f : A -> value) (o : option A) : value :=
  match o with Some a => f a | None => VNone end.

Definition str_list (l : list string) : value := VList (map VStr l).

Definition JobParameter_dump (p : JobParameter) : value :=
  VDict [("name", VStr (param_name p)); ("type", VStr (param_type p));
         ("default_value", default_value p);
         ("description", opt_str (param_description p));
         ("choices", opt_value str_list (choices p))].

Definition JobInfo_dump (i : JobInfo) : value :=
  VDict [("name", VStr (info_name i));
         ("description", opt_str (info_description i));
         ("parameters", VList (map JobParameter_dump (parameters i)));
         ("last_build_number", opt_value VInt (last_build_number i));
         ("last_build_status", opt_str (last_build_status i))].

(** [JobInfoResponse(...).model_dump()] *)
Definition JobInfoResponse_dump (r : JobInfoResponse) : value :=
  VDict [("success", VBool (success r));
         ("job_info", opt_value JobInfo_dump (job_info r));
         ("search_results", opt_value VList (search_results r));
         ("message", VStr (message r));
         ("suggestions", opt_value str_list (suggestions r))].

(** [next((p for p in props if p.get("_class") == cls), None)]: the
    generator stops at the first hit. *)
Fixpoint first_with_class (cls : string) (props : list value) : result value :=
  match props with
  | [] => Ok VNone
  | p :: rest =>
      result_bind (py_get p "_class" VNone) (fun c =>
      match c with
      | VStr c' => if String.eqb c' cls then Ok p else first_with_class cls rest
      | _ => first_with_class cls rest
      end)
  end.

Fixpoint all_results {A B} (f : A -> result B) (l : list A) : result (list B) :=
  match l with
  | [] => Ok []
  | a :: l' =>
      result_bind (f a) (fun b =>
      result_bind (all_results f l') (fun bs => Ok (b :: bs)))
  end.

(** An [Optional[List[str]]] field *)
Definition as_opt_str_list (v : value) : result (option (list string)) :=
  match v with
  | VNone => Ok None
  | VList l => result_bind (all_results as_str l) (fun ss => Ok (Some ss))
  | _ => Raise ValidationError
  end.

(** An [Optional[int]] field (integers and [None]; what pydantic would
    convert from other types is refused here) *)
Definition as_opt_int (v : value) : result (option Z) :=
  match v with
  | VNone => Ok None
  | VInt z => Ok (Some z)
  | _ => Raise ValidationError
  end.

(** The [JobParameter(...)] built from one parameter definition *)
Definition job_parameter (param_def : value) : result JobParameter :=
  result_bind (py_get param_def "name" (VStr "")) (fun n =>
  result_bind (py_get param_def "type" (VStr "unknown")) (fun t =>
  result_bind (py_get param_def "defaultParameterValue" (VDict [])) (fun dpv =>
  result_bind (py_get dpv "value" VNone) (fun dv =>
  result_bind (py_get param_def "description" (VStr "")) (fun d =>
  result_bind (py_get param_def "choices" VNone) (fun ch =>
  result_bind (as_str n) (fun n' =>
  result_bind (as_str t) (fun t' =>
  result_bind (as_opt_str d) (fun d' =>
  result_bind (as_opt_str_list ch) (fun ch' =>
  Ok {| param_name := n'; param_type := t'; default_value := dv;
        param_description := d'; choices := ch' |})))))))))).

(** The success path of [get_job_info] after [data = resp.json()] *)
Definition parse_job_info (job_name : string) (data : value) : result JobInfo :=
  result_bind (py_get data "property" (VList [])) (fun props =>
  result_bind (py_iter props) (fun props =>
  result_bind (first_with_class "hudson.model.ParametersDefinitionProperty" props)
    (fun param_prop =>
  result_bind
    (if truthy param_prop then
       result_bind (py_get param_prop "parameterDefinitions" (VList [])) (fun defs =>
       result_bind (py_iter defs) (fun defs =>
       all_results job_parameter defs))
     else Ok [])
    (fun params =>
  result_bind (py_get data "lastBuild" VNone) (fun last_build =>
  result_bind
    (if truthy last_build then py_get last_build "number" VNone else Ok VNone)
    (fun number =>
  result_bind (py_get data "description" VNone) (fun d =>
  result_bind (as_opt_str d) (fun d' =>
  result_bind (as_opt_int number) (fun number' =>
  Ok {| info_name := job_name; info_description := d';
        parameters := params; last_build_number := number';
        last_build_status := None |}))))))))).

(** The test of the fallback loop of [get_job_info]. *)
Definition similar_to (job_name : string) (job : JobTreeItem) : bool :=
  fnmatch (Str.lower (name job)) (Str.lower job_name) ||
  fnmatch (Str.lower (full_name job)) (Str.lower job_name) ||
  Str.contains (Str.lower job_name) (Str.lower (name job)) ||
  Str.contains (Str.lower job_name) (Str.lower (full_name job)).

(** The body of [if e.response.status_code == 404 and auto_search:] *)
Definition search_fallback (job_name : string) : M value :=
  all_items <- _collect_jobs_recursive "" 10 0 ;;
  let jobs_only := List.filter is_job all_items in
  let matching_jobs := List.filter (similar_to job_name) jobs_only in
  let found := map JobTreeItem_dump matching_jobs in
  match matching_jobs with
  | first :: _ =>
      ret (JobInfoResponse_dump
             {| success := false; job_info := None;
                search_results := Some found;
                message := "Job '" +:+ job_name
                           +:+ "' not found directly, but found "
                           +:+ Str.of_nat (length matching_jobs)
                           +:+ " similar jobs";
                suggestions :=
                  Some ["Use exact path: get_job_info('" +:+ full_name first +:+ "')";
                        "Or try search_jobs() for more search options"] |})
  | [] =>
      ret (JobInfoResponse_dump
             {| success := false; job_info := None;
                search_results := None;
                message := "Job '" +:+ job_name
                           +:+ "' not found and no similar jobs found";
                suggestions :=
                  Some ["Try: search_jobs('*" +:+ job_name +:+ "*')";
                        "Or: list_jobs(recursive=True) to see all available jobs"] |})
  end.

(** The direct lookup of [get_job_info], the inner [try] block. *)
Definition direct_lookup (job_name : string) : M value :=
  resp <- (if Str.contains "/" job_name
           then jenkins_request_nested "GET" job_name "api/json" None []
           else jenkins_request "GET" (job_name +:+ "/api/json") true None []) ;;
  data <- lift (json resp) ;;
  info <- lift (parse_job_info job_name data) ;;
  ret (JobInfoResponse_dump
         {| success := true; job_info := Some info; search_results := None;
            message := "Found job '" +:+ job_name +:+ "' directly";
            suggestions := None |}).

(** [get_job_info(job_name, auto_search)] *)
Definition get_job_info (job_name : string) (auto_search : bool) : M value :=
  try_except
    (try_except
       (direct_lookup job_name)
       is_HTTPError
       (fun e =>
          match e with
          | HTTPError code =>
              if (code =? 404) && auto_search
              then search_fallback job_name
              else raise e
          | _ => raise e
          end))
    any_exception
    (fun e => raise e).

End Server.

(** ** Calls of [get_jenkins_crumb] on several threads

  Each thread runs one call.  A step of a thread is one of: entering
  [with _crumb_cache["lock"]] (possible only while no thread holds the
  lock), the test of the cached crumb, the request for a new one, each
  of the two assignments to the cache, and leaving the [with] block.
  Any thread that can step may be the next one to step, and between
  any two steps the world outside may change. *)

Section Threads.

Context `{env : Env}.

Inductive pc : Type :=
| Idle                        (* not yet in the [with] block *)
| Testing                     (* lock held; next: the test of the cache *)
| Fetching                    (* next: the request for a new crumb *)
| WriteToken (tok : value)    (* next: [_crumb_cache["token"] = tok] *)
| WriteExpires (tok : value)  (* next: [_crumb_cache["expires"] = ...] *)
| Leaving (r : result value)  (* next: leave the block, release the lock *)
| Returned (r : result value).

(** What a run leaves in its history. *)
Inductive event : Type :=
| Tested (tid : nat) (seen : CrumbCache) (valid : bool)
| ClockRead (tid : nat) (t : Z)
| Fetched (tid : nat) (got : result value)
| Stored (tid : nat) (tok : value) (t : Z).

(** The configuration of a run.  [committed] and [history] are not state
    of the program: they keep, for the properties, the cache as of the
    last completed store and what the steps did. *)
Record Config : Type := mkConfig {
  shared : State;             (* cache, world, requests sent *)
  lock : option nat;          (* the thread holding the lock *)
  pcs : list pc;              (* one entry per thread *)
  committed : CrumbCache;     (* the cache as of the last completed store *)
  history : list event        (* oldest first *)
}.

Definition in_block (p : pc) : bool :=
  match p with
  | Idle | Returned _ => false
  | _ => true
  end.

Definition set_pc (i : nat) (p : pc) (c : Config) : Config :=
  {| shared := shared c; lock := lock c; pcs := <[i := p]> (pcs c);
     committed := committed c; history := history c |}.

Definition set_lock (l : option nat) (c : Config) : Config :=
  {| shared := shared c; lock := l; pcs := pcs c;
     committed := committed c; history := history c |}.

Definition set_shared (st : State) (c : Config) : Config :=
  {| shared := st; lock := lock c; pcs := pcs c;
     committed := committed c; history := history c |}.

Definition commit (c : Config) : Config :=
  {| shared := shared c; lock := lock c; pcs := pcs c;
     committed := crumb_cache (shared c); history := history c |}.

Definition log (evs : list event) (c : Config) : Config :=
  {| shared := shared c; lock := lock c; pcs := pcs c;
     committed := committed c; history := history c ++ evs |}.

(** The clock reading of the test, if it read the clock. *)
Definition test_clock (cache : CrumbCache) (st : State) : list Z :=
  if truthy (token cache) then
    match expires cache with
    | Some _ => [fst (datetime_now (world st))]
    | None => []
    end
  else [].

(** One step of thread [i]; [None] when the thread cannot step (it is
    waiting for the lock, or has returned, or does not exist). *)
Definition thread_step (i : nat) (c : Config) : option Config :=
  match pcs c !! i with
  | Some Idle =>
      match lock c with
      | None => Some (set_pc i Testing (set_lock (Some i) c))
      | Some _ => None
      end
  | Some Testing =>
      let cache := crumb_cache (shared c) in
      let reads := map (ClockRead i) (test_clock cache (shared c)) in
      match cached_crumb_valid cache (shared c) with
      | (Ok true, st') =>
          Some (set_pc i (Leaving (Ok (token cache)))
                  (log (reads ++ [Tested i cache true]) (set_shared st' c)))
      | (Ok false, st') =>
          Some (set_pc i Fetching
                  (log (reads ++ [Tested i cache false]) (set_shared st' c)))
      | (Raise e, st') =>
          Some (set_pc i (Leaving (Raise e)) (set_shared st' c))
      end
  | Some Fetching =>
      let (r, st') := fetch_crumb_token (shared c) in
      let c' := log [Fetched i r] (set_shared st' c) in
      match r with
      | Ok tok =>
          if truthy tok then Some (set_pc i (WriteToken tok) c')
          else Some (set_pc i (Leaving (Ok VNone)) c')
      | Raise e =>
          if is_RequestException e then Some (set_pc i (Leaving (Ok VNone)) c')
          else Some (set_pc i (Leaving (Raise e)) c')
      end
  | Some (WriteToken tok) =>
      let (_, st') := write_token tok (shared c) in
      Some (set_pc i (WriteExpires tok) (set_shared st' c))
  | Some (WriteExpires tok) =>
      match now (shared c) with
      | (Ok t, st1) =>
          let (_, st') := write_expires (t + minutes_30) st1 in
          Some (set_pc i (Leaving (Ok tok))
                  (log [ClockRead i t; Stored i tok t]
                       (commit (set_shared st' c))))
      | (Raise e, st1) =>
          Some (set_pc i (Leaving (Raise e)) (set_shared st1 c))
      end
  | Some (Leaving r) =>
      Some (set_pc i (Returned r) (set_lock None c))
  | Some (Returned _) => None
  | None => None
  end.

(** What happens outside the calls (the server, the clock, the rest of
    the process) may change the world in any way, at any time. *)
Definition outside (w : World) (c : Config) : Config :=
  set_shared {| crumb_cache := crumb_cache (shared c); world := w;
                sent := sent (shared c) |} c.

Inductive step : Config -> Config -> Prop :=
| step_thread i c c' : thread_step i c = Some c' -> step c c'
| step_outside c w : step c (outside w c).

(** Reachability, by the last step. *)
Inductive steps (c0 : Config) : Config -> Prop :=
| steps_refl : steps c0 c0
| steps_snoc c c' : steps c0 c -> step c c' -> steps c0 c'.

(** [n] calls about to start on a given state. *)
Definition initial (n : nat) (st : State) : Config :=
  {| shared := st; lock := None; pcs := replicate n Idle;
     committed := crumb_cache st; history := [] |}.

(** A schedule is the list of the threads that step, in order. *)
Fixpoint run (schedule : list nat) (c : Config) : option Config :=
  match schedule with
  | [] => Some c
  | i :: rest =>
      match thread_step i c with
      | Some c' => run rest c'
      | None => None
      end
  end.

Definition is_fetch (e : event) : bool :=
  match e with Fetched _ _ => true | _ => false end.

(** The number of requests for a crumb that a history has. *)
Definition fetches (h : list event) : nat := length (List.filter is_fetch h).

(** The fetches that brought a crumb: the refreshes of the cache. *)
Definition brought_token (e : event) : bool :=
  match e with
  | Fetched _ (Ok tok) => truthy tok
  | _ => false
  end.

Definition refreshes (h : list event) : nat :=
  length (List.filter brought_token h).

(** Every request of the history brought a crumb. *)
Definition fetch_ok (e : event) : bool :=
  match e with
  | Fetched _ (Ok tok) => truthy tok
  | Fetched _ (Raise _) => false
  | _ => true
  end.

(** Every clock reading of the history lies in [lo, lo + 30 min). *)
Definition in_window (lo : Z) (e : event) : bool :=
  match e with
  | ClockRead _ t => (lo <=? t) && (t <? lo + minutes_30)
  | _ => true
  end.

End Threads.

(** ** A fixture

  A small server to run the definitions on: a root with two jobs, a
  folder and a third job; the folder holds a job and a sub-folder whose
  listing fails.  The world is its clock, which every request and every
  reading moves on by a second. *)

Module Fixture.

(** A stand-in for [fnmatch.fnmatch(name, pat)]: [*] matches any run,
    [?] one character, any other character itself. *)
Fixpoint glob (pat : string) : string -> bool :=
  match pat with
  | EmptyString => fun s => String.eqb s ""
  | String c pat' =>
      if Ascii.eqb c "*" then
        fix star (s : string) : bool :=
          glob pat' s ||
          match s with
          | EmptyString => false
          | String _ s' => star s'
          end
      else if Ascii.eqb c "?" then
        fun s => match s with
                 | EmptyString => false
                 | String _ s' => glob pat' s'
                 end
      else
        fun s => match s with
                 | EmptyString => false
                 | String d s' => Ascii.eqb c d && glob pat' s'
                 end
  end.

Definition entry (n cls : string) : value :=
  VDict [("_class", VStr cls); ("name", VStr n);
         ("url", VStr ("http://jenkins/job/" +:+ n +:+ "/"))].

Definition freestyle : string := "hudson.model.FreeStyleProject".
Definition folder : string := "com.cloudbees.hudson.plugins.folder.Folder".

Definition listing (entries : list value) : Response :=
  {| status_code := 200; headers := [];
     json_body := Some (VDict [("jobs", VList entries)]) |}.

Definition plain (code : Z) : Response :=
  {| status_code := code; headers := []; json_body := None |}.

Definition queued : Response :=
  {| status_code := 201;
     headers := [("Location", "http://jenkins/queue/item/7/")];
     json_body := None |}.

Definition root_listing : Response :=
  listing [entry "build-a" freestyle; entry "build-b" freestyle;
           entry "buildFolder" folder; entry "deploy" freestyle].

Definition folder_listing : Response :=
  listing [entry "nightly" freestyle; entry "broken" folder].

Definition crumb_body : Response :=
  {| status_code := 200; headers := [];
     json_body := Some (VDict [("crumb", VStr "c0ffee");
                               ("crumbRequestField", VStr "Jenkins-Crumb")]) |}.

Definition respond (r : Request) : option Response :=
  let u := req_url r in
  let get := String.eqb (Str.upper (req_method r)) "GET" in
  if get && String.eqb u "http://jenkins/api/json" then Some root_listing
  else if get && String.eqb u "http://jenkins/job/buildFolder/api/json"
  then Some folder_listing
  else if get && String.eqb u "http://jenkins/job/buildFolder/job/broken/api/json"
  then Some (plain 500)
  else if get && String.eqb u "http://jenkins/crumbIssuer/api/json"
  then Some crumb_body
  else if get && String.eqb u "http://jenkins/job/down/api/json"
  then None
  else if negb get && String.eqb u "http://jenkins/job/deploy/build"
  then Some queued
  else if negb get && String.eqb u "http://jenkins/job/deploy/buildWithParameters"
  then Some queued
  else if negb get && String.eqb u "http://jenkins/job/buildFolder/job/nightly/build"
  then Some queued
  else Some (plain 404).

#[export] Instance jenkins : Env := {|
  World := Z;
  JENKINS_URL := "http://jenkins";
  JENKINS_USER := "ci";
  JENKINS_API_TOKEN := "secret";
  send := fun r w => (respond r, w + 1000000);
  datetime_now := fun w => (w, w + 1000000);
  fnmatch := fun n pat => glob pat n;
  py_repr := fun _ => "<repr>"
|}.

(** The same, with a server that has nothing and answers nothing. *)
Definition silent : Env := {|
  World := Z;
  JENKINS_URL := "http://jenkins";
  JENKINS_USER := "ci";
  JENKINS_API_TOKEN := "secret";
  send := fun r w => (None, w + 1000000);
  datetime_now := fun w => (w, w + 1000000);
  fnmatch := fun n pat => glob pat n;
  py_repr := fun _ => "<repr>"
|}.

Definition state (c : CrumbCache) (clock : Z) (rs : list Request) : @State jenkins :=
  {| crumb_cache := c; world := clock; sent := rs |}.

Definition silent_state (c : CrumbCache) (clock : Z) (rs : list Request)
  : @State silent :=
  @mkState silent c clock rs.

Definition start : @State jenkins := state empty_cache 0 [].

(** Two calls on two threads, run by a schedule from the start state
    (the initial configuration if the schedule asks a thread to step that
    cannot). *)
Definition two_calls (schedule : list nat) : @Config jenkins :=
  default (initial 2 start) (run schedule (initial 2 start)).

Definition two_silent_calls (schedule : list nat) : @Config silent :=
  default (initial 2 (silent_state empty_cache 0 []))
          (run schedule (initial 2 (silent_state empty_cache 0 []))).

End Fixture.

(** ** The other tools *)

Section Tools.

Context `{env : Env}.

Local Notation "x <- c1 ;; c2" := (bind c1 (fun x => c2))
  (at level 100, c1 at next level, right associativity).

(** *** Listing *)

(** What the loop of the non-recursive branch of [list_jobs] does with one
    entry of ["jobs"]: the dict it appends, if it appends one. *)
Definition top_level_entry (include_folders : bool) (job : value)
  : result (option value) :=
  result_bind (py_get job "name" (VStr "")) (fun job_name =>
  result_bind (py_get job "_class" (VStr "")) (fun job_class =>
  result_bind (py_lower job_class) (fun class_lower =>
  let item_type := if Str.contains "folder" class_lower then "folder" else "job" in
  if String.eqb item_type "job" || (String.eqb item_type "folder" && include_folders)
  then
    result_bind (py_get job "url" (VStr "")) (fun job_url =>
    result_bind (py_get job "description" (VStr "")) (fun job_description =>
    Ok (Some (VDict [("name", job_name); ("full_name", job_name);
                     ("type", VStr item_type); ("url", job_url);
                     ("description", job_description)]))))
  else Ok None))).

Fixpoint top_level_entries (include_folders : bool) (jobs : list value)
  : result (list value) :=
  match jobs with
  | [] => Ok []
  | job :: rest =>
      result_bind (top_level_entry include_folders job) (fun o =>
      result_bind (top_level_entries include_folders rest) (fun more =>
      Ok (match o with Some d => d :: more | None => more end)))
  end.

(** [list_jobs(recursive, max_depth, include_folders)] *)
Definition list_jobs (recursive : bool) (max_depth : Z) (include_folders : bool)
  : M (list value) :=
  try_except
    (if recursive then
       all_items <- _collect_jobs_recursive "" max_depth 0 ;;
       let result_items :=
         if include_folders then all_items else List.filter is_job all_items in
       ret (map JobTreeItem_dump result_items)
     else
       resp <- jenkins_request "GET" "api/json" false None [] ;;
       data <- lift (json resp) ;;
       jobs <- lift (py_get data "jobs" (VList [])) ;;
       jobs <- lift (py_iter jobs) ;;
       lift (top_level_entries include_folders jobs))
    any_exception
    (fun e => raise e).

(** *** Folders *)

Record FolderInfo : Type := mkFolderInfo {
  folder_name : string;
  folder_full_name : string;
  folder_description : option string;
  folder_jobs : list JobTreeItem;
  folder_folders : list JobTreeItem
}.

Definition FolderInfo_dump (f : FolderInfo) : value :=
  VDict [("name", VStr (folder_name f));
         ("full_name", VStr (folder_full_name f));
         ("description", opt_str (folder_description f));
         ("jobs", VList (map JobTreeItem_dump (folder_jobs f)));
         ("folders", VList (map JobTreeItem_dump (folder_folders f)))].

(** The [JobTreeItem] that the loop of [get_folder_info] builds from one
    entry; [full_name] is always [folder_path/name]. *)
Definition folder_item (folder_path : string) (item : value) : result JobTreeItem :=
  result_bind (py_get item "name" (VStr "")) (fun item_name =>
  result_bind (py_get item "_class" (VStr "")) (fun item_class =>
  result_bind (py_get item "url" (VStr "")) (fun item_url =>
  result_bind (py_get item "description" (VStr "")) (fun item_description =>
  result_bind (py_lower item_class) (fun class_lower =>
  result_bind (as_str item_name) (fun n =>
  result_bind (as_opt_str item_url) (fun u =>
  result_bind (as_opt_str item_description) (fun d =>
  Ok {| name := n; full_name := folder_path +:+ "/" +:+ n;
        type_ := if Str.contains "folder" class_lower then "folder" else "job";
        url := u; description := d |})))))))).

(** The loop of [get_folder_info]: the jobs and the folders so far. *)
Fixpoint split_items (folder_path : string) (items : list value)
         (jobs folders : list JobTreeItem)
  : result (list JobTreeItem * list JobTreeItem) :=
  match items with
  | [] => Ok (jobs, folders)
  | item :: rest =>
      result_bind (folder_item folder_path item) (fun ti =>
      if is_folder ti
      then split_items folder_path rest jobs (folders ++ [ti])
      else split_items folder_path rest (jobs ++ [ti]) folders)
  end.

(** [folder_path.split('/')[-1]] *)
Definition last_segment (folder_path : string) : string :=
  List.last (Str.split_slash folder_path) "".

(** [get_folder_info(folder_path)] *)
Definition get_folder_info (folder_path : string) : M value :=
  try_except
    (resp <- jenkins_request_nested "GET" folder_path "api/json" None [] ;;
     data <- lift (json resp) ;;
     entries <- lift (py_get data "jobs" (VList [])) ;;
     entries <- lift (py_iter entries) ;;
     jf <- lift (split_items folder_path entries [] []) ;;
     d <- lift (py_get data "description" (VStr "")) ;;
     d' <- lift (as_opt_str d) ;;
     ret (FolderInfo_dump
            {| folder_name := last_segment folder_path;
               folder_full_name := folder_path;
               folder_description := d';
               folder_jobs := fst jf; folder_folders := snd jf |}))
    any_exception
    (fun e => raise e).

(** *** Builds *)

Record BuildStatusResponse : Type := mkBuildStatus {
  build_job_name : string;
  build_number : Z;
  build_status : string;
  build_timestamp : option Z;
  build_duration : option Z;
  build_url : option string
}.

(** The handlers of [get_build_status] (and of [trigger_job]): a 404
    becomes a [ValueError] with the discovery hints, the rest goes on. *)
Definition not_found_handler (job_name operation : string) {A} (e : exn) : M A :=
  match e with
  | HTTPError code =>
      if code =? 404
      then raise (ValueError (create_job_not_found_error job_name operation))
      else raise e
  | _ => raise e
  end.

Section BuildStatus.

(** What pydantic makes of a value given to an [Optional[int]] field:
    [None] when it refuses it. *)
Variable opt_int_field : value -> option (option Z).

Definition validate_opt_int (v : value) : result (option Z) :=
  match opt_int_field v with
  | Some z => Ok z
  | None => Raise ValidationError
  end.

(** [data.get("result", "BUILDING" if data.get("building") else "UNKNOWN")] *)
Definition build_status_of (data : value) : result value :=
  result_bind (py_get data "building" VNone) (fun building =>
  py_get data "result" (VStr (if truthy building then "BUILDING" else "UNKNOWN"))).

(** The [BuildStatusResponse(...)] of [get_build_status]: the fields are
    read, then validated together. *)
Definition build_status_response (job_name : string) (number : Z) (data : value)
  : result BuildStatusResponse :=
  result_bind (build_status_of data) (fun st =>
  result_bind (py_get data "timestamp" VNone) (fun ts =>
  result_bind (py_get data "duration" VNone) (fun du =>
  result_bind (py_get data "url" VNone) (fun u =>
  match as_str st, validate_opt_int ts, validate_opt_int du, as_opt_str u with
  | Ok st', Ok ts', Ok du', Ok u' =>
      Ok {| build_job_name := job_name; build_number := number;
            build_status := st'; build_timestamp := ts';
            build_duration := du'; build_url := u' |}
  | _, _, _, _ => Raise ValidationError
  end)))).

(** [get_build_status(job_name, build_number)] *)
Definition get_build_status (job_name : string) (number : Z)
  : M BuildStatusResponse :=
  try_except
    (resp <- (if Str.contains "/" job_name
              then jenkins_request_nested "GET" job_name
                     (Str.of_Z number +:+ "/api/json") None []
              else jenkins_request "GET"
                     (job_name +:+ "/" +:+ Str.of_Z number +:+ "/api/json")
                     true None []) ;;
     data <- lift (json resp) ;;
     lift (build_status_response job_name number data))
    any_exception
    (not_found_handler job_name "getting build status").

End BuildStatus.

(** *** Queue, server, health *)

(** [get_queue_info()] *)
Definition get_queue_info : M value :=
  try_except
    (resp <- jenkins_request "GET" "queue/api/json" false None [] ;;
     data <- lift (json resp) ;;
     lift (py_get data "items" (VList [])))
    any_exception
    (fun e => raise e).

(** [server_info()] *)
Definition server_info : M value :=
  try_except
    (resp <- jenkins_request "GET" "api/json" false None [] ;;
     data <- lift (json resp) ;;
     version <- lift (py_get data "jenkinsVersion" VNone) ;;
     ret (VDict [("version", version); ("url", VStr JENKINS_URL)]))
    any_exception
    (fun e => raise e).

Record HealthCheckResponse : Type := mkHealth {
  health_status : string;
  health_details : option string
}.

Definition health_request : Request :=
  {| req_method := "GET";
     req_url := JENKINS_URL +:+ "/api/json";
     req_auth := auth;
     req_headers := [];
     req_data := None;
     req_timeout := Some 5 |}.

Section Health.

(** [str(e)] for the exceptions that the libraries raise. *)
Variable exn_str : exn -> string.

Definition exn_message (e : exn) : string :=
  match e with
  | ValueError msg => msg
  | _ => exn_str e
  end.

(** [get_health()] *)
Definition get_health : M HealthCheckResponse :=
  try_except
    (response <- requests_request health_request ;;
     _ <- lift (raise_for_status response) ;;
     match header_get "x-jenkins" (headers response) with
     | None =>
         raise (ValueError "Endpoint did not respond like a Jenkins instance.")
     | Some _ => ret {| health_status := "ok"; health_details := None |}
     end)
    any_exception
    (fun e =>
       ret {| health_status := "error";
              health_details :=
                Some ("Failed to connect to Jenkins: " +:+ exn_message e) |}).

End Health.

End Tools.

(** ** A second server *)

(** A server in the middle of a build: its crumb issuer answers with a
    JSON list, its top-level listing carries an entry that is not an
    object, and build 7 of [deploy] is still running. *)
Module Busy.

Definition build (result : option value) (building : bool) : Response :=
  {| status_code := 200; headers := [];
     json_body :=
       Some (VDict (match result with
                    | Some r => [("result", r)]
                    | None => []
                    end ++
                    [("building", VBool building);
                     ("timestamp", VInt 1700000000000);
                     ("duration", VInt 0);
                     ("url", VStr "http://jenkins/job/deploy/7/")])) |}.

Definition root : Response :=
  {| status_code := 200; headers := [("X-Jenkins", "2.440.1")];
     json_body :=
       Some (VDict [("jobs", VList [Fixture.entry "deploy" Fixture.freestyle;
                                    VInt 7;
                                    Fixture.entry "later" Fixture.freestyle])]) |}.

Definition respond (r : Request) : option Response :=
  let u := req_url r in
  if String.eqb u "http://jenkins/api/json" then Some root
  else if String.eqb u "http://jenkins/crumbIssuer/api/json"
  then Some {| status_code := 200; headers := []; json_body := Some (VList []) |}
  else if String.eqb u "http://jenkins/job/deploy/7/api/json"
  then Some (build (Some VNone) true)
  else if String.eqb u "http://jenkins/job/deploy/6/api/json"
  then Some (build (Some (VStr "SUCCESS")) false)
  else if String.eqb u "http://jenkins/job/deploy/5/api/json"
  then Some (build None true)
  else Some (Fixture.plain 404).

Definition jenkins : Env := {|
  World := Z;
  JENKINS_URL := "http://jenkins";
  JENKINS_USER := "ci";
  JENKINS_API_TOKEN := "secret";
  send := fun r w => (respond r, w + 1000000);
  datetime_now := fun w => (w, w + 1000000);
  fnmatch := fun n pat => Fixture.glob pat n;
  py_repr := fun _ => "<repr>"
|}.

Definition start : @State jenkins := @mkState jenkins empty_cache 0 [].

(** An [Optional[int]] field that takes integers and [None] only. *)
Definition strict_int (v : value) : option (option Z) :=
  match v with
  | VNone => Some None
  | VInt z => Some (Some z)
  | _ => None
  end.

End Busy.

(** ** The vocabulary of the properties *)

(** The rule as the specification words it: a list becomes the comma-join
  of the string forms of its elements, a boolean the lowercase literal,
  anything else its plain string form. *)
Definition normalized (py_repr : value -> string) (v : value) : string :=
  match v with
  | VList l => Str.join "," (map (py_str py_repr) l)
  | VBool true => "true"
  | VBool false => "false"
  | _ => py_str py_repr v
  end.

(** "A slash-delimited job path with the segments [segments]": none of
  the segments holds a slash, there is at least one, and the path is the
  segments with a slash between each two. *)
Definition slash_delimited (job_path : string) (segments : list string) : Prop :=
  segments <> []
  /\ Forall (fun s => Url.mem_char "/" s = false) segments
  /\ job_path = Str.join "/" segments.

Section CrumbContract.
Context `{env : Env}.

(** The cache holds a crumb together with its expiry, or neither. *)
Definition cache_wf (c : CrumbCache) : Prop :=
  (token c = VNone /\ expires c = None) \/
  (truthy (token c) = true /\ exists e, expires c = Some e).


(** The world once the test of the cache has run: the test reads the
    clock when the cache holds a crumb and an expiry. *)
Definition world_after_test (st : State) : World :=
  if truthy (token (crumb_cache st)) then
    match expires (crumb_cache st) with
    | Some _ => snd (datetime_now (world st))
    | None => world st
    end
  else world st.

Definition http_error (resp : Response) : Prop :=
  400 <= status_code resp < 600.


(** The fetch failed: no response, an error status, or a JSON object
    whose token field is missing or empty. *)
Definition fetch_failed (o : option Response) : Prop :=
  match o with
  | None => True
  | Some resp =>
      http_error resp \/
      (exists d, json_body resp = Some (VDict d) /\
                 match dict_get "crumb" d with
                 | Some tok => truthy tok = false
                 | None => True
                 end)
  end.



(** What [fetch_crumb_token] makes of the outcome of the request. *)
Definition crumb_of (o : option Response) : result value :=
  match o with
  | None => Raise TransportError
  | Some resp =>
      result_bind (raise_for_status resp) (fun _ =>
      result_bind (json resp) (fun data => py_get data "crumb" VNone))
  end.

Definition with_world (w : World) (st : State) : State :=
  {| crumb_cache := crumb_cache st; world := w; sent := sent st |}.

Definition cache_fresh (st : State) : bool :=
  truthy (token (crumb_cache st)) &&
  match expires (crumb_cache st) with
  | Some e => fst (datetime_now (world st)) <? e
  | None => false
  end.


End CrumbContract.

Section WalkVocabulary.
Context `{env : Env}.

(** The [for] loop of the walk over a recursive call that always
    returns: [walk_items] without the fuel. *)
Fixpoint walk_loop (recurse : string -> M (list JobTreeItem))
         (path : string) (items : list value) (jobs : list JobTreeItem)
  : M (list JobTreeItem) :=
  match items with
  | [] => ret jobs
  | item :: rest =>
      bind (lift (tree_item path item)) (fun ti =>
      if is_folder ti then
        bind (recurse (full_name ti)) (fun sub_jobs =>
        walk_loop recurse path rest (jobs ++ [ti] ++ sub_jobs))
      else walk_loop recurse path rest (jobs ++ [ti]))
  end.

(** The body of [_collect_jobs_recursive] as the source has it, the
    recursive call being [recurse]. *)
Definition walk_body (recurse : string -> M (list JobTreeItem))
           (path : string) (max_depth current_depth : Z)
  : M (list JobTreeItem) :=
  if current_depth >=? max_depth then ret []
  else
    try_except
      (bind (fetch_children path) (fun items =>
       walk_loop recurse path items []))
      any_exception
      (fun _ => ret []).

(** What a listing contributes: each entry, and after a folder what the
    walk below it returns, in the order of the listing. *)
Fixpoint listed (recurse : string -> M (list JobTreeItem))
         (entries : list JobTreeItem) : M (list JobTreeItem) :=
  match entries with
  | [] => ret []
  | ti :: rest =>
      bind (if is_folder ti then recurse (full_name ti) else ret [])
        (fun below =>
      bind (listed recurse rest) (fun more => ret (ti :: below ++ more)))
  end.

(** The request of a listing. *)
Definition listing_request (path : string) : Request :=
  {| req_method := "GET";
     req_url := if String.eqb path ""
                then JENKINS_URL +:+ "/" +:+ "api/json"
                else JENKINS_URL +:+ "/job/" +:+ Url.encoded_path path
                       +:+ "/" +:+ "api/json";
     req_auth := auth; req_headers := []; req_data := None;
     req_timeout := None |}.

End WalkVocabulary.

Section SearchVocabulary.
Context `{env : Env}.

(** [st'] comes from [st] by listing requests alone: the crumb cache is
    as it was and the requests sent since are listings. *)
Definition only_listings (st st' : State) : Prop :=
  crumb_cache st' = crumb_cache st /\
  exists paths, sent st' = sent st ++ map listing_request paths.

(** The three results of [search_and_trigger]. *)
Definition no_match_result (pattern : string) : value :=
  VDict [("error", VStr "No jobs found");
         ("pattern", VStr pattern);
         ("suggestion",
          VStr ("Try using search_jobs('" +:+ pattern
                +:+ "*') or search_jobs('*" +:+ pattern
                +:+ "*') for broader search"))].

Definition ambiguous_result (pattern : string) (found : list JobTreeItem) : value :=
  VDict [("error", VStr "Multiple jobs match pattern");
         ("pattern", VStr pattern);
         ("matches", VList (map JobTreeItem_dump found));
         ("suggestion",
          VStr "Use a more specific pattern or call trigger_job with the exact path")].

Definition triggered_result (m : JobTreeItem) (r : TriggerJobResponse) : value :=
  VDict [("success", VBool true);
         ("matched_job", JobTreeItem_dump m);
         ("trigger_result", TriggerJobResponse_dump r)].

(** The jobs that a pattern finds among the items of a walk. *)
Definition jobs_matching (pattern : string) (all_items : list JobTreeItem)
  : list JobTreeItem :=
  List.filter (matches_pattern pattern) (List.filter is_job all_items).

End SearchVocabulary.

Section ResolverVocabulary.
Context `{env : Env}.

(** The request of the direct lookup of [get_job_info]. *)
Definition lookup_request (job_name : string) : Request :=
  {| req_method := "GET";
     req_url := if Str.contains "/" job_name
                then JENKINS_URL +:+ "/job/" +:+ Url.encoded_path job_name
                       +:+ "/" +:+ "api/json"
                else JENKINS_URL +:+ "/job/" +:+ (job_name +:+ "/api/json");
     req_auth := auth; req_headers := []; req_data := None;
     req_timeout := None |}.

(** The state once a request has been sent. *)
Definition after_request (r : Request) (w : World) (st : State) : State :=
  {| crumb_cache := crumb_cache st; world := w; sent := sent st ++ [r] |}.

(** Case-insensitive wildcard match and substring containment. *)
Definition wildcard_ci (pattern s : string) : bool :=
  fnmatch (Str.lower s) (Str.lower pattern).

Definition contains_ci (needle s : string) : bool :=
  Str.contains (Str.lower needle) (Str.lower s).

(** The items that the fallback keeps: the jobs whose name or full path
    matches the queried name in one way or the other. *)
Definition similar_jobs (queried : string) (all_items : list JobTreeItem)
  : list JobTreeItem :=
  List.filter
    (fun item =>
       is_job item &&
       (wildcard_ci queried (name item) || wildcard_ci queried (full_name item)
        || contains_ci queried (name item) || contains_ci queried (full_name item)))
    all_items.

(** The two results of the fallback. *)
Definition miss_result (queried : string) : value :=
  JobInfoResponse_dump
    {| success := false; job_info := None; search_results := None;
       message := "Job '" +:+ queried +:+ "' not found and no similar jobs found";
       suggestions :=
         Some ["Try: search_jobs('*" +:+ queried +:+ "*')";
               "Or: list_jobs(recursive=True) to see all available jobs"] |}.

Definition similar_result (queried : string) (first : JobTreeItem)
           (similar : list JobTreeItem) : value :=
  JobInfoResponse_dump
    {| success := false; job_info := None;
       search_results := Some (map JobTreeItem_dump similar);
       message := "Job '" +:+ queried +:+ "' not found directly, but found "
                  +:+ Str.of_nat (length similar) +:+ " similar jobs";
       suggestions :=
         Some ["Use exact path: get_job_info('" +:+ full_name first +:+ "')";
               "Or try search_jobs() for more search options"] |}.

End ResolverVocabulary.

Section TriggerVocabulary.
Context `{env : Env}.

(** The URL that triggers a build of a job, by the endpoint. *)
Definition trigger_url (job_name endpoint : string) : string :=
  if Str.contains "/" job_name
  then JENKINS_URL +:+ "/job/" +:+ Url.encoded_path job_name +:+ "/" +:+ endpoint
  else JENKINS_URL +:+ "/job/" +:+ (job_name +:+ "/" +:+ endpoint).

(** The request that triggers a build with the build parameters
    [jenkins_params], [hdrs] being its headers. *)
Definition build_request (job_name : string) (jenkins_params : value)
           (hdrs : dict value) : Request :=
  {| req_method := "POST";
     req_url := trigger_url job_name
                  (if truthy jenkins_params then "buildWithParameters" else "build");
     req_auth := auth;
     req_headers := hdrs;
     req_data := if truthy jenkins_params then
                   match jenkins_params with
                   | VDict d =>
                       Some (Url.urlencode (process_jenkins_parameters py_repr d))
                   | _ => None
                   end
                 else None;
     req_timeout := None |}.

End TriggerVocabulary.

Section ThreadVocabulary.
Context `{env : Env}.

(** A cache written whole: the one the run started with, or the token and
    the expiry of one store of the history. *)
Definition whole (st0 : State) (h : list event) (cache : CrumbCache) : Prop :=
  cache = crumb_cache st0 \/
  exists j tok t,
    In (Stored j tok t) h /\
    cache = {| token := tok; expires := Some (t + minutes_30) |}.

(** At most one thread is inside the [with] block. *)
Definition exclusive (c : Config) : Prop :=
  forall i j p q,
    pcs c !! i = Some p -> pcs c !! j = Some q ->
    in_block p = true -> in_block q = true -> i = j.

(** The thread in the block is the one that holds the lock. *)
Definition holder_inv (c : Config) : Prop :=
  forall j p, pcs c !! j = Some p -> in_block p = true -> lock c = Some j.

(** A thread about to write holds a crumb; between the two writes the
    token of the cache is that crumb. *)
Definition writing_inv (c : Config) : Prop :=
  (forall i tok, pcs c !! i = Some (WriteToken tok) -> truthy tok = true) /\
  (forall i tok, pcs c !! i = Some (WriteExpires tok) ->
     truthy tok = true /\ token (crumb_cache (shared c)) = tok).

(** The cache is the one last written whole, but between the two writes
    of a store. *)
Definition coherent (c : Config) : Prop :=
  (exists i tok, pcs c !! i = Some (WriteExpires tok)) \/
  crumb_cache (shared c) = committed c.

Definition seen_whole (st0 : State) (c : Config) : Prop :=
  whole st0 (history c) (committed c) /\
  forall i seen valid,
    In (Tested i seen valid) (history c) -> whole st0 (history c) seen.

(** The requests sent are the fetches of the history. *)
Definition sent_inv (st0 : State) (c : Config) : Prop :=
  sent (shared c) = sent st0 ++ replicate (fetches (history c)) crumb_request.

Definition thread_inv (st0 : State) (c : Config) : Prop :=
  holder_inv c /\ writing_inv c /\ coherent c /\ seen_whole st0 c /\ sent_inv st0 c.

(** A history whose clock readings all lie in the half hour from [lo]:
    calls within one validity window. *)
Definition within (lo : Z) (h : list event) : Prop :=
  forallb (in_window lo) h = true.

(** Such a history whose fetches all brought a crumb. *)
Definition good (lo : Z) (h : list event) : Prop :=
  forallb fetch_ok h = true /\ within lo h.

(** A crumb is being stored, or is stored with an expiry beyond the
    window. *)
Definition stored_or_storing (lo : Z) (c : Config) : Prop :=
  (exists i tok, pcs c !! i = Some (WriteToken tok)) \/
  (exists i tok, pcs c !! i = Some (WriteExpires tok)) \/
  (truthy (token (crumb_cache (shared c))) = true /\
   exists e, expires (crumb_cache (shared c)) = Some e /\ lo + minutes_30 <= e).

(** A thread that has left the test and the fetch of its call behind. *)
Definition past_fetch (p : pc) : bool :=
  match p with
  | WriteToken _ | WriteExpires _ | Leaving _ | Returned _ => true
  | _ => false
  end.

(** Each fetch of the history is the one fetch of a call that is past
    it. *)
Definition calls_inv (n : nat) (c : Config) : Prop :=
  length (pcs c) = n /\
  (fetches (history c) <= length (List.filter past_fetch (pcs c)))%nat.

Definition window_inv (lo : Z) (c : Config) : Prop :=
  (refreshes (history c) = 0%nat \/
   (refreshes (history c) = 1%nat /\ stored_or_storing lo c))
  /\ (forall i, pcs c !! i = Some Fetching -> refreshes (history c) = 0%nat).

End ThreadVocabulary.

Section ToolVocabulary.
Context `{env : Env}.

(** A request that reads: a GET without headers and without a body. *)
Definition plain_get (r : Request) : Prop :=
  req_method r = "GET" /\ req_headers r = [] /\ req_data r = None.

(** [st'] comes from [st] by reading alone: the crumb cache is as it was
    and the requests sent since are plain GETs. *)
Definition reads_only (st st' : State) : Prop :=
  crumb_cache st' = crumb_cache st /\
  exists rs, sent st' = sent st ++ rs /\ Forall plain_get rs.

(** The server refuses a request: no answer, or an error status. *)
Definition refused (o : option Response) : Prop :=
  match o with
  | None => True
  | Some resp => http_error resp
  end.

(** An item is a job or a folder, and its full name is its name, or
    ends with a slash and its name. *)
Definition item_shape (i : JobTreeItem) : Prop :=
  (type_ i = "job" \/ type_ i = "folder") /\
  (full_name i = name i \/ exists parent, full_name i = parent +:+ "/" +:+ name i).

(** The request of [get_build_status]. *)
Definition build_status_request (job_name : string) (number : Z) : Request :=
  {| req_method := "GET";
     req_url := if Str.contains "/" job_name
                then JENKINS_URL +:+ "/job/" +:+ Url.encoded_path job_name
                       +:+ "/" +:+ (Str.of_Z number +:+ "/api/json")
                else JENKINS_URL +:+ "/job/"
                       +:+ (job_name +:+ "/" +:+ Str.of_Z number +:+ "/api/json");
     req_auth := auth; req_headers := []; req_data := None;
     req_timeout := None |}.

(** The request of [get_folder_info]. *)
Definition folder_request (folder_path : string) : Request :=
  {| req_method := "GET";
     req_url := JENKINS_URL +:+ "/job/" +:+ Url.encoded_path folder_path
                  +:+ "/" +:+ "api/json";
     req_auth := auth; req_headers := []; req_data := None;
     req_timeout := None |}.

(** The characters of a URL path that need no escaping, the percent sign
    and the slash. *)
Definition url_path_char (c : ascii) : bool :=
  Url.always_safe c || Ascii.eqb c "%" || Ascii.eqb c "/".

End ToolVocabulary.

(** * Properties *)

(** ** Parameter normalization *)

Section NormalizeFacts.

Variable py_repr : value -> string.

Lemma process_value_normalized v :
  process_value py_repr v = normalized py_repr v.
Proof. destruct v as [| [] | | | |]; reflexivity. Qed.

Lemma dict_set_fresh {A} k (v : A) (d : dict A) :
  k ∉ dict_keys d -> dict_set k v d = d ++ [(k, v)].
Proof.
  induction d as [|[k' v'] d IH]; simpl; intros Hk; [reflexivity|].
  apply not_elem_of_cons in Hk as [Hne Hk].
  destruct (String.eqb_spec k k') as [->|_]; [contradiction|].
  now rewrite IH.
Qed.

Lemma process_fold (params : dict value) :
  forall acc : dict string,
    NoDup (dict_keys acc ++ dict_keys params) ->
    fold_left (fun processed kv =>
                 dict_set (fst kv) (process_value py_repr (snd kv)) processed)
              params acc
    = acc ++ map (fun kv => (fst kv, normalized py_repr (snd kv))) params.
Proof.
  induction params as [|[k v] params IH]; simpl; intros acc Hnd.
  - now rewrite app_nil_r.
  - assert (Hk : k ∉ dict_keys acc).
    { apply NoDup_app in Hnd as (_ & Hdisj & _).
      intros Hin. apply (Hdisj k Hin). left. }
    rewrite dict_set_fresh by exact Hk.
    rewrite IH.
    + rewrite <- app_assoc. simpl. now rewrite process_value_normalized.
    + unfold dict_keys in *. rewrite map_app. simpl.
      rewrite <- app_assoc. exact Hnd.
Qed.

End NormalizeFacts.

(** C8. For every parameter mapping (a dict: no key twice),
  [process_jenkins_parameters] keeps the keys in order and maps each
  value by the rule: a list to the comma-join of the string forms of its
  elements, a boolean to ["true"]/["false"], any other value to its
  plain string form. *)
Theorem process_jenkins_parameters_normalizes
        (py_repr : value -> string) (params : dict value) :
  NoDup (dict_keys params) ->
  process_jenkins_parameters py_repr params
  = map (fun kv => (fst kv, normalized py_repr (snd kv))) params.
Proof.
  intros Hnd. unfold process_jenkins_parameters.
  now rewrite process_fold.
Qed.

(** The example of the specification:
  [{"flag": True, "tags": ["a","b"], "n": 5}]. *)
Lemma process_jenkins_parameters_example :
  NoDup (dict_keys [("flag", VBool true);
                    ("tags", VList [VStr "a"; VStr "b"]);
                    ("n", VInt 5)])
  /\ process_jenkins_parameters (fun _ => "")
       [("flag", VBool true); ("tags", VList [VStr "a"; VStr "b"]); ("n", VInt 5)]
     = [("flag", "true"); ("tags", "a,b"); ("n", "5")].
Proof.
  assert (H : NoDup (dict_keys [("flag", VBool true);
                                ("tags", VList [VStr "a"; VStr "b"]);
                                ("n", VInt 5)])).
  { apply (bool_decide_unpack _). vm_compute. reflexivity. }
  split; [exact H|].
  rewrite (process_jenkins_parameters_normalizes _ _ H). reflexivity.
Defined.

(** ** Nested-path encoding *)

Section PathCodec.

Local Abbreviation no_slash s := (Url.mem_char "/" s = false).

Lemma append_empty_r s : s +:+ "" = s.
Proof.
  induction s as [|c s IH]; [reflexivity|].
  change (String c (s +:+ "") = String c s). now rewrite IH.
Qed.

Lemma mem_char_app c s1 s2 :
  Url.mem_char c (s1 +:+ s2) = Url.mem_char c s1 || Url.mem_char c s2.
Proof.
  induction s1 as [|a s1 IH]; simpl; [reflexivity|].
  now rewrite IH, orb_assoc.
Qed.

Lemma quote_char_no_slash c : no_slash (Url.quote_char "" c).
Proof.
  destruct c as [[] [] [] [] [] [] [] []]; vm_compute; reflexivity.
Qed.

Lemma quote_no_slash s : no_slash (Url.quote "" s).
Proof.
  induction s as [|c s IH]; simpl; [reflexivity|].
  now rewrite mem_char_app, quote_char_no_slash, IH.
Qed.

(** Splitting on the slash: the pieces have no slash, and joining them
    with a slash gives the path back. *)
Lemma split_slash_cons s : exists h t, Str.split_slash s = h :: t.
Proof.
  induction s as [|c s (h & t & IH)]; simpl; [eauto|].
  destruct (Ascii.eqb c "/"); [eauto|]. rewrite IH. eauto.
Qed.

Lemma split_slash_no_slash s :
  Forall (fun part => no_slash part) (Str.split_slash s).
Proof.
  induction s as [|c s IH]; simpl.
  - repeat constructor.
  - destruct (Ascii.eqb c "/") eqn:Hc.
    + constructor; [reflexivity | exact IH].
    + destruct (split_slash_cons s) as (h & t & Hs). rewrite Hs in *.
      inversion IH as [|? ? Hh Ht]; subst.
      constructor; [|exact Ht]. cbn [Url.mem_char].
      rewrite Ascii.eqb_sym, Hc. exact Hh.
Qed.

Lemma split_slash_join s : Str.join "/" (Str.split_slash s) = s.
Proof.
  induction s as [|c s IH]; [reflexivity|].
  simpl. destruct (split_slash_cons s) as (h & t & Hs).
  rewrite Hs in *. destruct (Ascii.eqb_spec c "/") as [->|_].
  - unfold Str.join in *. simpl. simpl in IH. now rewrite IH.
  - unfold Str.join in *. simpl in *.
    destruct t; simpl in *; now rewrite <- IH.
Qed.

(** The pieces of a path are its segments, and nothing else is. *)
Lemma split_slash_piece s rest :
  no_slash s ->
  Str.split_slash (s +:+ String "/" rest) = s :: Str.split_slash rest.
Proof.
  induction s as [|c s IH]; intros Hs; [reflexivity|].
  cbn [Url.mem_char] in Hs. apply orb_false_elim in Hs as [Hc Hs].
  change (String c s +:+ String "/" rest) with (String c (s +:+ String "/" rest)).
  cbn [Str.split_slash]. rewrite Ascii.eqb_sym, Hc, (IH Hs). reflexivity.
Qed.

Lemma split_slash_single s : no_slash s -> Str.split_slash s = [s].
Proof.
  induction s as [|c s IH]; intros Hs; [reflexivity|].
  cbn [Url.mem_char] in Hs. apply orb_false_elim in Hs as [Hc Hs].
  cbn [Str.split_slash]. rewrite Ascii.eqb_sym, Hc, (IH Hs). reflexivity.
Qed.

Lemma split_slash_of_join (segments : list string) :
  segments <> [] ->
  Forall (fun s => no_slash s) segments ->
  Str.split_slash (Str.join "/" segments) = segments.
Proof.
  unfold Str.join.
  induction segments as [|s segments IH]; intros Hne Hall; [contradiction|].
  inversion Hall as [|? ? Hs Hrest]; subst.
  destruct segments as [|s' segments]; [now apply split_slash_single|].
  change (String.concat "/" (s :: s' :: segments))
    with (s +:+ String "/" (String.concat "/" (s' :: segments))).
  rewrite split_slash_piece by exact Hs. f_equal.
  apply IH; [discriminate | exact Hrest].
Qed.

Lemma slash_delimited_parts job_path segments :
  slash_delimited job_path segments <-> segments = Url.path_parts job_path.
Proof.
  unfold slash_delimited, Url.path_parts. split.
  - intros (Hne & Hall & ->). symmetry. now apply split_slash_of_join.
  - intros ->. destruct (split_slash_cons job_path) as (h & t & Hs).
    split; [rewrite Hs; discriminate|].
    split; [apply split_slash_no_slash | symmetry; apply split_slash_join].
Qed.

(** Scanning for ["/job/"]: a piece without a slash holds no occurrence
    and ends none, and the separator is one occurrence. *)
Lemma count_skip_piece e rest :
  no_slash e ->
  Str.count_from "/job/" (e +:+ rest) 0 = Str.count_from "/job/" rest 0.
Proof.
  induction e as [|c e IH]; intros He; [reflexivity|].
  cbn [Url.mem_char] in He. apply orb_false_elim in He as [Hc He].
  change (String c e +:+ rest) with (String c (e +:+ rest)).
  cbn [Str.count_from].
  replace (String.prefix "/job/" (String c (e +:+ rest))) with false.
  - now apply IH.
  - cbn [String.prefix].
    destruct (ascii_dec "/" c) as [<-|_]; [|reflexivity].
    rewrite Ascii.eqb_refl in Hc. discriminate.
Qed.

Lemma count_separator rest :
  Str.count_from "/job/" ("/job/" +:+ rest) 0
  = S (Str.count_from "/job/" rest 0).
Proof.
  destruct rest; reflexivity.
Qed.

Lemma count_joined (e : string) (es : list string) :
  no_slash e -> Forall (fun x => no_slash x) es ->
  Str.count "/job/" (Str.join "/job/" (e :: es)) = length es.
Proof.
  unfold Str.count, Str.join. revert e.
  induction es as [|e' es IH]; intros e He Hes.
  - simpl. rewrite <- (append_empty_r e) at 1.
    now rewrite count_skip_piece.
  - inversion Hes as [|? ? He' Hes']; subst.
    change (String.concat "/job/" (e :: e' :: es))
      with (e +:+ "/job/" +:+ String.concat "/job/" (e' :: es)).
    rewrite count_skip_piece by exact He.
    rewrite count_separator. simpl length. f_equal. now apply IH.
Qed.

End PathCodec.

(** C3. Every job path is slash-delimited, with segments that are its
  own: the strings without a slash that, with a slash between each two,
  make the path.  Of these [n] segments each is percent-encoded on its
  own, to a string without a slash; the encoded path is the encoded
  segments joined by ["/job/"]; and the encoded path has exactly [n - 1]
  occurrences of ["/job/"], counted as [str.count] does (for [n >= 2] as
  for [n = 1]). *)
Theorem encoded_path_separators (job_path : string) :
  exists segments,
    slash_delimited job_path segments
    /\ (forall others, slash_delimited job_path others -> others = segments)
    /\ Url.encoded_path job_path = Str.join "/job/" (map (Url.quote "") segments)
    /\ Forall (fun e => Url.mem_char "/" e = false) (map (Url.quote "") segments)
    /\ Str.count "/job/" (Url.encoded_path job_path) = (length segments - 1)%nat.
Proof.
  exists (Url.path_parts job_path).
  split; [now apply slash_delimited_parts|].
  split; [intros others Hothers; now apply slash_delimited_parts|].
  unfold Url.encoded_path, Url.encoded_parts, Url.path_parts.
  split; [reflexivity|].
  assert (Hq : Forall (fun e => Url.mem_char "/" e = false)
                      (map (Url.quote "") (Str.split_slash job_path))).
  { apply Forall_forall. intros e He.
    apply list_elem_of_fmap in He as (s & -> & _). apply quote_no_slash. }
  split; [exact Hq|].
  destruct (split_slash_cons job_path) as (h & t & Hs). rewrite Hs in *.
  simpl map in *. inversion Hq as [|? ? Hh Ht]; subst.
  rewrite count_joined by assumption.
  rewrite length_map. simpl. lia.
Qed.

(** A path of three segments, one of them with a slash of its own kind
    ([%2F] is no slash): the segments are found, and encoded one by one. *)
Example encoded_path_of_three_segments :
  slash_delimited "team a/b%2Fc/deploy" ["team a"; "b%2Fc"; "deploy"]
  /\ Url.encoded_path "team a/b%2Fc/deploy" = "team%20a/job/b%252Fc/job/deploy".
Proof.
  split; [|reflexivity].
  split; [discriminate|]. split; [|reflexivity].
  repeat constructor.
Qed.

(** A segment that is itself [job]: three segments, two separators. *)
Example encoded_path_segment_named_job :
  Url.encoded_path "a b/job/c%d" = "a%20b/job/job/job/c%25d"
  /\ Str.count "/job/" (Url.encoded_path "a b/job/c%d") = 2%nat.
Proof. split; reflexivity. Qed.

(** ** The crumb cache *)

Section CrumbFacts.
Context `{env : Env}.

Lemma cached_crumb_valid_run st :
  cached_crumb_valid (crumb_cache st) st
  = (Ok (cache_fresh st), with_world (world_after_test st) st).
Proof.
  unfold cached_crumb_valid, cache_fresh, world_after_test, with_world.
  destruct st as [[tok ex] w sn]; simpl.
  destruct (truthy tok); simpl; [|reflexivity].
  destruct ex as [e|]; [|reflexivity].
  unfold bind, now, ret; simpl.
  destruct (datetime_now w) as [t w']; reflexivity.
Qed.

Lemma fetch_crumb_token_run st :
  fetch_crumb_token st
  = (crumb_of (fst (send crumb_request (world st))),
     {| crumb_cache := crumb_cache st;
        world := snd (send crumb_request (world st));
        sent := sent st ++ [crumb_request] |}).
Proof.
  unfold fetch_crumb_token, bind, requests_request, lift, crumb_of.
  destruct (send crumb_request (world st)) as [[resp|] w']; simpl; [|reflexivity].
  destruct (raise_for_status resp); simpl; [|reflexivity].
  destruct (json resp); reflexivity.
Qed.

(** The whole call, by the outcome of the test and of the request. *)
Lemma get_jenkins_crumb_run st :
  get_jenkins_crumb st
  = if cache_fresh st
    then (Ok (token (crumb_cache st)), with_world (world_after_test st) st)
    else
      let '(o, w') := send crumb_request (world_after_test st) in
      let st' := {| crumb_cache := crumb_cache st; world := w';
                    sent := sent st ++ [crumb_request] |} in
      match crumb_of o with
      | Ok tok =>
          if truthy tok then
            let '(t, w'') := datetime_now w' in
            (Ok tok,
             {| crumb_cache := {| token := tok; expires := Some (t + minutes_30) |};
                world := w''; sent := sent st ++ [crumb_request] |})
          else (Ok VNone, st')
      | Raise e => if is_RequestException e then (Ok VNone, st') else (Raise e, st')
      end.
Proof.
  unfold get_jenkins_crumb.
  unfold bind at 1. unfold read_cache at 1.
  unfold bind at 1. rewrite cached_crumb_valid_run.
  destruct (cache_fresh st); [reflexivity|].
  unfold try_except, bind at 1. rewrite fetch_crumb_token_run.
  cbn [world with_world crumb_cache sent fst snd].
  destruct (send crumb_request (world_after_test st)) as [o w']; cbn [fst snd].
  destruct (crumb_of o) as [tok|e]; [|destruct (is_RequestException e); reflexivity].
  destruct (truthy tok); [|reflexivity].
  unfold bind, write_token, write_expires, read_cache, write_cache, now, ret; simpl.
  destruct (datetime_now w') as [t w'']; reflexivity.
Qed.



Lemma fetch_failed_crumb_of o :
  fetch_failed o ->
  (exists e, crumb_of o = Raise e /\ is_RequestException e = true)
  \/ (exists tok, crumb_of o = Ok tok /\ truthy tok = false).
Proof.
  destruct o as [resp|]; simpl; [|left; eauto].
  unfold raise_for_status, json, http_error.
  destruct ((400 <=? status_code resp) && (status_code resp <? 600)) eqn:Hs;
    [left; eauto|].
  intros [Herr|(d & Hbody & Hget)]; [lia|].
  right. simpl. rewrite Hbody. simpl. unfold dict_get_default.
  destruct (dict_get "crumb" d) as [tok|]; eauto.
Qed.




(** A call leaves the cache with a crumb and its expiry, or with neither,
    if it found it so. *)
Lemma get_jenkins_crumb_wf st :
  cache_wf (crumb_cache st) -> cache_wf (crumb_cache (snd (get_jenkins_crumb st))).
Proof.
  intros Hwf. rewrite get_jenkins_crumb_run.
  destruct (cache_fresh st); [exact Hwf|].
  destruct (send crumb_request (world_after_test st)) as [o w'].
  destruct (crumb_of o) as [tok|e].
  - destruct (truthy tok) eqn:Htr; [|exact Hwf].
    destruct (datetime_now w') as [t w'']. right. simpl. eauto.
  - destruct (is_RequestException e); exact Hwf.
Qed.

End CrumbFacts.




(** The three cases on the fixture: a first call fetches and caches, a
    second one within the half hour answers from the cache, and a server
    that does not answer leaves the cache empty. *)
Example crumb_first_call :
  get_jenkins_crumb Fixture.start
  = (Ok (VStr "c0ffee"),
     Fixture.state {| token := VStr "c0ffee";
                      expires := Some (1000000 + minutes_30) |}
                   2000000 [@crumb_request Fixture.jenkins]).
Proof. reflexivity. Qed.

Example crumb_second_call :
  let st := snd (get_jenkins_crumb Fixture.start) in
  get_jenkins_crumb st
  = (Ok (VStr "c0ffee"), Fixture.state (crumb_cache st) 3000000 (sent st)).
Proof. reflexivity. Qed.

Example crumb_no_answer :
  get_jenkins_crumb (Fixture.silent_state empty_cache 0 [])
  = (Ok VNone,
     Fixture.silent_state empty_cache 1000000 [@crumb_request Fixture.silent]).
Proof. reflexivity. Qed.

(** ** The tree walk *)

Section WalkFacts.
Context `{env : Env}.

Lemma walk_items_some recurse path :
  (forall p st, exists r st', recurse p st = Some (r, st')) ->
  forall items jobs st,
    exists r st', walk_items recurse path items jobs st = Some (r, st').
Proof.
  intros Hrec. induction items as [|item items IH]; intros jobs st; simpl.
  - unfold retP. eauto.
  - unfold bindP, liftP, lift.
    destruct (tree_item path item) as [ti|e]; [|eauto].
    destruct (is_folder ti); [|apply IH].
    destruct (Hrec (full_name ti) st) as ([sub|e] & st' & ->); [apply IH | eauto].
Qed.

(** With more fuel than levels left, the walk returns, and returns a list. *)
Lemma collect_jobs_total fuel :
  forall path max_depth current_depth st,
    (Z.to_nat (max_depth - current_depth) < fuel)%nat ->
    exists items st',
      collect_jobs fuel path max_depth current_depth st = Some (Ok items, st').
Proof.
  induction fuel as [|fuel IH]; intros path md cd st Hfuel; [lia|].
  simpl. destruct (cd >=? md) eqn:Hgate; [unfold retP; eauto|].
  assert (Hrec : forall p st0, exists r st',
             collect_jobs fuel p md (cd + 1) st0 = Some (r, st')).
  { intros p st0. destruct (IH p md (cd + 1) st0) as (items & st' & ->); [lia|eauto]. }
  unfold try_exceptP, bindP, liftP.
  destruct (fetch_children path st) as [[items|e] st1]; [|unfold retP; eauto].
  destruct (walk_items_some (fun p => collect_jobs fuel p md (cd + 1))
              path Hrec items [] st1) as ([r|e] & st2 & ->);
    unfold any_exception, retP; eauto.
Qed.

Lemma walk_items_ext (f g : string -> P (list JobTreeItem)) path :
  (forall p st, f p st = g p st) ->
  forall items jobs st,
    walk_items f path items jobs st = walk_items g path items jobs st.
Proof.
  intros Hfg. induction items as [|item items IH]; intros jobs st; simpl;
    [reflexivity|].
  unfold bindP, liftP, lift.
  destruct (tree_item path item) as [ti|e]; [|reflexivity].
  destruct (is_folder ti); [|apply IH].
  rewrite Hfg. destruct (g (full_name ti) st) as [[[sub|e] st']|];
    [apply IH | reflexivity | reflexivity].
Qed.

Lemma walk_items_loop (f : string -> M (list JobTreeItem)) path :
  forall items jobs st,
    walk_items (fun p => liftP (f p)) path items jobs st
    = Some (walk_loop f path items jobs st).
Proof.
  induction items as [|item items IH]; intros jobs st; simpl; [reflexivity|].
  unfold bindP, bind, liftP, lift.
  destruct (tree_item path item) as [ti|e]; [|reflexivity].
  destruct (is_folder ti); [|apply IH].
  destruct (f (full_name ti) st) as [[sub|e] st']; [apply IH | reflexivity].
Qed.

(** The fuel that [_collect_jobs_recursive] gives the walk is enough. *)
Lemma collect_jobs_walk_fuel path max_depth current_depth st :
  collect_jobs (walk_fuel max_depth current_depth) path max_depth current_depth st
  = Some (_collect_jobs_recursive path max_depth current_depth st).
Proof.
  unfold _collect_jobs_recursive.
  destruct (collect_jobs_total (walk_fuel max_depth current_depth) path
              max_depth current_depth st) as (items & st' & ->);
    [unfold walk_fuel; lia | reflexivity].
Qed.

(** The equation of the source: [_collect_jobs_recursive] is its body,
    with itself one level down as the recursive call. *)
Lemma collect_jobs_equation path max_depth current_depth st :
  _collect_jobs_recursive path max_depth current_depth st
  = walk_body (fun p => _collect_jobs_recursive p max_depth (current_depth + 1))
              path max_depth current_depth st.
Proof.
  unfold _collect_jobs_recursive at 1, walk_body, walk_fuel.
  cbn [collect_jobs].
  destruct (current_depth >=? max_depth) eqn:Hgate; [reflexivity|].
  assert (Hfuel : Z.to_nat (max_depth - current_depth)
                  = walk_fuel max_depth (current_depth + 1))
    by (unfold walk_fuel; lia).
  rewrite Hfuel.
  unfold try_exceptP, try_except, bindP, bind, liftP.
  destruct (fetch_children path st) as [[items|e] st1]; [|reflexivity].
  rewrite (walk_items_ext _
             (fun p => liftP (_collect_jobs_recursive p max_depth (current_depth + 1))))
    by (intros p st0; apply collect_jobs_walk_fuel).
  rewrite walk_items_loop.
  destruct (walk_loop _ path items [] st1) as [[r|e] st2]; reflexivity.
Qed.

(** More fuel changes nothing. *)
Lemma collect_jobs_more_fuel fuel :
  forall path max_depth current_depth st,
    (Z.to_nat (max_depth - current_depth) < fuel)%nat ->
    collect_jobs fuel path max_depth current_depth st
    = Some (_collect_jobs_recursive path max_depth current_depth st).
Proof.
  induction fuel as [|fuel IH]; intros path md cd st Hfuel; [lia|].
  rewrite collect_jobs_equation. unfold walk_body. cbn [collect_jobs].
  destruct (cd >=? md) eqn:Hgate; [reflexivity|].
  unfold try_exceptP, try_except, bindP, bind, liftP.
  destruct (fetch_children path st) as [[items|e] st1]; [|reflexivity].
  rewrite (walk_items_ext _
             (fun p => liftP (_collect_jobs_recursive p md (cd + 1))))
    by (intros p st0; apply IH; lia).
  rewrite walk_items_loop.
  destruct (walk_loop _ path items [] st1) as [[r|e] st2]; reflexivity.
Qed.

(** A checked request sends its request, once, and touches nothing but
    the world. *)
Lemma request_checked_run r st :
  exists res,
    request_checked r st
    = (res, {| crumb_cache := crumb_cache st;
               world := snd (send r (world st));
               sent := sent st ++ [r] |}).
Proof.
  unfold request_checked, try_except, bind, requests_request, lift, ret, raise.
  destruct (send r (world st)) as [[resp|] w]; simpl; [|eauto].
  destruct (raise_for_status resp) as [[]|e]; simpl; eauto.
  destruct (is_RequestException e); eauto.
Qed.

Lemma fetch_children_run path st :
  exists res,
    fetch_children path st
    = (res, {| crumb_cache := crumb_cache st;
               world := snd (send (listing_request path) (world st));
               sent := sent st ++ [listing_request path] |}).
Proof.
  unfold fetch_children, listing_request.
  unfold bind at 1.
  assert (Hreq : exists res,
             (if negb (String.eqb path "")
              then jenkins_request_nested "GET" path "api/json" None []
              else jenkins_request "GET" "api/json" false None []) st
             = (res, {| crumb_cache := crumb_cache st;
                        world := snd (send (listing_request path) (world st));
                        sent := sent st ++ [listing_request path] |})).
  { unfold listing_request.
    destruct (String.eqb path ""); cbn [negb];
      unfold jenkins_request, jenkins_request_nested, add_crumb, bind;
      change (is_mutating "GET") with false; cbn [ret]; apply request_checked_run. }
  destruct Hreq as (res & Hreq). unfold listing_request in Hreq. rewrite Hreq.
  destruct res as [resp|e]; [|eauto].
  unfold bind, lift. destruct (json resp) as [data|e]; [|eauto].
  destruct (py_get data "jobs" (VList [])) as [jobs|e]; eauto.
Qed.

(** Over a recursive call that does nothing, the loop does nothing to
    the state. *)
Lemma walk_loop_quiet (recurse : string -> M (list JobTreeItem)) path :
  (forall p st, recurse p st = (Ok [], st)) ->
  forall items jobs st, snd (walk_loop recurse path items jobs st) = st.
Proof.
  intros Hrec. induction items as [|item items IH]; intros jobs st; simpl;
    [reflexivity|].
  unfold bind, lift. destruct (tree_item path item) as [ti|e]; [|reflexivity].
  destruct (is_folder ti); [rewrite Hrec|]; apply IH.
Qed.

Lemma collect_jobs_gate path max_depth current_depth st :
  current_depth >= max_depth ->
  _collect_jobs_recursive path max_depth current_depth st = (Ok [], st).
Proof.
  intros Hge. rewrite collect_jobs_equation. unfold walk_body.
  destruct (current_depth >=? max_depth) eqn:Hgate; [reflexivity | lia].
Qed.

Lemma listed_returns (recurse : string -> M (list JobTreeItem)) :
  (forall p st, exists items, fst (recurse p st) = Ok items) ->
  forall entries st, exists items, fst (listed recurse entries st) = Ok items.
Proof.
  intros Hrec. induction entries as [|ti entries IH]; intros st; simpl;
    [unfold ret; simpl; eauto|].
  unfold bind.
  assert (Hsub : exists below st1,
             (if is_folder ti then recurse (full_name ti) else ret []) st
             = (Ok below, st1)).
  { destruct (is_folder ti); [|unfold ret; eauto].
    destruct (Hrec (full_name ti) st) as (items & Hitems).
    destruct (recurse (full_name ti) st) as [r st1]. simpl in Hitems. subst. eauto. }
  destruct Hsub as (below & st1 & ->).
  destruct (IH st1) as (more & Hmore).
  destruct (listed recurse entries st1) as [r st2]. simpl in Hmore. subst.
  unfold ret. simpl. eauto.
Qed.

(** When every entry of the listing is well formed, the loop returns
    what the listing contributes, after what it had. *)
Lemma walk_loop_listed (recurse : string -> M (list JobTreeItem)) path :
  (forall p st, exists items, fst (recurse p st) = Ok items) ->
  forall items entries jobs st,
    all_results (tree_item path) items = Ok entries ->
    walk_loop recurse path items jobs st
    = bind (listed recurse entries) (fun found => ret (jobs ++ found)) st.
Proof.
  intros Hrec. induction items as [|item items IH]; intros entries jobs st Hall.
  - simpl in Hall. injection Hall as <-. simpl. unfold bind, ret.
    now rewrite app_nil_r.
  - simpl in Hall. unfold result_bind in Hall.
    destruct (tree_item path item) as [ti|e] eqn:Hti; [|discriminate].
    destruct (all_results (tree_item path) items) as [tis|e] eqn:Htis;
      [|discriminate].
    injection Hall as <-. cbn [walk_loop listed].
    unfold bind at 1. unfold lift at 1. rewrite Hti.
    destruct (is_folder ti).
    + destruct (Hrec (full_name ti) st) as (below & Hbelow).
      unfold bind, ret.
      destruct (recurse (full_name ti) st) as [r st1]. simpl in Hbelow. subst r.
      rewrite (IH tis _ st1 eq_refl). unfold bind, ret.
      destruct (listed recurse tis st1) as [[more|e] st2]; [|reflexivity].
      now rewrite <- !app_assoc.
    + rewrite (IH tis _ st eq_refl). unfold bind, ret.
      destruct (listed recurse tis st) as [[more|e] st2]; [|reflexivity].
      now rewrite <- !app_assoc.
Qed.

(** Whatever the fuel, a walk that returns does not raise: its handler
    takes every exception. *)
Lemma collect_jobs_no_raise fuel path max_depth current_depth st r st' :
  collect_jobs fuel path max_depth current_depth st = Some (r, st') ->
  exists items, r = Ok items.
Proof.
  destruct fuel as [|fuel]; simpl; [discriminate|].
  destruct (current_depth >=? max_depth); [unfold retP; intros [= <- _]; eauto|].
  unfold try_exceptP, bindP, liftP, any_exception, retP.
  destruct (fetch_children path st) as [[items|e] st1];
    [|intros [= <- _]; eauto].
  destruct (walk_items _ path items [] st1) as [[[found|e] st2]|];
    [intros [= <- _]; eauto | intros [= <- _]; eauto | discriminate].
Qed.

Lemma collect_jobs_returns path max_depth current_depth st :
  exists items,
    fst (_collect_jobs_recursive path max_depth current_depth st) = Ok items.
Proof.
  unfold _collect_jobs_recursive.
  destruct (collect_jobs_total (walk_fuel max_depth current_depth) path
              max_depth current_depth st) as (items & st' & ->);
    [unfold walk_fuel; lia | simpl; eauto].
Qed.

End WalkFacts.

(** C4. The walk terminates, whatever the root path and the server: with
    any fuel beyond the number of levels left it returns a list, the one
    [_collect_jobs_recursive] returns.  At a depth [>= max_depth] it
    returns the empty list and leaves the state as it was (nothing is
    fetched); so it does with [max_depth = 0] from the root.  At the last
    level ([current_depth + 1 = max_depth]) the only request sent is the
    listing of the path itself: no folder found there is fetched. *)
Theorem walk_terminates_within_depth `{env : Env}
        (path : string) (max_depth current_depth : Z) (st : State) :
  (forall fuel, (Z.to_nat (max_depth - current_depth) < fuel)%nat ->
     exists items st',
       collect_jobs fuel path max_depth current_depth st = Some (Ok items, st')
       /\ _collect_jobs_recursive path max_depth current_depth st = (Ok items, st'))
  /\ (current_depth >= max_depth ->
      _collect_jobs_recursive path max_depth current_depth st = (Ok [], st))
  /\ _collect_jobs_recursive path 0 0 st = (Ok [], st)
  /\ (current_depth + 1 = max_depth ->
      (forall folder st0,
         _collect_jobs_recursive folder max_depth (current_depth + 1) st0
         = (Ok [], st0))
      /\ sent (snd (_collect_jobs_recursive path max_depth current_depth st))
         = sent st ++ [listing_request path]).
Proof.
  split; [|split; [|split]].
  - intros fuel Hfuel.
    destruct (collect_jobs_total fuel path max_depth current_depth st Hfuel)
      as (items & st' & Hrun).
    exists items, st'. split; [exact Hrun|].
    rewrite collect_jobs_more_fuel in Hrun by exact Hfuel. congruence.
  - apply collect_jobs_gate.
  - apply collect_jobs_gate. lia.
  - intros Hlast.
    assert (Hquiet : forall folder st0,
               _collect_jobs_recursive folder max_depth (current_depth + 1) st0
               = (Ok [], st0))
      by (intros; apply collect_jobs_gate; lia).
    split; [exact Hquiet|].
    rewrite collect_jobs_equation. unfold walk_body.
    destruct (current_depth >=? max_depth) eqn:Hgate; [lia|].
    unfold try_except, bind.
    destruct (fetch_children_run path st) as (res & ->).
    destruct res as [items|e]; [|reflexivity].
    pose proof (walk_loop_quiet _ path Hquiet items []) as Hloop.
    match goal with
    | |- context [walk_loop ?f path items [] ?s] =>
        specialize (Hloop s); destruct (walk_loop f path items [] s) as [[r|e] s']
    end; simpl in Hloop; subst; reflexivity.
Qed.

Lemma walk_last_level_on_fixture :
  0 + 1 = 1 /\
  sent (snd (_collect_jobs_recursive "" 1 0 Fixture.start))
  = sent Fixture.start ++ [@listing_request Fixture.jenkins ""].
Proof.
  split; [reflexivity|].
  apply (proj2 (proj2 (proj2
           (walk_terminates_within_depth "" 1 0 Fixture.start)))).
  reflexivity.
Defined.

(** C7. The walk never raises, whatever the path, the depths and the
    failures of the server: it returns a list (and so does every run of
    it that has fuel enough to return).  When the listing of the
    path cannot be fetched (the request raises, whatever it raises), the
    walk of the path returns the empty list.  When it can, and its entries
    are well formed, the walk returns each entry followed, for a folder,
    by what the walk of that folder returns - the empty list where that
    one failed - so that a failure below loses nothing of the rest. *)
Theorem walk_never_raises `{env : Env}
        (path : string) (max_depth current_depth : Z) (st : State) :
  (exists items,
     fst (_collect_jobs_recursive path max_depth current_depth st) = Ok items)
  /\ (forall fuel r st',
        collect_jobs fuel path max_depth current_depth st = Some (r, st') ->
        exists items, r = Ok items)
  /\ (current_depth < max_depth ->
      forall e st',
        fetch_children path st = (Raise e, st') ->
        _collect_jobs_recursive path max_depth current_depth st = (Ok [], st'))
  /\ (current_depth < max_depth ->
      forall items entries st',
        fetch_children path st = (Ok items, st') ->
        all_results (tree_item path) items = Ok entries ->
        _collect_jobs_recursive path max_depth current_depth st
        = listed (fun p => _collect_jobs_recursive p max_depth (current_depth + 1))
                 entries st').
Proof.
  split; [apply collect_jobs_returns|].
  split; [intros fuel r st'; apply collect_jobs_no_raise|].
  split; intros Hlt.
  - intros e st' Hfetch. rewrite collect_jobs_equation. unfold walk_body.
    destruct (current_depth >=? max_depth) eqn:Hgate; [lia|].
    unfold try_except, bind. now rewrite Hfetch.
  - intros items entries st' Hfetch Hall.
    rewrite collect_jobs_equation. unfold walk_body.
    destruct (current_depth >=? max_depth) eqn:Hgate; [lia|].
    unfold try_except. unfold bind at 1. rewrite Hfetch.
    assert (Hrec : forall p st0, exists found,
               fst (_collect_jobs_recursive p max_depth (current_depth + 1) st0)
               = Ok found) by (intros; apply collect_jobs_returns).
    rewrite (walk_loop_listed
               (fun p => _collect_jobs_recursive p max_depth (current_depth + 1))
               path Hrec items entries [] st' Hall).
    destruct (listed_returns
                (fun p => _collect_jobs_recursive p max_depth (current_depth + 1))
                Hrec entries st') as (found & Hfound).
    unfold bind, ret.
    destruct (listed _ entries st') as [r st2]. simpl in Hfound. subst r.
    reflexivity.
Qed.

(** On the fixture: the listing of [buildFolder/broken] is refused (500),
    the folder is listed with nothing below it, and [deploy], which comes
    after, is there. *)
Lemma walk_partial_on_fixture :
  2 < 10 /\
  _collect_jobs_recursive "buildFolder/broken" 10 2 Fixture.start
  = (Ok [], Fixture.state empty_cache 1000000
              [@listing_request Fixture.jenkins "buildFolder/broken"]).
Proof.
  split; [reflexivity|].
  apply (proj1 (proj2 (proj2
           (walk_never_raises "buildFolder/broken" 10 2 Fixture.start)))
           eq_refl (HTTPError 500)).
  reflexivity.
Defined.

Example walk_fixture_names :
  match fst (_collect_jobs_recursive "" 10 0 Fixture.start) with
  | Ok items => map full_name items
  | Raise _ => []
  end
  = ["build-a"; "build-b"; "buildFolder"; "buildFolder/nightly";
     "buildFolder/broken"; "deploy"].
Proof. reflexivity. Qed.

(** ** Search and trigger *)

Section SearchFacts.
Context `{env : Env}.

Lemma only_listings_refl st : only_listings st st.
Proof. split; [reflexivity|]. exists []. simpl. now rewrite app_nil_r. Qed.

Lemma only_listings_trans st1 st2 st3 :
  only_listings st1 st2 -> only_listings st2 st3 -> only_listings st1 st3.
Proof.
  intros [Hc1 (p1 & Hs1)] [Hc2 (p2 & Hs2)]. split; [congruence|].
  exists (p1 ++ p2). rewrite Hs2, Hs1, map_app. now rewrite app_assoc.
Qed.

Lemma fetch_children_only_listings path st :
  only_listings st (snd (fetch_children path st)).
Proof.
  destruct (fetch_children_run path st) as (res & ->). simpl.
  split; [reflexivity|]. now exists [path].
Qed.

Lemma walk_items_only_listings (recurse : string -> P (list JobTreeItem)) path :
  (forall p st r st', recurse p st = Some (r, st') -> only_listings st st') ->
  forall items jobs st r st',
    walk_items recurse path items jobs st = Some (r, st') ->
    only_listings st st'.
Proof.
  intros Hrec. induction items as [|item items IH]; intros jobs st r st'; simpl.
  - unfold retP. intros [= <- <-]. apply only_listings_refl.
  - unfold bindP, liftP, lift.
    destruct (tree_item path item) as [ti|e];
      [|intros [= <- <-]; apply only_listings_refl].
    destruct (is_folder ti); [|apply IH].
    destruct (recurse (full_name ti) st) as [[[sub|e] st1]|] eqn:Hsub;
      [|intros [= <- <-]; eapply Hrec; eassumption|discriminate].
    intros Hrest. eapply only_listings_trans; [eapply Hrec; eassumption|].
    eapply IH; eassumption.
Qed.

Lemma collect_jobs_only_listings fuel :
  forall path max_depth current_depth st r st',
    collect_jobs fuel path max_depth current_depth st = Some (r, st') ->
    only_listings st st'.
Proof.
  induction fuel as [|fuel IH]; intros path md cd st r st'; simpl; [discriminate|].
  destruct (cd >=? md); [unfold retP; intros [= <- <-]; apply only_listings_refl|].
  unfold try_exceptP, bindP, liftP.
  pose proof (fetch_children_only_listings path st) as Hfetch.
  destruct (fetch_children path st) as [[items|e] st1]; simpl in Hfetch.
  - destruct (walk_items _ path items [] st1) as [[[found|e] st2]|] eqn:Hwalk;
      [| |discriminate].
    + intros [= <- <-]. eapply only_listings_trans; [exact Hfetch|].
      eapply walk_items_only_listings; [|exact Hwalk].
      intros p s0 r0 s1. apply IH.
    + unfold any_exception, retP. intros [= <- <-].
      eapply only_listings_trans; [exact Hfetch|].
      eapply walk_items_only_listings; [|exact Hwalk].
      intros p s0 r0 s1. apply IH.
  - unfold any_exception, retP. intros [= <- <-]. exact Hfetch.
Qed.

(** The walk sends listing requests and nothing else, and leaves the
    crumb cache alone. *)
Lemma walk_only_listings path max_depth current_depth st :
  only_listings st (snd (_collect_jobs_recursive path max_depth current_depth st)).
Proof.
  pose proof (collect_jobs_walk_fuel path max_depth current_depth st) as Hrun.
  destruct (_collect_jobs_recursive path max_depth current_depth st) as [r st'].
  eapply collect_jobs_only_listings. exact Hrun.
Qed.

Lemma search_jobs_items_run pattern job_type max_depth st :
  exists all_items st1,
    _collect_jobs_recursive "" max_depth 0 st = (Ok all_items, st1)
    /\ search_jobs_items pattern job_type max_depth st
       = (Ok (List.filter (matches_pattern pattern)
                          (filter_by_type job_type all_items)), st1).
Proof.
  destruct (collect_jobs_returns "" max_depth 0 st) as (all_items & Hall).
  destruct (_collect_jobs_recursive "" max_depth 0 st) as [r st1] eqn:Hwalk.
  simpl in Hall. subst r. exists all_items, st1. split; [reflexivity|].
  unfold search_jobs_items, try_except, bind. now rewrite Hwalk.
Qed.

End SearchFacts.

(** C1. For every pattern, parameters, depth bound and state:
    [search_and_trigger] walks the tree from the root (sending listing
    requests only) and keeps the jobs that match the pattern.  With no
    match it returns the "No jobs found" result with its suggestion of
    broader patterns, and with two matches or more the "Multiple jobs
    match pattern" result that lists them all - in both cases in the state
    the search left, nothing else having been called or sent.  With
    exactly one match it returns what [trigger_job] does on that match's
    [full_name], wrapped with the match when it succeeds. *)
Theorem search_and_trigger_exactly_one `{env : Env}
        (pattern : string) (params : option (dict value)) (max_depth : Z)
        (st : State) :
  exists all_items st1,
    _collect_jobs_recursive "" max_depth 0 st = (Ok all_items, st1)
    /\ only_listings st st1
    /\ match jobs_matching pattern all_items with
       | [] =>
           search_and_trigger pattern params max_depth st
           = (Ok (no_match_result pattern), st1)
       | [m] =>
           search_and_trigger pattern params max_depth st
           = (match fst (trigger_job (full_name m) params st1) with
              | Ok r => Ok (triggered_result m r)
              | Raise e => Raise e
              end,
              snd (trigger_job (full_name m) params st1))
       | found =>
           search_and_trigger pattern params max_depth st
           = (Ok (ambiguous_result pattern found), st1)
       end.
Proof.
  destruct (search_jobs_items_run pattern "job" max_depth st)
    as (all_items & st1 & Hwalk & Hsearch).
  exists all_items, st1. split; [exact Hwalk|]. split.
  { pose proof (walk_only_listings "" max_depth 0 st) as H.
    now rewrite Hwalk in H. }
  change (filter_by_type "job" all_items) with (List.filter is_job all_items)
    in Hsearch.
  fold (jobs_matching pattern all_items) in Hsearch.
  destruct (jobs_matching pattern all_items) as [|m [|m' rest]];
    unfold search_and_trigger, try_except, search_jobs;
    unfold bind at 1; unfold bind at 1; rewrite Hsearch; cbn [map ret].
  - reflexivity.
  - unfold bind, lift, ret. cbn.
    destruct (trigger_job (full_name m) params st1) as [[r|e] st2]; reflexivity.
  - reflexivity.
Qed.

(** On the fixture: [dep*] finds [deploy] alone and triggers it (the
    listings, the crumb, the POST); [build*] finds three jobs and [zzz]
    none, and then the listings are all that is sent. *)
Example search_and_trigger_unique_on_fixture :
  fst (search_and_trigger "dep*" None 10 Fixture.start)
  = Ok (VDict
          [("success", VBool true);
           ("matched_job",
            VDict [("name", VStr "deploy"); ("full_name", VStr "deploy");
                   ("type", VStr "job");
                   ("url", VStr "http://jenkins/job/deploy/");
                   ("description", VStr "")]);
           ("trigger_result",
            VDict [("job_name", VStr "deploy"); ("status", VStr "Triggered");
                   ("queue_url", VStr "http://jenkins/queue/item/7/");
                   ("processed_params", VNone)])])
  /\ map req_method (sent (snd (search_and_trigger "dep*" None 10 Fixture.start)))
     = ["GET"; "GET"; "GET"; "GET"; "POST"].
Proof. split; vm_compute; reflexivity. Qed.

Example search_and_trigger_ambiguous_on_fixture :
  match fst (search_and_trigger "build*" None 10 Fixture.start) with
  | Ok r => (py_getitem r "error",
             result_bind (py_getitem r "matches") (fun m =>
             result_bind (py_iter m) (fun l =>
             all_results (fun x => py_getitem x "full_name") l)))
  | Raise e => (Raise e, Raise e)
  end
  = (Ok (VStr "Multiple jobs match pattern"),
     Ok [VStr "build-a"; VStr "build-b"; VStr "buildFolder/nightly"])
  /\ map req_method (sent (snd (search_and_trigger "build*" None 10 Fixture.start)))
     = ["GET"; "GET"; "GET"].
Proof. split; vm_compute; reflexivity. Qed.

Example search_and_trigger_none_on_fixture :
  fst (search_and_trigger "zzz" None 10 Fixture.start)
  = Ok (VDict
          [("error", VStr "No jobs found"); ("pattern", VStr "zzz");
           ("suggestion",
            VStr "Try using search_jobs('zzz*') or search_jobs('*zzz*') for broader search")])
  /\ map req_method (sent (snd (search_and_trigger "zzz" None 10 Fixture.start)))
     = ["GET"; "GET"; "GET"].
Proof. split; vm_compute; reflexivity. Qed.

(** ** Job information *)

Section ResolverFacts.
Context `{env : Env}.

Lemma request_checked_http_error r st resp w :
  send r (world st) = (Some resp, w) ->
  http_error resp ->
  request_checked r st = (Raise (HTTPError (status_code resp)), after_request r w st).
Proof.
  intros Hsend Herr.
  unfold request_checked, try_except, bind, requests_request, lift.
  rewrite Hsend. unfold raise_for_status, http_error in *.
  destruct ((400 <=? status_code resp) && (status_code resp <? 600)) eqn:Hs;
    [reflexivity | lia].
Qed.

Lemma direct_lookup_request job_name st :
  direct_lookup job_name st
  = bind (request_checked (lookup_request job_name)) (fun resp =>
    bind (lift (json resp)) (fun data =>
    bind (lift (parse_job_info job_name data)) (fun info =>
    ret (JobInfoResponse_dump
           {| success := true; job_info := Some info; search_results := None;
              message := "Found job '" +:+ job_name +:+ "' directly";
              suggestions := None |})))) st.
Proof.
  unfold direct_lookup, lookup_request.
  destruct (Str.contains "/" job_name); reflexivity.
Qed.

Lemma direct_lookup_http_error job_name st resp w :
  send (lookup_request job_name) (world st) = (Some resp, w) ->
  http_error resp ->
  direct_lookup job_name st
  = (Raise (HTTPError (status_code resp)),
     after_request (lookup_request job_name) w st).
Proof.
  intros Hsend Herr. rewrite direct_lookup_request. unfold bind at 1.
  now rewrite (request_checked_http_error _ _ _ _ Hsend Herr).
Qed.

Lemma similar_jobs_filter queried all_items :
  List.filter (similar_to queried) (List.filter is_job all_items)
  = similar_jobs queried all_items.
Proof.
  unfold similar_jobs. induction all_items as [|item items IH]; [reflexivity|].
  simpl. destruct (is_job item); simpl; [|exact IH].
  unfold similar_to, wildcard_ci, contains_ci in *.
  destruct (_ || _ || _ || _); now rewrite IH.
Qed.

Lemma search_fallback_run queried st :
  exists all_items st',
    _collect_jobs_recursive "" 10 0 st = (Ok all_items, st')
    /\ search_fallback queried st
       = (Ok match similar_jobs queried all_items with
             | [] => miss_result queried
             | first :: _ =>
                 similar_result queried first (similar_jobs queried all_items)
             end, st').
Proof.
  destruct (collect_jobs_returns "" 10 0 st) as (all_items & Hall).
  destruct (_collect_jobs_recursive "" 10 0 st) as [r st'] eqn:Hwalk.
  simpl in Hall. subst r. exists all_items, st'. split; [reflexivity|].
  unfold search_fallback, bind. rewrite Hwalk, similar_jobs_filter.
  destruct (similar_jobs queried all_items); reflexivity.
Qed.

End ResolverFacts.

(** C6. When the server answers the direct lookup of [get_job_info] with
    an error status that is not 404, or with 404 while [auto_search] is
    off, [get_job_info] raises that HTTP error, the same one, after this
    one request: nothing is searched and no result is made up. *)
Theorem get_job_info_propagates `{env : Env}
        (job_name : string) (auto_search : bool) (st : State)
        (resp : Response) (w : World) :
  send (lookup_request job_name) (world st) = (Some resp, w) ->
  http_error resp ->
  status_code resp <> 404 \/ auto_search = false ->
  get_job_info job_name auto_search st
  = (Raise (HTTPError (status_code resp)),
     after_request (lookup_request job_name) w st).
Proof.
  intros Hsend Herr Hcase.
  unfold get_job_info, try_except.
  rewrite (direct_lookup_http_error _ _ _ _ Hsend Herr). cbn [is_HTTPError].
  assert (Hgate : (status_code resp =? 404) && auto_search = false).
  { destruct Hcase as [Hne| ->]; [|apply andb_false_r].
    apply andb_false_intro1. lia. }
  rewrite Hgate. reflexivity.
Qed.

Lemma get_job_info_propagates_on_fixture :
  (send (@lookup_request Fixture.jenkins "build") (world Fixture.start)
   = (Some (Fixture.plain 404), 1000000)
   /\ http_error (Fixture.plain 404)
   /\ (status_code (Fixture.plain 404) <> 404 \/ false = false))
  /\ get_job_info "build" false Fixture.start
     = (Raise (HTTPError 404),
        Fixture.state empty_cache 1000000 [@lookup_request Fixture.jenkins "build"]).
Proof.
  assert (Hsend : send (@lookup_request Fixture.jenkins "build") (world Fixture.start)
                  = (Some (Fixture.plain 404), 1000000)) by reflexivity.
  assert (Herr : http_error (Fixture.plain 404)) by (unfold http_error; simpl; lia).
  assert (Hcase : status_code (Fixture.plain 404) <> 404 \/ false = false)
    by (right; reflexivity).
  split; [auto|].
  exact (get_job_info_propagates "build" false Fixture.start _ _ Hsend Herr Hcase).
Defined.

Example get_job_info_500_with_auto_search :
  fst (get_job_info "buildFolder/broken" true Fixture.start)
  = Raise (HTTPError 500).
Proof. reflexivity. Qed.

(** C5, amended. When the server answers the direct lookup with 404 and
    [auto_search] is on, [get_job_info] walks the tree from the root (depth
    bound 10) and keeps, in the order of the walk, exactly the jobs whose
    name or full path matches the queried name as a case-insensitive
    wildcard pattern or contains it case-insensitively.  When there are
    some, the result has [success = False], these jobs as [search_results]
    and, as first suggestion, the exact full path of the first of them.
    When there is none, the result has [success = False], two generic
    suggestions, and [search_results] left at [None]: no list, not even
    an empty one. *)
Theorem get_job_info_fallback `{env : Env}
        (job_name : string) (st : State) (resp : Response) (w : World) :
  send (lookup_request job_name) (world st) = (Some resp, w) ->
  status_code resp = 404 ->
  exists all_items st',
    _collect_jobs_recursive "" 10 0 (after_request (lookup_request job_name) w st)
    = (Ok all_items, st')
    /\ get_job_info job_name true st
       = (Ok match similar_jobs job_name all_items with
             | [] => miss_result job_name
             | first :: _ =>
                 similar_result job_name first (similar_jobs job_name all_items)
             end, st')
    /\ py_getitem (miss_result job_name) "success" = Ok (VBool false)
    /\ py_getitem (miss_result job_name) "search_results" = Ok VNone
    /\ py_getitem (miss_result job_name) "suggestions"
       = Ok (VList [VStr ("Try: search_jobs('*" +:+ job_name +:+ "*')");
                    VStr "Or: list_jobs(recursive=True) to see all available jobs"])
    /\ (forall first similar,
          py_getitem (similar_result job_name first similar) "success"
          = Ok (VBool false)
          /\ py_getitem (similar_result job_name first similar) "search_results"
             = Ok (VList (map JobTreeItem_dump similar))
          /\ py_getitem (similar_result job_name first similar) "suggestions"
             = Ok (VList [VStr ("Use exact path: get_job_info('"
                                +:+ full_name first +:+ "')");
                          VStr "Or try search_jobs() for more search options"])).
Proof.
  intros Hsend H404.
  assert (Herr : http_error resp) by (unfold http_error; lia).
  destruct (search_fallback_run job_name
              (after_request (lookup_request job_name) w st))
    as (all_items & st' & Hwalk & Hfall).
  exists all_items, st'. split; [exact Hwalk|]. split.
  - unfold get_job_info, try_except.
    rewrite (direct_lookup_http_error _ _ _ _ Hsend Herr). cbn [is_HTTPError].
    rewrite H404. cbn [Z.eqb Pos.eqb andb]. now rewrite Hfall.
  - repeat split; reflexivity.
Qed.

Lemma get_job_info_fallback_on_fixture :
  (send (@lookup_request Fixture.jenkins "build") (world Fixture.start)
   = (Some (Fixture.plain 404), 1000000)
   /\ status_code (Fixture.plain 404) = 404)
  /\ exists all_items st',
       get_job_info "build" true Fixture.start
       = (Ok match @similar_jobs Fixture.jenkins "build" all_items with
             | [] => miss_result "build"
             | first :: _ =>
                 similar_result "build" first
                   (@similar_jobs Fixture.jenkins "build" all_items)
             end, st').
Proof.
  assert (Hsend : send (@lookup_request Fixture.jenkins "build") (world Fixture.start)
                  = (Some (Fixture.plain 404), 1000000)) by reflexivity.
  assert (H404 : status_code (Fixture.plain 404) = 404) by reflexivity.
  split; [auto|].
  destruct (get_job_info_fallback "build" Fixture.start _ _ Hsend H404)
    as (all_items & st' & _ & Hrun & _).
  exists all_items, st'. exact Hrun.
Defined.

Example get_job_info_similar_on_fixture :
  match fst (get_job_info "build" true Fixture.start) with
  | Ok r => (py_getitem r "success", py_getitem r "suggestions")
  | Raise e => (Raise e, Raise e)
  end
  = (Ok (VBool false),
     Ok (VList [VStr "Use exact path: get_job_info('build-a')";
                VStr "Or try search_jobs() for more search options"])).
Proof. vm_compute. reflexivity. Qed.

(** C5 as stated fails on the fixture: no job there has "nonexistent" in
    its name or path, and the result of the fallback carries
    [search_results = None], which is not the empty list. *)
Lemma get_job_info_miss_search_results_unset :
  exists r st',
    get_job_info "nonexistent" true Fixture.start = (Ok r, st')
    /\ py_getitem r "success" = Ok (VBool false)
    /\ py_getitem r "search_results" = Ok VNone
    /\ py_getitem r "search_results" <> Ok (VList []).
Proof.
  eexists _, _. split; [reflexivity|].
  split; [reflexivity|]. split; [reflexivity|]. discriminate.
Qed.

(** ** Triggering *)

Section TriggerFacts.
Context `{env : Env}.

(** Which build parameters [trigger_job] takes from [params]. *)
Lemma extract_jenkins_params_cases (p : dict value) :
  p <> [] ->
  extract_jenkins_params (Some p)
  = match dict_get "args" p with
    | Some (VDict a) =>
        Ok match dict_get "params" a with
           | Some inner => inner
           | None => VDict p
           end
    | Some _ => Raise AttributeError
    | None => Ok (VDict p)
    end.
Proof.
  intros Hp. unfold extract_jenkins_params.
  destruct p as [|kv p]; [contradiction|]. cbn [truthy length Nat.eqb negb].
  cbn [py_get result_bind]. unfold dict_get_default.
  destruct (dict_get "args" (kv :: p)) as [[| | | | |a]|]; reflexivity.
Qed.

Lemma extract_jenkins_params_empty :
  extract_jenkins_params (Some []) = Ok VNone
  /\ extract_jenkins_params None = Ok VNone.
Proof. split; reflexivity. Qed.

(** With build parameters that are a mapping (or none), the request of
    [trigger_job] is the one request after the crumb was looked up: a POST
    to [buildWithParameters] when the mapping is not empty, to [build]
    when it is - unless looking up the crumb raised. *)
Lemma trigger_request_endpoint job_name jenkins_params st :
  truthy jenkins_params = false \/ (exists d, jenkins_params = VDict d) ->
  let st1 := snd (get_jenkins_crumb st) in
  match fst (get_jenkins_crumb st) with
  | Raise e => trigger_request job_name jenkins_params st = (Raise e, st1)
  | Ok crumb =>
      exists hdrs,
        sent (snd (trigger_request job_name jenkins_params st))
        = sent st1 ++ [build_request job_name jenkins_params hdrs]
  end.
Proof.
  intros Hshape. cbn zeta.
  assert (Hpost : is_mutating "POST" = true) by reflexivity.
  unfold trigger_request, build_request, trigger_url.
  destruct (Str.contains "/" job_name);
    destruct (truthy jenkins_params) eqn:Htr.
  all: try (destruct Hshape as [Hf|(d & ->)]; [discriminate|]).
  all: unfold process_params_of, jenkins_request_nested, jenkins_request,
         add_crumb, bind, lift, ret; rewrite ?Hpost.
  all: destruct (get_jenkins_crumb st) as [[crumb|e] st1]; cbn [fst snd];
         [|reflexivity].
  all: destruct (truthy crumb).
  all: match goal with
       | |- context [request_checked ?r ?s] =>
           destruct (request_checked_run r s) as ([resp|e'] & ->)
       end; cbn [fst snd sent]; eexists; try rewrite Htr; reflexivity.
Qed.

End TriggerFacts.

(** C10, the failing case: with a parameter named [args] whose value is
    not a mapping (here a string), [trigger_job] raises [AttributeError]
    where the claim has it use [params] itself; nothing is sent. *)
Theorem trigger_job_args_not_a_mapping `{env : Env}
        (job_name s : string) (st : State) :
  trigger_job job_name (Some [("args", VStr s)]) st = (Raise AttributeError, st).
Proof. reflexivity. Qed.

Example trigger_job_other_name_on_fixture :
  fst (trigger_job "deploy" (Some [("argv", VStr "--fast")]) Fixture.start)
  = Ok {| job_name := "deploy"; status := "Triggered";
          queue_url := Some "http://jenkins/queue/item/7/";
          processed_params := Some [("argv", "--fast")] |}.
Proof. reflexivity. Qed.

Example trigger_job_args_on_fixture :
  trigger_job "deploy" (Some [("args", VStr "--fast")]) Fixture.start
  = (Raise AttributeError, Fixture.start).
Proof. reflexivity. Qed.

(** ** Calls on several threads *)

Section ThreadFacts.
Context `{env : Env}.

Lemma lookup_insert_pc (l : list pc) i p j :
  (i < length l)%nat ->
  <[i := p]> l !! j = if decide (i = j) then Some p else l !! j.
Proof.
  intros Hi. destruct (decide (i = j)) as [<-|Hne].
  - now apply list_lookup_insert_eq.
  - now apply list_lookup_insert_ne.
Qed.

Ltac simpl_config :=
  cbn [pcs lock shared committed history crumb_cache world sent
       set_pc set_lock set_shared commit log with_world] in *.

(** Case analysis of a step of thread [i]: the program counter of the
    thread before the step, then the outcome of what the step runs. *)
Ltac step_cases H i c :=
  unfold thread_step in H;
  let Hpc := fresh "Hpc" in
  destruct (pcs c !! i) as [[| | |tok|tok|r|r]|] eqn:Hpc; try discriminate H;
  pose proof (lookup_lt_Some _ _ _ Hpc) as Hlen;
  [ destruct (lock c) eqn:Hlock; [discriminate H|]
  | rewrite cached_crumb_valid_run in H; destruct (cache_fresh (shared c)) eqn:Hfresh
  | rewrite fetch_crumb_token_run in H;
    destruct (crumb_of (fst (send crumb_request (world (shared c))))) as [tok|e] eqn:Hgot;
    [destruct (truthy tok) eqn:Htruthy | destruct (is_RequestException e) eqn:Hcaught]
  | idtac
  | unfold now in H; destruct (datetime_now (world (shared c))) as [t w1] eqn:Hnow
  | idtac ];
  cbn in H; injection H as <-.

Lemma holder_inv_step c c' : holder_inv c -> step c c' -> holder_inv c'.
Proof.
  intros Hinv Hstep. destruct Hstep as [i c c' Hstep|c w]; [|exact Hinv].
  step_cases Hstep i c.
  all: intros j p; simpl_config; rewrite lookup_insert_pc by exact Hlen;
       destruct (decide (i = j)) as [<-|Hne].
  all: try (intros [= <-] Hin).
  all: try (intros Hj Hin).
  all: try reflexivity.
  all: try discriminate Hin.
  all: try (eapply Hinv; [eassumption | reflexivity]).
  all: try (eapply Hinv; eassumption).
  - pose proof (Hinv _ _ Hj Hin) as Hl. congruence.
  - pose proof (Hinv _ _ Hj Hin) as Hl.
    pose proof (Hinv _ _ Hpc eq_refl) as Hl'. congruence.
Qed.

Lemma fetches_app h1 h2 : fetches (h1 ++ h2) = (fetches h1 + fetches h2)%nat.
Proof. unfold fetches. now rewrite List.filter_app, length_app. Qed.

Lemma whole_more st0 h evs cache : whole st0 h cache -> whole st0 (h ++ evs) cache.
Proof.
  intros [->|(j & tok & t & Hin & ->)]; [now left|].
  right. exists j, tok, t. split; [apply in_or_app; now left | reflexivity].
Qed.

Lemma writing_inv_step c c' :
  holder_inv c -> writing_inv c -> step c c' -> writing_inv c'.
Proof.
  intros Hhold [Hwt Hwe] Hstep.
  destruct Hstep as [i c c' Hstep|c w]; [|exact (conj Hwt Hwe)].
  step_cases Hstep i c.
  all: split; intros j tk; simpl_config; rewrite lookup_insert_pc by exact Hlen;
       destruct (decide (i = j)) as [<-|Hne]; try discriminate.
  all: try (intros [= <-]).
  all: try (intros Hj).
  all: try (eapply Hwt; eassumption).
  all: try (eapply Hwe; eassumption).
  all: try (pose proof (Hhold _ _ Hj eq_refl) as Hl;
            pose proof (Hhold _ _ Hpc eq_refl) as Hl'; congruence).
  all: try assumption.
  - split; [eapply Hwt; eassumption | reflexivity].
Qed.

Lemma coherent_step c c' :
  coherent c -> step c c' -> coherent c'.
Proof.
  intros Hco Hstep. destruct Hstep as [i c c' Hstep|c w]; [|exact Hco].
  step_cases Hstep i c; unfold coherent; simpl_config.
  9: { right. reflexivity. }
  8: { left. exists i, tok. now apply list_lookup_insert_eq. }
  all: destruct Hco as [(j & tk & Hj)|Heq]; [left|right; exact Heq].
  all: exists j, tk; rewrite lookup_insert_pc by exact Hlen;
       destruct (decide (i = j)) as [<-|Hne]; [congruence | exact Hj].
Qed.

(** At the test of a thread the cache is the one last written whole. *)
Lemma tested_cache_committed c i :
  holder_inv c -> coherent c -> pcs c !! i = Some Testing ->
  crumb_cache (shared c) = committed c.
Proof.
  intros Hhold [(j & tk & Hj)|Heq] Hpc; [|exact Heq].
  pose proof (Hhold _ _ Hj eq_refl) as Hl.
  pose proof (Hhold _ _ Hpc eq_refl) as Hl'. congruence.
Qed.

Lemma not_tested_clock i seen valid j (ts : list Z) :
  ~ In (Tested i seen valid) (map (ClockRead j) ts).
Proof. intros Hin. apply in_map_iff in Hin as (t & Ht & _). discriminate. Qed.

Lemma seen_whole_step st0 c c' :
  holder_inv c -> writing_inv c -> coherent c -> seen_whole st0 c ->
  step c c' -> seen_whole st0 c'.
Proof.
  intros Hhold [_ Hwe] Hco [Hcom Hseen] Hstep.
  destruct Hstep as [i c c' Hstep|c w]; [|exact (conj Hcom Hseen)].
  pose proof (tested_cache_committed c i Hhold Hco) as Htest.
  step_cases Hstep i c; unfold seen_whole; simpl_config.
  all: split.
  all: try exact Hcom.
  all: try exact Hseen.
  all: try (apply whole_more; exact Hcom).
  all: try (intros j seen valid Hin; apply in_app_or in Hin as [Hin|Hin];
            [apply whole_more; eapply Hseen; exact Hin|]).
  all: try (apply in_app_or in Hin as [Hin|Hin];
            [now apply not_tested_clock in Hin|];
            destruct Hin as [[= <- <- <-]|[]];
            rewrite (Htest eq_refl); apply whole_more; exact Hcom).
  all: try (destruct Hin as [Hin|[]]; discriminate Hin).
  - right. exists i, tok, t. split.
    + apply in_or_app. right. right. now left.
    + destruct (Hwe _ _ Hpc) as [_ Htok]. now rewrite Htok.
  - destruct Hin as [Hin|[Hin|[]]]; discriminate Hin.
Qed.

Lemma fetches_clock_reads i (ts : list Z) : fetches (map (ClockRead i) ts) = 0%nat.
Proof. induction ts as [|t ts IH]; [reflexivity | exact IH]. Qed.

Lemma replicate_snoc {A} (n : nat) (x : A) :
  replicate (n + 1) x = replicate n x ++ [x].
Proof. induction n as [|n IH]; [reflexivity | simpl; now rewrite IH]. Qed.

Lemma sent_inv_step st0 c c' :
  sent_inv st0 c -> step c c' -> sent_inv st0 c'.
Proof.
  intros Hsent Hstep. destruct Hstep as [i c c' Hstep|c w]; [|exact Hsent].
  step_cases Hstep i c; unfold sent_inv in *; simpl_config.
  all: rewrite ?fetches_app, ?fetches_clock_reads.
  all: try (change (fetches [Fetched i _]) with 1%nat;
            rewrite replicate_snoc, app_assoc, <- Hsent; reflexivity).
  all: cbn [fetches List.filter is_fetch length]; rewrite ?Nat.add_0_r;
       exact Hsent.
Qed.

Lemma thread_inv_initial n st0 : thread_inv st0 (initial n st0).
Proof.
  assert (Hidle : forall j p, replicate n Idle !! j = Some p -> p = Idle).
  { intros j p Hj. now apply lookup_replicate in Hj as [-> _]. }
  unfold thread_inv, initial.
  split; [|split; [|split; [|split]]]; simpl.
  - intros j p Hj Hin. apply Hidle in Hj as ->. discriminate.
  - split; intros i tok Hi; apply Hidle in Hi; discriminate.
  - now right.
  - split; [now left|]. intros i seen valid [].
  - unfold sent_inv. simpl. now rewrite app_nil_r.
Qed.

Lemma thread_inv_step st0 c c' :
  thread_inv st0 c -> step c c' -> thread_inv st0 c'.
Proof.
  intros (Hhold & Hwr & Hco & Hseen & Hsent) Hstep.
  split; [|split; [|split; [|split]]].
  - eapply holder_inv_step; eassumption.
  - eapply writing_inv_step; eassumption.
  - eapply coherent_step; eassumption.
  - eapply seen_whole_step; eassumption.
  - eapply sent_inv_step; eassumption.
Qed.

Lemma thread_inv_steps n st0 c :
  steps (initial n st0) c -> thread_inv st0 c.
Proof.
  induction 1 as [|c c' _ IH Hstep]; [apply thread_inv_initial|].
  eapply thread_inv_step; eassumption.
Qed.

Lemma within_app lo h evs : within lo (h ++ evs) <-> within lo h /\ within lo evs.
Proof.
  unfold within. rewrite forallb_app, andb_true_iff. tauto.
Qed.

Lemma refreshes_app h1 h2 :
  refreshes (h1 ++ h2) = (refreshes h1 + refreshes h2)%nat.
Proof. unfold refreshes. now rewrite List.filter_app, length_app. Qed.

Lemma refreshes_clock_reads i (ts : list Z) :
  refreshes (map (ClockRead i) ts) = 0%nat.
Proof. induction ts as [|t ts IH]; [reflexivity | exact IH]. Qed.

(** When every fetch brought a crumb, the fetches are the refreshes. *)
Lemma fetches_refreshes h :
  forallb fetch_ok h = true -> fetches h = refreshes h.
Proof.
  unfold fetches, refreshes. induction h as [|e h IH]; [reflexivity|].
  cbn [forallb List.filter]. intros Hok. apply andb_true_iff in Hok as [He Hok].
  specialize (IH Hok).
  destruct e as [| |j [tok|x]|]; cbn in *; try exact IH; try discriminate.
  rewrite He. cbn. now rewrite IH.
Qed.

(** A crumb stored with an expiry beyond the window passes every test
    whose clock reading lies in the window. *)
Lemma stored_fresh lo i st :
  truthy (token (crumb_cache st)) = true ->
  (exists e, expires (crumb_cache st) = Some e /\ lo + minutes_30 <= e) ->
  forallb (in_window lo) (map (ClockRead i) (test_clock (crumb_cache st) st)) = true ->
  cache_fresh st = true.
Proof.
  intros Htr (e & He & Hle). unfold cache_fresh, test_clock.
  rewrite Htr, He. cbn [map forallb in_window andb].
  rewrite andb_true_r. intros Hw. apply andb_true_iff in Hw as [_ Hlt]. lia.
Qed.

Ltac keep_stored Hst Hpc Hlen :=
  destruct Hst as [(j & tk & Hj)|[(j & tk & Hj)|Hc]];
  [ left; exists j, tk
  | right; left; exists j, tk
  | right; right; exact Hc ];
  (rewrite lookup_insert_pc by exact Hlen;
   match goal with
   | |- (if decide (?i = j) then _ else _) = _ =>
       destruct (decide (i = j)) as [<-|Hne]; [congruence | exact Hj]
   end).

Ltac other_fetching Hfetching Hpc Hlen :=
  let k := fresh "k" in
  let Hk := fresh "Hk" in
  intros k; rewrite lookup_insert_pc by exact Hlen;
  match goal with
  | |- (if decide (?i = k) then _ else _) = _ -> _ =>
      destruct (decide (i = k)) as [<-|Hne]; [discriminate|];
      intros Hk; try (rewrite (Hfetching _ Hk)); try reflexivity
  end.

Lemma window_inv_step lo st0 c c' :
  thread_inv st0 c -> window_inv lo c -> step c c' ->
  within lo (history c') -> window_inv lo c'.
Proof.
  intros (Hhold & [Hwt Hwe] & _) [Hcount Hfetching] Hstep Hwin.
  destruct Hstep as [i c c' Hstep|c w]; [|exact (conj Hcount Hfetching)].
  step_cases Hstep i c; unfold window_inv, stored_or_storing in *; simpl_config.
  all: try apply within_app in Hwin as [Hwin Hnew].
  all: rewrite ?refreshes_app, ?refreshes_clock_reads;
       cbn [refreshes List.filter brought_token length]; rewrite ?Nat.add_0_r.
  - (* entering the block *)
    split; [|other_fetching Hfetching Hpc Hlen].
    destruct Hcount as [H0|[H1 Hst]]; [now left|right]. split; [exact H1|].
    keep_stored Hst Hpc Hlen.
  - (* the test passes *)
    split; [|other_fetching Hfetching Hpc Hlen].
    destruct Hcount as [H0|[H1 Hst]]; [now left|right]. split; [exact H1|].
    keep_stored Hst Hpc Hlen.
  - (* the test fails: no crumb was brought yet *)
    assert (H0 : refreshes (history c) = 0%nat).
    { destruct Hcount as [H0|[H1 Hst]]; [exact H0|exfalso].
      destruct Hst as [(j & tk & Hj)|[(j & tk & Hj)|[Htr He]]].
      - pose proof (Hhold _ _ Hj eq_refl). pose proof (Hhold _ _ Hpc eq_refl).
        congruence.
      - pose proof (Hhold _ _ Hj eq_refl). pose proof (Hhold _ _ Hpc eq_refl).
        congruence.
      - apply within_app in Hnew as [Hw _].
        rewrite (stored_fresh lo i (shared c) Htr He Hw) in Hfresh. discriminate. }
    split; [now left|].
    intros k Hk. exact H0.
  - (* the request brings a crumb *)
    rewrite Htruthy. cbn [length]. rewrite (Hfetching _ Hpc). split.
    + right. split; [reflexivity|]. left. exists i, tok.
      now apply list_lookup_insert_eq.
    + intros k. rewrite lookup_insert_pc by exact Hlen.
      destruct (decide (i = k)) as [<-|Hne]; [discriminate|]. intros Hk.
      pose proof (Hhold _ _ Hk eq_refl). pose proof (Hhold _ _ Hpc eq_refl).
      congruence.
  - (* the request brings an empty crumb *)
    rewrite Htruthy. cbn [length]. rewrite Nat.add_0_r, (Hfetching _ Hpc).
    split; [now left|]. intros k Hk. reflexivity.
  - (* the request fails *)
    rewrite (Hfetching _ Hpc). split; [now left|]. intros k Hk. reflexivity.
  - (* the request raises something else *)
    rewrite (Hfetching _ Hpc). split; [now left|]. intros k Hk. reflexivity.
  - (* the first write *)
    split; [|other_fetching Hfetching Hpc Hlen].
    destruct Hcount as [H0|[H1 Hst]]; [now left|right]. split; [exact H1|].
    right. left. exists i, tok. now apply list_lookup_insert_eq.
  - (* the second write *)
    split; [|other_fetching Hfetching Hpc Hlen].
    destruct Hcount as [H0|[H1 Hst]]; [now left|right]. split; [exact H1|].
    right. right. destruct (Hwe _ _ Hpc) as [Htr Htok]. split.
    + now rewrite Htok.
    + eexists. split; [reflexivity|].
      unfold within in Hnew. cbn in Hnew. lia.
  - (* leaving the block *)
    split; [|other_fetching Hfetching Hpc Hlen].
    destruct Hcount as [H0|[H1 Hst]]; [now left|right]. split; [exact H1|].
    keep_stored Hst Hpc Hlen.
Qed.

Lemma window_inv_initial lo n st0 : window_inv lo (initial n st0).
Proof.
  split; [now left|]. intros i Hi. reflexivity.
Qed.

Lemma step_history c c' : step c c' -> exists evs, history c' = history c ++ evs.
Proof.
  intros Hstep. destruct Hstep as [i c c' Hstep|c w];
    [|exists []; simpl; now rewrite app_nil_r].
  step_cases Hstep i c; simpl_config; eauto.
  all: exists []; now rewrite app_nil_r.
Qed.

Lemma window_inv_steps lo n st0 c :
  steps (initial n st0) c -> within lo (history c) -> window_inv lo c.
Proof.
  induction 1 as [|c c' Hsteps IH Hstep]; intros Hwin;
    [apply window_inv_initial|].
  eapply window_inv_step; [eapply thread_inv_steps| |exact Hstep|exact Hwin];
    [exact Hsteps|].
  apply IH. destruct (step_history _ _ Hstep) as (evs & Hevs).
  rewrite Hevs in Hwin. now apply within_app in Hwin as [Hwin _].
Qed.

Lemma holder_exclusive c : holder_inv c -> exclusive c.
Proof.
  intros Hhold i j p q Hi Hj Hp Hq.
  pose proof (Hhold _ _ Hi Hp). pose proof (Hhold _ _ Hj Hq). congruence.
Qed.

(** A thread that finds the lock held waits. *)
Lemma thread_step_blocked c i j :
  pcs c !! i = Some Idle -> lock c = Some j -> thread_step i c = None.
Proof. intros Hpc Hlock. unfold thread_step. now rewrite Hpc, Hlock. Qed.

Lemma steps_step_first c0 c1 c :
  step c0 c1 -> steps c1 c -> steps c0 c.
Proof.
  intros Hfirst. induction 1 as [|c c' _ IH Hstep].
  - eapply steps_snoc; [apply steps_refl | exact Hfirst].
  - eapply steps_snoc; eassumption.
Qed.

Lemma run_steps schedule :
  forall c c', run schedule c = Some c' -> steps c c'.
Proof.
  induction schedule as [|i schedule IH]; intros c c'; simpl.
  - intros [= <-]. apply steps_refl.
  - destruct (thread_step i c) as [c1|] eqn:Hstep; [|discriminate].
    intros Hrun. eapply steps_step_first; [econstructor; exact Hstep|].
    now apply IH.
Qed.

Ltac one_step Hsame :=
  cbn [run replicate]; unfold thread_step at 1; simpl_config;
  rewrite Hsame by (rewrite ?length_insert; reflexivity).

(** A call alone, from the lock free to the lock free again, is
    [get_jenkins_crumb]: same result, same state. *)
Lemma solo_call i c :
  pcs c !! i = Some Idle -> lock c = None ->
  exists k c',
    run (replicate k i) c = Some c'
    /\ pcs c' = <[i := Returned (fst (get_jenkins_crumb (shared c)))]> (pcs c)
    /\ shared c' = snd (get_jenkins_crumb (shared c))
    /\ lock c' = None.
Proof.
  intros Hpc Hlock. pose proof (lookup_lt_Some _ _ _ Hpc) as Hlen.
  rewrite get_jenkins_crumb_run.
  assert (Hsame : forall (l : list pc) p, length l = length (pcs c) ->
                    <[i := p]> l !! i = Some p).
  { intros l p Hl. apply list_lookup_insert_eq. now rewrite Hl. }
  destruct (cache_fresh (shared c)) eqn:Hfresh.
  { exists 3%nat. eexists.
    cbn [run replicate]. unfold thread_step at 1. rewrite Hpc, Hlock.
    one_step Hsame. rewrite cached_crumb_valid_run, Hfresh.
    one_step Hsame. cbn [run replicate].
    split; [reflexivity|]. simpl_config.
    rewrite !list_insert_insert_eq. repeat split. }
  destruct (send crumb_request (world_after_test (shared c))) as [o w'] eqn:Hsend.
  assert (Hfetch : fetch_crumb_token (with_world (world_after_test (shared c)) (shared c))
                   = (crumb_of o,
                      {| crumb_cache := crumb_cache (shared c); world := w';
                         sent := sent (shared c) ++ [crumb_request] |})).
  { rewrite fetch_crumb_token_run. simpl_config. now rewrite Hsend. }
  destruct (crumb_of o) as [tok|e] eqn:Hgot.
  - destruct (truthy tok) eqn:Htruthy.
    + destruct (datetime_now w') as [t w''] eqn:Hnow.
      exists 6%nat. eexists.
      cbn [run replicate]. unfold thread_step at 1. rewrite Hpc, Hlock.
      one_step Hsame. rewrite cached_crumb_valid_run, Hfresh.
      one_step Hsame. rewrite Hfetch, Htruthy.
      one_step Hsame. cbn [write_token bind read_cache write_cache].
      one_step Hsame. unfold now. simpl_config. rewrite Hnow.
      cbn [write_expires bind read_cache write_cache].
      one_step Hsame. cbn [run replicate].
      split; [reflexivity|]. simpl_config.
      rewrite !list_insert_insert_eq. repeat split.
    + exists 4%nat. eexists.
      cbn [run replicate]. unfold thread_step at 1. rewrite Hpc, Hlock.
      one_step Hsame. rewrite cached_crumb_valid_run, Hfresh.
      one_step Hsame. rewrite Hfetch, Htruthy.
      one_step Hsame. cbn [run replicate].
      split; [reflexivity|]. simpl_config.
      rewrite !list_insert_insert_eq. repeat split.
  - destruct (is_RequestException e) eqn:Hcaught.
    all: exists 4%nat; eexists.
    all: cbn [run replicate]; unfold thread_step at 1; rewrite Hpc, Hlock.
    all: one_step Hsame; rewrite cached_crumb_valid_run, Hfresh.
    all: one_step Hsame; rewrite Hfetch, Hcaught.
    all: one_step Hsame; cbn [run replicate].
    all: split; [reflexivity|]; simpl_config.
    all: rewrite !list_insert_insert_eq; repeat split.
Qed.

(** One fetch per call, at most. *)
Lemma filter_insert_length (f : pc -> bool) (l : list pc) :
  forall i p q,
    l !! i = Some q ->
    (length (List.filter f (<[i := p]> l)) + (if f q then 1 else 0)
     = length (List.filter f l) + (if f p then 1 else 0))%nat.
Proof.
  induction l as [|x l IH]; intros [|i] p q; simpl; try discriminate.
  - intros [= ->]. destruct (f p), (f q); simpl; lia.
  - intros Hq. pose proof (IH i p q Hq) as H. simpl in H.
    destruct (f x); simpl; lia.
Qed.

Lemma calls_inv_step n c c' : calls_inv n c -> step c c' -> calls_inv n c'.
Proof.
  intros [Hn Hinv] Hstep. destruct Hstep as [i c c' Hstep|c w];
    [|split; [exact Hn | exact Hinv]].
  step_cases Hstep i c; unfold calls_inv; simpl_config.
  all: rewrite length_insert; split; [exact Hn|].
  all: rewrite ?fetches_app, ?fetches_clock_reads.
  all: match goal with
       | |- context [<[?j := ?p]> ?l] =>
           pose proof (filter_insert_length past_fetch l j p _ Hpc) as Hcount
       end.
  all: cbn [past_fetch fetches List.filter is_fetch length] in *; lia.
Qed.

Lemma calls_inv_steps n st0 c : steps (initial n st0) c -> calls_inv n c.
Proof.
  induction 1 as [|c c' _ IH Hstep].
  - split; [apply length_replicate | cbn; lia].
  - eapply calls_inv_step; eassumption.
Qed.

Lemma fetches_at_most_calls n st0 c :
  steps (initial n st0) c -> (fetches (history c) <= n)%nat.
Proof.
  intros Hsteps. destruct (calls_inv_steps n st0 c Hsteps) as [<- Hinv].
  pose proof (List.filter_length_le past_fetch (pcs c)). lia.
Qed.

End ThreadFacts.

(** C9, amended. However the steps of any number [n] of concurrent calls
    of [get_jenkins_crumb] interleave, with each other and with changes
    of the world outside: at most one thread is inside the [with] block
    (the others wait for the lock); every cache that the test of a call
    sees was written whole - it is the cache the run started with, or the
    token and the expiry of one store; the requests sent are the fetches;
    when the clock readings of the calls all lie within one half hour
    (from any [lo]: one validity window), at most one fetch brings a
    crumb - one refresh - and, the fetches bringing a crumb, at most one
    fetch is made; and in any case each call fetches once at most, [n]
    fetches in all. *)
Theorem crumb_calls_on_threads `{env : Env}
        (n : nat) (st0 : State) (c : Config) :
  steps (initial n st0) c ->
  exclusive c
  /\ (forall i seen valid,
        In (Tested i seen valid) (history c) -> whole st0 (history c) seen)
  /\ sent (shared c) = sent st0 ++ replicate (fetches (history c)) crumb_request
  /\ (forall lo, within lo (history c) -> (refreshes (history c) <= 1)%nat)
  /\ (forall lo, good lo (history c) -> (fetches (history c) <= 1)%nat)
  /\ (fetches (history c) <= n)%nat.
Proof.
  intros Hsteps.
  destruct (thread_inv_steps n st0 c Hsteps)
    as (Hhold & _ & _ & [_ Hseen] & Hsent).
  split; [now apply holder_exclusive|]. split; [exact Hseen|].
  split; [exact Hsent|].
  assert (Hone : forall lo, within lo (history c) ->
                   (refreshes (history c) <= 1)%nat).
  { intros lo Hwin.
    destruct (window_inv_steps lo n st0 c Hsteps Hwin) as [[->|[-> _]] _]; lia. }
  split; [exact Hone|].
  split; [|now apply (fetches_at_most_calls n st0)].
  intros lo [Hok Hwin]. rewrite (fetches_refreshes _ Hok). now apply (Hone lo).
Qed.

(** Two calls on the fixture, the second thread first: it fetches and
    stores, the first thread then finds the crumb. *)
Lemma crumb_calls_on_threads_fixture :
  (steps (initial 2 Fixture.start)
         (Fixture.two_calls [1; 1; 1; 1; 1; 1; 0; 0; 0]%nat)
   /\ good 0 (history (Fixture.two_calls [1; 1; 1; 1; 1; 1; 0; 0; 0]%nat)))
  /\ (fetches (history (Fixture.two_calls [1; 1; 1; 1; 1; 1; 0; 0; 0]%nat))
      <= 1)%nat.
Proof.
  assert (Hsteps : steps (initial 2 Fixture.start)
                         (Fixture.two_calls [1; 1; 1; 1; 1; 1; 0; 0; 0]%nat)).
  { assert (Hrun : is_Some (run [1; 1; 1; 1; 1; 1; 0; 0; 0]%nat
                                (initial 2 Fixture.start))).
    { apply (bool_decide_unpack _). vm_compute. reflexivity. }
    destruct Hrun as (c & Hrun). unfold Fixture.two_calls. rewrite Hrun.
    apply (run_steps _ _ _ Hrun). }
  assert (Hgood : good 0 (history (Fixture.two_calls
                                     [1; 1; 1; 1; 1; 1; 0; 0; 0]%nat))).
  { split; vm_compute; reflexivity. }
  split; [split; assumption|].
  exact (proj1 (proj2 (proj2 (proj2 (proj2
           (crumb_calls_on_threads 2 Fixture.start _ Hsteps))))) 0 Hgood).
Defined.

Example two_calls_end :
  let c := Fixture.two_calls [1; 1; 1; 1; 1; 1; 0; 0; 0]%nat in
  pcs c = [Returned (Ok (VStr "c0ffee")); Returned (Ok (VStr "c0ffee"))]
  /\ lock c = None
  /\ sent (shared c) = [@crumb_request Fixture.jenkins].
Proof. vm_compute. repeat split. Qed.

(** While the second thread is in the block the first cannot step. *)
Example first_thread_waits :
  ~ is_Some (run [1; 0]%nat (initial 2 Fixture.start))
  /\ ~ is_Some (run [1; 1; 1; 0]%nat (initial 2 Fixture.start)).
Proof. split; apply (bool_decide_unpack _); vm_compute; reflexivity. Qed.

(** When the server does not answer, nothing is cached and each call
    fetches in its turn: two fetches, no refresh. *)
Example two_calls_no_answer :
  let c := Fixture.two_silent_calls [1; 1; 1; 1; 0; 0; 0; 0]%nat in
  pcs c = [Returned (Ok VNone); Returned (Ok VNone)]
  /\ fetches (history c) = 2%nat
  /\ refreshes (history c) = 0%nat.
Proof. vm_compute. repeat split. Qed.

(** C9 as it was claimed fails when the crumb issuer does not answer:
    the two calls of this run read the clock within one half hour - they
    read it not at all, no crumb being cached - and each makes its fetch. *)
Lemma two_calls_two_fetches :
  is_Some (run [1; 1; 1; 1; 0; 0; 0; 0]%nat
               (initial 2 (Fixture.silent_state empty_cache 0 [])))
  /\ within 0 (history (Fixture.two_silent_calls [1; 1; 1; 1; 0; 0; 0; 0]%nat))
  /\ fetches (history (Fixture.two_silent_calls [1; 1; 1; 1; 0; 0; 0; 0]%nat))
     = 2%nat
  /\ map req_url
         (sent (shared (Fixture.two_silent_calls [1; 1; 1; 1; 0; 0; 0; 0]%nat)))
     = ["http://jenkins/crumbIssuer/api/json";
        "http://jenkins/crumbIssuer/api/json"].
Proof.
  split; [apply (bool_decide_unpack _); vm_compute; reflexivity|].
  split; [vm_compute; reflexivity|].
  split; vm_compute; reflexivity.
Qed.

(** * Further properties: encodings, the other tools, errors *)

(** ** Percent-encoding, once more *)

Section UrlFacts.

Lemma string_app_assoc (a b c : string) : (a +:+ b) +:+ c = a +:+ (b +:+ c).
Proof.
  induction a as [|x a IH]; [reflexivity|].
  change (String x ((a +:+ b) +:+ c) = String x (a +:+ (b +:+ c))).
  now rewrite IH.
Qed.

Lemma string_cons_app x (a b : string) : String x a +:+ b = String x (a +:+ b).
Proof. reflexivity. Qed.

Lemma string_app_cancel (a b c : string) : a +:+ b = a +:+ c -> b = c.
Proof.
  induction a as [|x a IH]; [trivial|].
  rewrite !string_cons_app. intros [= H]. now apply IH.
Qed.

(** The two hexadecimal digits name the byte. *)
Lemma percent_inj a b : Url.percent a = Url.percent b -> a = b.
Proof.
  set (hexval := fun h : ascii =>
         let n := nat_of_ascii h in
         if (n <=? 57)%nat then (n - 48)%nat else (n - 55)%nat).
  set (dec := fun s : string =>
         match s with
         | String _ (String h1 (String h2 _)) =>
             ascii_of_nat (16 * hexval h1 + hexval h2)
         | _ => "000"%char
         end).
  assert (H : forall c, dec (Url.percent c) = c).
  { intros c. destruct c as [[] [] [] [] [] [] [] []]; vm_compute; reflexivity. }
  intros Heq. rewrite <- (H a), <- (H b). now rewrite Heq.
Qed.

Lemma percent_app_inj a b (x y : string) :
  Url.percent a +:+ x = Url.percent b +:+ y -> a = b /\ x = y.
Proof.
  intros H. assert (Url.percent a = Url.percent b /\ x = y) as [Hp Hxy].
  { revert H. unfold Url.percent. cbv zeta.
    generalize (Url.hex_digit (nat_of_ascii a / 16)),
               (Url.hex_digit (nat_of_ascii a mod 16)),
               (Url.hex_digit (nat_of_ascii b / 16)),
               (Url.hex_digit (nat_of_ascii b mod 16)).
    intros h1 h2 h3 h4.
    change (String "%" (String h1 (String h2 x))
            = String "%" (String h3 (String h4 y)) ->
            String "%" (String h1 (String h2 ""))
            = String "%" (String h3 (String h4 "")) /\ x = y).
    intros [= -> -> ->]. split; reflexivity. }
  split; [now apply percent_inj | exact Hxy].
Qed.

(** What [quote_plus] makes of one character: a plus sign of a space,
    itself of an unreserved character, its escape of any other. *)
Lemma plus_char_shape c :
  let out := Url.replace_char " " "+" (Url.quote_char " " c) in
  (c = " "%char /\ out = "+")
  \/ (Url.always_safe c = true /\ out = String c "")
  \/ (c <> " "%char /\ Url.always_safe c = false /\ out = Url.percent c).
Proof.
  destruct c as [[] [] [] [] [] [] [] []]; vm_compute;
    first [ left; split; reflexivity
          | right; left; split; reflexivity
          | right; right; split; [discriminate | split; reflexivity] ].
Qed.

Lemma quote_char_shape c :
  (Url.always_safe c = true /\ Url.quote_char "" c = String c "")
  \/ (Url.always_safe c = false /\ Url.quote_char "" c = Url.percent c).
Proof.
  unfold Url.quote_char. cbn [Url.mem_char]. rewrite orb_false_r.
  destruct (Url.always_safe c); [left | right]; split; reflexivity.
Qed.

Lemma percent_not_safe : Url.always_safe "%" = false.
Proof. reflexivity. Qed.

Lemma quote_inj s : forall t, Url.quote "" s = Url.quote "" t -> s = t.
Proof.
  induction s as [|a s IH]; intros [|b t]; cbn [Url.quote].
  - reflexivity.
  - destruct (quote_char_shape b) as [[_ ->]|[_ ->]]; discriminate.
  - destruct (quote_char_shape a) as [[_ ->]|[_ ->]]; discriminate.
  - destruct (quote_char_shape a) as [[Ha ->]|[Ha ->]],
             (quote_char_shape b) as [[Hb ->]|[Hb ->]].
    + intros [= -> H]. f_equal. now apply IH.
    + intros [= -> _]. rewrite percent_not_safe in Ha. discriminate.
    + intros [= <- _]. rewrite percent_not_safe in Hb. discriminate.
    + intros H. apply percent_app_inj in H as [-> H]. f_equal. now apply IH.
Qed.

(** A piece without the character [c] ends at the first [c]. *)
Lemma app_sep_inj c e1 : forall e2 r1 r2,
  Url.mem_char c e1 = false -> Url.mem_char c e2 = false ->
  e1 +:+ String c r1 = e2 +:+ String c r2 -> e1 = e2 /\ r1 = r2.
Proof.
  induction e1 as [|x e1 IH]; intros [|y e2] r1 r2 H1 H2; cbn [Url.mem_char] in *.
  - intros [= ->]. split; reflexivity.
  - apply orb_false_elim in H2 as [Hy _].
    intros [= <- _]. rewrite Ascii.eqb_refl in Hy. discriminate.
  - apply orb_false_elim in H1 as [Hx _].
    intros [= <- _]. rewrite Ascii.eqb_refl in Hx. discriminate.
  - apply orb_false_elim in H1 as [_ H1]. apply orb_false_elim in H2 as [_ H2].
    rewrite !string_cons_app. intros [= -> H].
    destruct (IH _ _ _ H1 H2 H) as [-> ->]. split; reflexivity.
Qed.

Lemma app_sep_absurd c e1 e2 r :
  Url.mem_char c e1 = false -> e1 = e2 +:+ String c r -> False.
Proof.
  intros H ->. rewrite mem_char_app in H. cbn [Url.mem_char] in H.
  rewrite Ascii.eqb_refl in H. cbn in H. rewrite orb_true_r in H. discriminate.
Qed.

(** Pieces without [c], joined by a separator that starts with [c], can
    be told apart again. *)
Lemma concat_sep_inj c sep l1 : forall l2,
  l1 <> [] -> l2 <> [] ->
  Forall (fun e => Url.mem_char c e = false) l1 ->
  Forall (fun e => Url.mem_char c e = false) l2 ->
  String.concat (String c sep) l1 = String.concat (String c sep) l2 -> l1 = l2.
Proof.
  induction l1 as [|e1 l1 IH]; intros [|e2 l2] Hn1 Hn2 H1 H2; try congruence.
  inversion H1 as [|? ? He1 Hl1]; inversion H2 as [|? ? He2 Hl2]; subst.
  destruct l1 as [|e1' l1], l2 as [|e2' l2].
  - simpl. now intros ->.
  - change (String.concat (String c sep) (e2 :: e2' :: l2))
      with (e2 +:+ String c (sep +:+ String.concat (String c sep) (e2' :: l2))).
    change (String.concat (String c sep) [e1]) with e1.
    intros H. destruct (app_sep_absurd _ _ _ _ He1 H).
  - change (String.concat (String c sep) (e1 :: e1' :: l1))
      with (e1 +:+ String c (sep +:+ String.concat (String c sep) (e1' :: l1))).
    change (String.concat (String c sep) [e2]) with e2.
    intros H. symmetry in H. destruct (app_sep_absurd _ _ _ _ He2 H).
  - change (String.concat (String c sep) (e1 :: e1' :: l1))
      with (e1 +:+ String c (sep +:+ String.concat (String c sep) (e1' :: l1))).
    change (String.concat (String c sep) (e2 :: e2' :: l2))
      with (e2 +:+ String c (sep +:+ String.concat (String c sep) (e2' :: l2))).
    intros H. destruct (app_sep_inj _ _ _ _ _ He1 He2 H) as [-> Hrest].
    f_equal. apply IH; try congruence; try assumption.
    exact (string_app_cancel _ _ _ Hrest).
Qed.

Lemma map_inj_eq {A B} (f : A -> B) :
  (forall x y, f x = f y -> x = y) ->
  forall l1 l2, map f l1 = map f l2 -> l1 = l2.
Proof.
  intros Hf. induction l1 as [|x l1 IH]; intros [|y l2]; simpl; try congruence.
  intros [= Hxy Hl]. f_equal; [now apply Hf | now apply IH].
Qed.

Lemma encoded_parts_no_slash p :
  Forall (fun e => Url.mem_char "/" e = false) (Url.encoded_parts p).
Proof.
  unfold Url.encoded_parts. apply Forall_map, Forall_forall.
  intros part _. apply quote_no_slash.
Qed.

Lemma encoded_parts_cons p : Url.encoded_parts p <> [].
Proof.
  unfold Url.encoded_parts, Url.path_parts.
  destruct (split_slash_cons p) as (h & t & ->). discriminate.
Qed.

Lemma encoded_path_inj p q : Url.encoded_path p = Url.encoded_path q -> p = q.
Proof.
  unfold Url.encoded_path, Str.join. intros H.
  apply (concat_sep_inj "/" "job/") in H;
    [| apply encoded_parts_cons | apply encoded_parts_cons
     | apply encoded_parts_no_slash | apply encoded_parts_no_slash].
  unfold Url.encoded_parts, Url.path_parts in H.
  apply (map_inj_eq _ quote_inj) in H.
  rewrite <- (split_slash_join p), <- (split_slash_join q). now rewrite H.
Qed.

Lemma list_ascii_app (a b : string) :
  list_ascii_of_string (a +:+ b) = list_ascii_of_string a ++ list_ascii_of_string b.
Proof.
  induction a as [|x a IH]; [reflexivity|].
  rewrite string_cons_app. simpl. now rewrite IH.
Qed.

Lemma quote_char_path_chars c :
  forallb url_path_char (list_ascii_of_string (Url.quote_char "" c)) = true.
Proof. destruct c as [[] [] [] [] [] [] [] []]; vm_compute; reflexivity. Qed.

Lemma quote_path_chars s :
  forallb url_path_char (list_ascii_of_string (Url.quote "" s)) = true.
Proof.
  induction s as [|c s IH]; [reflexivity|].
  cbn [Url.quote]. rewrite list_ascii_app, forallb_app.
  now rewrite quote_char_path_chars, IH.
Qed.

Lemma concat_path_chars (l : list string) :
  Forall (fun e => forallb url_path_char (list_ascii_of_string e) = true) l ->
  forallb url_path_char (list_ascii_of_string (String.concat "/job/" l)) = true.
Proof.
  induction l as [|e l IH]; intros Hl; [reflexivity|].
  inversion Hl as [|? ? He Hl']; subst.
  destruct l as [|e' l]; [exact He|].
  change (String.concat "/job/" (e :: e' :: l))
    with (e +:+ "/job/" +:+ String.concat "/job/" (e' :: l)).
  rewrite !list_ascii_app, !forallb_app, He, (IH Hl'). reflexivity.
Qed.

(** The form body. *)
Lemma plus_cons c s :
  Url.replace_char " " "+" (Url.quote " " (String c s))
  = Url.replace_char " " "+" (Url.quote_char " " c)
    +:+ Url.replace_char " " "+" (Url.quote " " s).
Proof.
  cbn [Url.quote]. unfold Url.replace_char.
  generalize (Url.quote_char " " c) as a. intros a.
  induction a as [|x a IH]; [reflexivity|].
  rewrite string_cons_app. cbn [Str.map_chars]. now rewrite IH.
Qed.

Lemma contains_space_cons c s :
  Str.contains " " (String c s) = Ascii.eqb c " " || Str.contains " " s.
Proof.
  cbn [Str.contains String.prefix].
  destruct (ascii_dec " " c) as [<-|Hne].
  - destruct s; reflexivity.
  - destruct (Ascii.eqb_spec c " ") as [->|_]; [contradiction | reflexivity].
Qed.

(** [quote_plus] takes its two branches to the same string. *)
Lemma quote_plus_chars s :
  Url.quote_plus "" s = Url.replace_char " " "+" (Url.quote " " s).
Proof.
  unfold Url.quote_plus. change ("" +:+ " ") with " ".
  destruct (Str.contains " " s) eqn:Hsp; [reflexivity|].
  induction s as [|c s IH]; [reflexivity|].
  rewrite contains_space_cons in Hsp. apply orb_false_elim in Hsp as [Hc Hs].
  rewrite plus_cons, <- (IH Hs). cbn [Url.quote]. f_equal.
  destruct (plus_char_shape c) as [[-> _]|[[Hsafe ->]|(_ & Hsafe & ->)]].
  - discriminate.
  - destruct (quote_char_shape c) as [[_ ->]|[H _]]; [reflexivity | congruence].
  - destruct (quote_char_shape c) as [[H _]|[_ ->]]; [congruence | reflexivity].
Qed.

Lemma quote_plus_inj s : forall t,
  Url.quote_plus "" s = Url.quote_plus "" t -> s = t.
Proof.
  intros t. rewrite !quote_plus_chars. revert t.
  induction s as [|a s IH]; intros [|b t].
  - reflexivity.
  - rewrite plus_cons.
    destruct (plus_char_shape b) as [[_ ->]|[[_ ->]|(_ & _ & ->)]]; discriminate.
  - rewrite plus_cons.
    destruct (plus_char_shape a) as [[_ ->]|[[_ ->]|(_ & _ & ->)]]; discriminate.
  - rewrite !plus_cons.
    destruct (plus_char_shape a) as [[-> ->]|[[Ha ->]|(Hsa & Ha & ->)]],
             (plus_char_shape b) as [[-> ->]|[[Hb ->]|(Hsb & Hb & ->)]].
    + intros [= H]. f_equal. now apply IH.
    + intros [= <- _]. discriminate.
    + discriminate.
    + intros [= -> _]. discriminate.
    + intros [= -> H]. f_equal. now apply IH.
    + intros [= -> _]. rewrite percent_not_safe in Ha. discriminate.
    + discriminate.
    + intros [= <- _]. rewrite percent_not_safe in Hb. discriminate.
    + intros H. apply percent_app_inj in H as [-> H]. f_equal. now apply IH.
Qed.

Lemma plus_char_no_sep c :
  let out := Url.replace_char " " "+" (Url.quote_char " " c) in
  Url.mem_char "&" out = false /\ Url.mem_char "=" out = false.
Proof. destruct c as [[] [] [] [] [] [] [] []]; vm_compute; split; reflexivity. Qed.

Lemma quote_plus_no_sep s :
  Url.mem_char "&" (Url.quote_plus "" s) = false
  /\ Url.mem_char "=" (Url.quote_plus "" s) = false.
Proof.
  rewrite quote_plus_chars.
  induction s as [|c s [IH1 IH2]]; [split; reflexivity|].
  rewrite plus_cons, !mem_char_app.
  destruct (plus_char_no_sep c) as [-> ->]. now rewrite IH1, IH2.
Qed.

Lemma urlencode_inj (q1 q2 : dict string) :
  Url.urlencode q1 = Url.urlencode q2 -> q1 = q2.
Proof.
  unfold Url.urlencode, Str.join.
  set (piece := fun kv : string * string =>
                  Url.quote_plus "" (fst kv) +:+ "=" +:+ Url.quote_plus "" (snd kv)).
  assert (Hamp : forall q, Forall (fun e => Url.mem_char "&" e = false) (map piece q)).
  { intros q. apply Forall_map, Forall_forall. intros [k v] _. unfold piece.
    cbn [fst snd]. rewrite !mem_char_app.
    destruct (quote_plus_no_sep k) as [-> _], (quote_plus_no_sep v) as [-> _].
    reflexivity. }
  assert (Hne : forall kv q, String.concat "&" (map piece (kv :: q)) <> "").
  { intros [k v] q. cbn [map]. unfold piece at 1. cbn [fst snd].
    destruct (map piece q); cbn [String.concat];
      destruct (Url.quote_plus "" k); discriminate. }
  assert (Hinj : forall x y, piece x = piece y -> x = y).
  { intros [k1 v1] [k2 v2]. unfold piece. cbn [fst snd]. intros H.
    apply app_sep_inj in H as [Hk Hv];
      [| apply quote_plus_no_sep | apply quote_plus_no_sep].
    apply quote_plus_inj in Hk. apply quote_plus_inj in Hv. congruence. }
  intros H. destruct q1 as [|kv1 q1], q2 as [|kv2 q2].
  - reflexivity.
  - exfalso. eapply Hne. symmetry. exact H.
  - exfalso. eapply Hne. exact H.
  - apply (map_inj_eq piece Hinj).
    apply (concat_sep_inj "&" ""); try (cbn [map]; discriminate); try apply Hamp.
    exact H.
Qed.

End UrlFacts.

(** X1. Two job paths that differ are sent to different URL paths: the
    nested-path encoding loses nothing of the path. *)
Theorem encoded_path_injective (p q : string) :
  p <> q -> Url.encoded_path p <> Url.encoded_path q.
Proof. intros Hne Heq. apply Hne. now apply encoded_path_inj. Qed.

Lemma encoded_path_injective_on_escapes :
  "team a/deploy" <> "team%20a/deploy"
  /\ Url.encoded_path "team a/deploy" <> Url.encoded_path "team%20a/deploy".
Proof.
  assert (H : "team a/deploy" <> "team%20a/deploy") by discriminate.
  split; [exact H | exact (encoded_path_injective _ _ H)].
Defined.

(** X2. The encoded path is made of unreserved characters, percent signs
    and slashes: no other character of a job path reaches the URL. *)
Theorem encoded_path_url_safe (job_path : string) :
  forallb url_path_char (list_ascii_of_string (Url.encoded_path job_path)) = true.
Proof.
  unfold Url.encoded_path, Str.join, Url.encoded_parts.
  apply concat_path_chars, Forall_map, Forall_forall.
  intros part _. apply quote_path_chars.
Qed.

(** X3. The form body of a build request names its parameters: two
    parameter mappings with the same body are the same mapping, whatever
    characters their keys and values hold. *)
Theorem urlencode_injective (q1 q2 : dict string) :
  q1 <> q2 -> Url.urlencode q1 <> Url.urlencode q2.
Proof. intros Hne Heq. apply Hne. now apply urlencode_inj. Qed.

Lemma urlencode_injective_on_separators :
  [("a", "1&b=2")] <> [("a", "1"); ("b", "2")]
  /\ Url.urlencode [("a", "1&b=2")] <> Url.urlencode [("a", "1"); ("b", "2")].
Proof.
  assert (H : [("a", "1&b=2")] <> [("a", "1"); ("b", "2")] :> dict string)
    by discriminate.
  split; [exact H | exact (urlencode_injective _ _ H)].
Defined.

(** ** Tools that read *)

Section ReadFacts.
Context `{env : Env}.

Lemma reads_only_refl st : reads_only st st.
Proof.
  split; [reflexivity|]. exists []. split; [now rewrite app_nil_r | constructor].
Qed.

Lemma only_listings_reads st st' : only_listings st st' -> reads_only st st'.
Proof.
  intros [Hc (paths & Hs)]. split; [exact Hc|].
  exists (map listing_request paths). split; [exact Hs|].
  apply Forall_map, Forall_forall. intros p _. repeat split.
Qed.

(** A request that does not change anything on the server asks for no
    crumb: the helper sends it as it is. *)
Lemma jenkins_request_get endpoint is_job_specific st :
  jenkins_request "GET" endpoint is_job_specific None [] st
  = request_checked
      {| req_method := "GET";
         req_url := if is_job_specific
                    then JENKINS_URL +:+ "/job/" +:+ endpoint
                    else JENKINS_URL +:+ "/" +:+ endpoint;
         req_auth := auth; req_headers := []; req_data := None;
         req_timeout := None |} st.
Proof. reflexivity. Qed.

Lemma jenkins_request_nested_get job_path endpoint_suffix st :
  jenkins_request_nested "GET" job_path endpoint_suffix None [] st
  = request_checked
      {| req_method := "GET";
         req_url := JENKINS_URL +:+ "/job/" +:+ Url.encoded_path job_path
                      +:+ "/" +:+ endpoint_suffix;
         req_auth := auth; req_headers := []; req_data := None;
         req_timeout := None |} st.
Proof. reflexivity. Qed.

Lemma request_checked_reads r st :
  plain_get r -> reads_only st (snd (request_checked r st)).
Proof.
  intros Hr. destruct (request_checked_run r st) as (res & ->). simpl.
  split; [reflexivity|]. exists [r]. split; [reflexivity|]. now constructor.
Qed.

(** What follows a request and only computes leaves the state alone. *)
Lemma bind_quiet {A B} (m : M A) (k : A -> M B) st :
  (forall a s, snd (k a s) = s) -> snd (bind m k st) = snd (m st).
Proof.
  intros Hk. unfold bind. destruct (m st) as [[a|e] s]; [apply Hk | reflexivity].
Qed.

Lemma try_raise {A} (m : M A) st :
  try_except m any_exception (fun e => raise e) st = m st.
Proof. unfold try_except. destruct (m st) as [[a|e] s]; reflexivity. Qed.

Lemma search_jobs_reads pattern job_type max_depth st :
  reads_only st (snd (search_jobs pattern job_type max_depth st)).
Proof.
  unfold search_jobs. rewrite bind_quiet by reflexivity.
  unfold search_jobs_items. rewrite try_raise, bind_quiet by reflexivity.
  apply only_listings_reads, walk_only_listings.
Qed.

Lemma list_jobs_reads recursive max_depth include_folders st :
  reads_only st (snd (list_jobs recursive max_depth include_folders st)).
Proof.
  unfold list_jobs. rewrite try_raise. destruct recursive.
  - rewrite bind_quiet by reflexivity.
    apply only_listings_reads, walk_only_listings.
  - rewrite bind_quiet, jenkins_request_get.
    + apply request_checked_reads. repeat split.
    + intros resp s. unfold bind, lift.
      destruct (json resp) as [data|]; [|reflexivity].
      destruct (py_get data "jobs" (VList [])) as [jobs|]; [|reflexivity].
      destruct (py_iter jobs); reflexivity.
Qed.

Lemma get_folder_info_reads folder_path st :
  reads_only st (snd (get_folder_info folder_path st)).
Proof.
  unfold get_folder_info. rewrite try_raise.
  rewrite bind_quiet, jenkins_request_nested_get.
  - apply request_checked_reads. repeat split.
  - intros resp s. unfold bind, lift, ret.
    destruct (json resp) as [data|]; [|reflexivity].
    destruct (py_get data "jobs" (VList [])) as [jobs|]; [|reflexivity].
    destruct (py_iter jobs) as [entries|]; [|reflexivity].
    destruct (split_items folder_path entries [] []); [|reflexivity].
    destruct (py_get data "description" (VStr "")) as [d|]; [|reflexivity].
    destruct (as_opt_str d); reflexivity.
Qed.

Lemma try_not_found_state {A} (m : M A) job_name operation st :
  snd (try_except m any_exception (not_found_handler job_name operation) st)
  = snd (m st).
Proof.
  unfold try_except, not_found_handler, raise.
  destruct (m st) as [[a|e] s]; [reflexivity|]. simpl.
  destruct e; try reflexivity. destruct (_ =? 404); reflexivity.
Qed.

Lemma get_build_status_request opt_int_field job_name number st :
  get_build_status opt_int_field job_name number st
  = try_except
      (bind (request_checked (build_status_request job_name number)) (fun resp =>
       bind (lift (json resp)) (fun data =>
       lift (build_status_response opt_int_field job_name number data))))
      any_exception
      (not_found_handler job_name "getting build status") st.
Proof.
  unfold get_build_status, build_status_request.
  destruct (Str.contains "/" job_name); reflexivity.
Qed.

Lemma get_build_status_reads opt_int_field job_name number st :
  reads_only st (snd (get_build_status opt_int_field job_name number st)).
Proof.
  rewrite get_build_status_request, try_not_found_state, bind_quiet.
  - apply request_checked_reads. repeat split.
  - intros resp s. unfold bind, lift. destruct (json resp); reflexivity.
Qed.

Lemma get_queue_info_reads st : reads_only st (snd (get_queue_info st)).
Proof.
  unfold get_queue_info. rewrite try_raise, bind_quiet, jenkins_request_get.
  - apply request_checked_reads. repeat split.
  - intros resp s. unfold bind, lift. destruct (json resp); reflexivity.
Qed.

Lemma server_info_reads st : reads_only st (snd (server_info st)).
Proof.
  unfold server_info. rewrite try_raise, bind_quiet, jenkins_request_get.
  - apply request_checked_reads. repeat split.
  - intros resp s. unfold bind, lift, ret.
    destruct (json resp) as [data|]; [|reflexivity].
    destruct (py_get data "jenkinsVersion" VNone); reflexivity.
Qed.

Lemma get_job_info_reads job_name auto_search st :
  reads_only st (snd (get_job_info job_name auto_search st)).
Proof.
  unfold get_job_info. rewrite try_raise. unfold try_except.
  assert (Hdirect : reads_only st (snd (direct_lookup job_name st))).
  { rewrite direct_lookup_request, bind_quiet.
    - apply request_checked_reads. unfold lookup_request. repeat split.
    - intros resp s. unfold bind, lift, ret.
      destruct (json resp) as [data|]; [|reflexivity].
      destruct (parse_job_info job_name data); reflexivity. }
  destruct (direct_lookup job_name st) as [[v|e] st1]; [exact Hdirect|].
  simpl in Hdirect. destruct e as [code| | | | | | |msg]; try exact Hdirect.
  cbn [is_HTTPError].
  destruct ((code =? 404) && auto_search); [|exact Hdirect].
  destruct Hdirect as [Hc (rs & Hs & Hrs)].
  assert (Hwalk : only_listings st1 (snd (search_fallback job_name st1))).
  { unfold search_fallback. rewrite bind_quiet.
    - apply walk_only_listings.
    - intros all_items s.
      destruct (List.filter (similar_to job_name) (List.filter is_job all_items));
        reflexivity. }
  apply only_listings_reads in Hwalk as [Hc' (rs' & Hs' & Hrs')].
  split; [congruence|]. exists (rs ++ rs'). split.
  - rewrite Hs', Hs. now rewrite app_assoc.
  - now apply Forall_app.
Qed.

Lemma get_health_reads exn_str st :
  reads_only st (snd (get_health exn_str st)).
Proof.
  unfold get_health, try_except, bind, requests_request, lift, ret, raise.
  destruct (send health_request (world st)) as [[resp|] w]; simpl.
  - destruct (raise_for_status resp) as [[]|e]; simpl.
    + destruct (header_get "x-jenkins" (headers resp)); simpl;
        (split; [reflexivity|]; exists [health_request];
         split; [reflexivity | repeat constructor]).
    + split; [reflexivity|]. exists [health_request].
      split; [reflexivity | repeat constructor].
  - split; [reflexivity|]. exists [health_request].
    split; [reflexivity | repeat constructor].
Qed.

End ReadFacts.

(** X4. The tools that browse only read: whatever the server answers,
    [list_jobs], [search_jobs], [get_job_info], [get_folder_info],
    [get_build_status], [get_queue_info], [server_info] and [get_health]
    leave the crumb cache as it was, and every request they send is a GET
    without headers and without a body - none asks for a crumb. *)
Theorem browsing_reads_only `{env : Env}
        (opt_int_field : value -> option (option Z)) (exn_str : exn -> string)
        (recursive include_folders auto_search : bool) (max_depth number : Z)
        (pattern job_type job_name folder_path : string) (st : State) :
  reads_only st (snd (list_jobs recursive max_depth include_folders st))
  /\ reads_only st (snd (search_jobs pattern job_type max_depth st))
  /\ reads_only st (snd (get_job_info job_name auto_search st))
  /\ reads_only st (snd (get_folder_info folder_path st))
  /\ reads_only st (snd (get_build_status opt_int_field job_name number st))
  /\ reads_only st (snd (get_queue_info st))
  /\ reads_only st (snd (server_info st))
  /\ reads_only st (snd (get_health exn_str st)).
Proof.
  split; [apply list_jobs_reads|].
  split; [apply search_jobs_reads|].
  split; [apply get_job_info_reads|].
  split; [apply get_folder_info_reads|].
  split; [apply get_build_status_reads|].
  split; [apply get_queue_info_reads|].
  split; [apply server_info_reads | apply get_health_reads].
Qed.

(** ** Triggering and the crumb *)

Section PostFacts.
Context `{env : Env}.

(** A POST looks up the crumb first, and carries it when there is one. *)
Lemma jenkins_request_post endpoint data hdrs st :
  jenkins_request "POST" endpoint true data hdrs st
  = match get_jenkins_crumb st with
    | (Ok crumb, st1) =>
        request_checked
          {| req_method := "POST";
             req_url := JENKINS_URL +:+ "/job/" +:+ endpoint;
             req_auth := auth;
             req_headers := if truthy crumb
                            then dict_set "Jenkins-Crumb" crumb hdrs else hdrs;
             req_data := data; req_timeout := None |} st1
    | (Raise e, st1) => (Raise e, st1)
    end.
Proof.
  unfold jenkins_request, add_crumb. change (is_mutating "POST") with true.
  unfold bind, ret. destruct (get_jenkins_crumb st) as [[crumb|e] st1];
    [|reflexivity].
  destruct (truthy crumb); reflexivity.
Qed.

Lemma jenkins_request_nested_post job_path endpoint_suffix data hdrs st :
  jenkins_request_nested "POST" job_path endpoint_suffix data hdrs st
  = match get_jenkins_crumb st with
    | (Ok crumb, st1) =>
        request_checked
          {| req_method := "POST";
             req_url := JENKINS_URL +:+ "/job/" +:+ Url.encoded_path job_path
                          +:+ "/" +:+ endpoint_suffix;
             req_auth := auth;
             req_headers := if truthy crumb
                            then dict_set "Jenkins-Crumb" crumb hdrs else hdrs;
             req_data := data; req_timeout := None |} st1
    | (Raise e, st1) => (Raise e, st1)
    end.
Proof.
  unfold jenkins_request_nested, add_crumb. change (is_mutating "POST") with true.
  unfold bind, ret. destruct (get_jenkins_crumb st) as [[crumb|e] st1];
    [|reflexivity].
  destruct (truthy crumb); reflexivity.
Qed.

(** The request of [trigger_job] with build parameters that are a
    mapping, or none: the crumb is looked up, then the build request is
    sent with the crumb among its headers if there is one. *)
Lemma trigger_request_run job_name jenkins_params st :
  truthy jenkins_params = false \/ (exists d, jenkins_params = VDict d) ->
  trigger_request job_name jenkins_params st
  = match get_jenkins_crumb st with
    | (Ok crumb, st1) =>
        let base := if truthy jenkins_params then form_headers else [] in
        bind (request_checked
                (build_request job_name jenkins_params
                   (if truthy crumb
                    then dict_set "Jenkins-Crumb" crumb base else base)))
             (fun resp =>
                ret (resp,
                     if truthy jenkins_params then
                       match jenkins_params with
                       | VDict d => Some (process_jenkins_parameters py_repr d)
                       | _ => None
                       end
                     else None)) st1
    | (Raise e, st1) => (Raise e, st1)
    end.
Proof.
  intros Hshape. unfold trigger_request, build_request, trigger_url.
  destruct (Str.contains "/" job_name);
    destruct (truthy jenkins_params) eqn:Htr.
  all: try (destruct Hshape as [Hf|(d & ->)]; [discriminate|]).
  all: unfold process_params_of, bind at 1, lift; cbn [fst snd].
  all: try (unfold bind at 1).
  all: rewrite ?jenkins_request_nested_post, ?jenkins_request_post.
  all: destruct (get_jenkins_crumb st) as [[crumb|e] st1]; [|reflexivity].
  all: unfold bind; reflexivity.
Qed.

Lemma trigger_job_state job_name params st :
  snd (trigger_job job_name params st)
  = match extract_jenkins_params params with
    | Ok jp => snd (trigger_request job_name jp st)
    | Raise _ => st
    end.
Proof.
  unfold trigger_job, try_except, bind, lift, ret, raise.
  destruct (extract_jenkins_params params) as [jp|e]; cbn [fst snd].
  - destruct (trigger_request job_name jp st) as [[rp|e] st1]; [reflexivity|].
    cbn. destruct e; try reflexivity. destruct (_ =? 404); reflexivity.
  - destruct e; try reflexivity. destruct (_ =? 404); reflexivity.
Qed.

Lemma cache_fresh_token st :
  cache_fresh st = true -> truthy (token (crumb_cache st)) = true.
Proof. unfold cache_fresh. intros H. now apply andb_true_iff in H as [H _]. Qed.

(** What the crumb block can raise: looking up the crumb lets through
    what is no [RequestException], and the fetch raises nothing else but
    [AttributeError]. *)
Lemma crumb_of_raises o e :
  crumb_of o = Raise e -> is_RequestException e = true \/ e = AttributeError.
Proof.
  unfold crumb_of. destruct o as [resp|]; [|intros [= <-]; now left].
  unfold raise_for_status.
  destruct ((400 <=? status_code resp) && (status_code resp <? 600));
    cbn [result_bind]; [intros [= <-]; now left|].
  unfold json. destruct (json_body resp) as [data|]; cbn [result_bind];
    [|intros [= <-]; now left].
  unfold py_get. destruct data; intros [= <-]; now right.
Qed.

Lemma get_jenkins_crumb_raises st e :
  fst (get_jenkins_crumb st) = Raise e -> e = AttributeError.
Proof.
  rewrite get_jenkins_crumb_run.
  destruct (cache_fresh st); [discriminate|].
  destruct (send crumb_request (world_after_test st)) as [o w'].
  destruct (crumb_of o) as [tok|e'] eqn:Ho.
  - destruct (truthy tok); [|discriminate].
    destruct (datetime_now w'). discriminate.
  - destruct (is_RequestException e') eqn:He'; [discriminate|].
    cbn [fst]. intros [= <-].
    destruct (crumb_of_raises _ _ Ho) as [H|H]; [congruence | exact H].
Qed.

Lemma request_checked_raises r st e :
  fst (request_checked r st) = Raise e ->
  e = TransportError \/ exists code, e = HTTPError code /\ 400 <= code < 600.
Proof.
  unfold request_checked, try_except, bind, requests_request, lift, ret, raise.
  destruct (send r (world st)) as [[resp|] w]; cbn [fst snd].
  - unfold raise_for_status.
    destruct ((400 <=? status_code resp) && (status_code resp <? 600)) eqn:Hs;
      cbn; [|discriminate].
    intros [= <-]. right. eexists. split; [reflexivity | lia].
  - cbn. intros [= <-]. now left.
Qed.

Lemma trigger_request_raises job_name jenkins_params st e :
  fst (trigger_request job_name jenkins_params st) = Raise e ->
  e = AttributeError \/ e = TransportError
  \/ exists code, e = HTTPError code /\ 400 <= code < 600.
Proof.
  unfold trigger_request.
  destruct (Str.contains "/" job_name); destruct (truthy jenkins_params).
  all: unfold bind at 1.
  all: try (unfold lift at 1, process_params_of;
            destruct jenkins_params; try (intros [= <-]; now left);
            unfold bind at 1).
  all: rewrite ?jenkins_request_nested_post, ?jenkins_request_post.
  all: pose proof (get_jenkins_crumb_raises st) as Hcrumb.
  all: destruct (get_jenkins_crumb st) as [[crumb|e'] st1];
    [|cbn; intros [= <-]; left; now apply Hcrumb].
  all: match goal with
       | |- context [request_checked ?r ?s] =>
           pose proof (request_checked_raises r s) as Hreq;
           destruct (request_checked r s) as [[resp|e'] st2]
       end; cbn; [discriminate|].
  all: intros [= <-]; right; now apply Hreq.
Qed.

End PostFacts.

(** X5. With a crumb in the cache that has not expired, [trigger_job]
    sends one request, the build request, with the cached crumb in its
    [Jenkins-Crumb] header; the crumb issuer is not asked and the cache
    stays as it is. *)
Theorem trigger_job_with_cached_crumb `{env : Env}
        (job_name : string) (params : option (dict value)) (jenkins_params : value)
        (st : State) :
  extract_jenkins_params params = Ok jenkins_params ->
  truthy jenkins_params = false \/ (exists d, jenkins_params = VDict d) ->
  cache_fresh st = true ->
  let st' := snd (trigger_job job_name params st) in
  crumb_cache st' = crumb_cache st
  /\ sent st'
     = sent st ++
       [build_request job_name jenkins_params
          (dict_set "Jenkins-Crumb" (token (crumb_cache st))
             (if truthy jenkins_params then form_headers else []))].
Proof.
  intros Hjp Hshape Hfresh. cbn zeta.
  rewrite trigger_job_state, Hjp, trigger_request_run by exact Hshape.
  rewrite get_jenkins_crumb_run, Hfresh, (cache_fresh_token _ Hfresh).
  cbn zeta. rewrite bind_quiet by reflexivity.
  match goal with
  | |- context [request_checked ?r ?s] =>
      destruct (request_checked_run r s) as (res & ->)
  end.
  split; reflexivity.
Qed.

Lemma trigger_job_with_cached_crumb_on_fixture :
  let st := Fixture.state {| token := VStr "c0ffee"; expires := Some 1800000000 |}
                          5000000 [] in
  sent (snd (trigger_job "deploy" (Some [("env", VStr "prod")]) st))
  = [{| req_method := "POST";
        req_url := "http://jenkins/job/deploy/buildWithParameters";
        req_auth := ("ci", "secret");
        req_headers := [("Content-Type", VStr "application/x-www-form-urlencoded");
                        ("Jenkins-Crumb", VStr "c0ffee")];
        req_data := Some "env=prod";
        req_timeout := None |}].
Proof.
  intros st.
  exact (proj2 (trigger_job_with_cached_crumb
                  "deploy" (Some [("env", VStr "prod")])
                  (VDict [("env", VStr "prod")]) st
                  eq_refl (or_intror (ex_intro _ _ eq_refl)) eq_refl)).
Defined.

(** X6. When no crumb can be had - the cache holds none that is valid and
    the crumb issuer does not answer, answers with an error status, or
    answers without a crumb - [trigger_job] sends the build request all
    the same, without a [Jenkins-Crumb] header, and leaves the cache as
    it is. *)
Theorem trigger_job_without_crumb `{env : Env}
        (job_name : string) (params : option (dict value)) (jenkins_params : value)
        (st : State) :
  extract_jenkins_params params = Ok jenkins_params ->
  truthy jenkins_params = false \/ (exists d, jenkins_params = VDict d) ->
  cache_fresh st = false ->
  fetch_failed (fst (send crumb_request (world_after_test st))) ->
  let st' := snd (trigger_job job_name params st) in
  crumb_cache st' = crumb_cache st
  /\ sent st'
     = sent st ++
       [crumb_request;
        build_request job_name jenkins_params
          (if truthy jenkins_params then form_headers else [])].
Proof.
  intros Hjp Hshape Hfresh Hfail. cbn zeta.
  rewrite trigger_job_state, Hjp, trigger_request_run by exact Hshape.
  rewrite get_jenkins_crumb_run, Hfresh.
  destruct (send crumb_request (world_after_test st)) as [o w']. cbn [fst] in Hfail.
  assert (Hnone : match crumb_of o with
                  | Ok tok => truthy tok = false
                  | Raise e => is_RequestException e = true
                  end).
  { destruct (fetch_failed_crumb_of o Hfail) as [(e & -> & He)|(tok & -> & Htok)];
      assumption. }
  destruct (crumb_of o) as [tok|e]; rewrite Hnone.
  all: cbn zeta; cbn [truthy]; rewrite bind_quiet by reflexivity.
  all: match goal with
       | |- context [request_checked ?r ?s] =>
           destruct (request_checked_run r s) as (res & ->)
       end; cbn [snd crumb_cache sent]; rewrite <- app_assoc; split; reflexivity.
Qed.

Lemma trigger_job_without_crumb_on_fixture :
  map req_url
      (sent (snd (trigger_job "deploy" None (Fixture.silent_state empty_cache 0 []))))
  = ["http://jenkins/crumbIssuer/api/json"; "http://jenkins/job/deploy/build"].
Proof.
  exact (f_equal (map req_url)
           (proj2 (@trigger_job_without_crumb Fixture.silent
                     "deploy" None VNone (Fixture.silent_state empty_cache 0 [])
                     eq_refl (or_introl eq_refl) eq_refl I))).
Defined.

(** X7. When the crumb issuer answers with JSON that is not an object,
    looking up the crumb raises [AttributeError], which [trigger_job]
    lets through: the build request is not sent. *)
Theorem trigger_job_crumb_not_an_object `{env : Env}
        (job_name : string) (params : option (dict value)) (jenkins_params : value)
        (st : State) (resp : Response) (body : value) (w : World) :
  extract_jenkins_params params = Ok jenkins_params ->
  truthy jenkins_params = false \/ (exists d, jenkins_params = VDict d) ->
  cache_fresh st = false ->
  send crumb_request (world_after_test st) = (Some resp, w) ->
  ~ http_error resp ->
  json_body resp = Some body ->
  (forall d, body <> VDict d) ->
  trigger_job job_name params st
  = (Raise AttributeError,
     {| crumb_cache := crumb_cache st; world := w;
        sent := sent st ++ [crumb_request] |}).
Proof.
  intros Hjp Hshape Hfresh Hsend Hok Hbody Hobj.
  unfold trigger_job, try_except, bind at 1, lift. rewrite Hjp.
  unfold bind at 1. rewrite trigger_request_run by exact Hshape.
  rewrite get_jenkins_crumb_run, Hfresh, Hsend.
  assert (Hcrumb : crumb_of (Some resp) = Raise AttributeError).
  { unfold crumb_of, raise_for_status, json, http_error in *.
    destruct ((400 <=? status_code resp) && (status_code resp <? 600)) eqn:Hs;
      [exfalso; apply Hok; lia|].
    cbn [result_bind]. rewrite Hbody. cbn [result_bind].
    destruct body; try reflexivity. now destruct (Hobj d). }
  rewrite Hcrumb. reflexivity.
Qed.

Lemma trigger_job_crumb_not_an_object_on_fixture :
  fst (trigger_job "deploy" None Busy.start) = Raise AttributeError
  /\ map req_url (sent (snd (trigger_job "deploy" None Busy.start)))
     = ["http://jenkins/crumbIssuer/api/json"].
Proof.
  assert (Hobj : forall d, VList [] <> VDict d) by discriminate.
  assert (Hok : ~ @http_error
                    {| status_code := 200; headers := [];
                       json_body := Some (VList []) |})
    by (unfold http_error; simpl; lia).
  pose proof (@trigger_job_crumb_not_an_object Busy.jenkins
                "deploy" None VNone Busy.start _ _ _
                eq_refl (or_introl eq_refl) eq_refl eq_refl Hok eq_refl Hobj) as H.
  split; [exact (f_equal fst H) | exact (f_equal (fun r => map req_url (sent (snd r))) H)].
Defined.

(** X8. What [trigger_job] raises: a [ValueError] with the discovery
    hints for the job, in place of an HTTP 404; an HTTP error of another
    status; a transport failure; or [AttributeError].  It never raises
    an HTTP 404 itself. *)
Theorem trigger_job_raises `{env : Env}
        (job_name : string) (params : option (dict value)) (st : State) (e : exn) :
  fst (trigger_job job_name params st) = Raise e ->
  e = ValueError (create_job_not_found_error job_name "triggering")
  \/ (exists code, e = HTTPError code /\ 400 <= code < 600 /\ code <> 404)
  \/ e = TransportError
  \/ e = AttributeError.
Proof.
  unfold trigger_job, try_except, bind at 1, lift.
  assert (Hextract : forall e', extract_jenkins_params params = Raise e' ->
                                e' = AttributeError).
  { unfold extract_jenkins_params. destruct params as [p|]; [|discriminate].
    destruct (truthy (VDict p)); [|discriminate].
    cbn [py_get result_bind]. intros e'.
    destruct (dict_get_default "args" (VDict []) p); cbn; congruence. }
  destruct (extract_jenkins_params params) as [jp|e'].
  - unfold bind at 1.
    pose proof (trigger_request_raises job_name jp st) as Hreq.
    destruct (trigger_request job_name jp st) as [[rp|e'] st1];
      [discriminate|].
    cbn [any_exception].
    destruct (Hreq e' eq_refl) as [->|[->|(code & -> & Hcode)]].
    + intros [= <-]. now right; right; right.
    + intros [= <-]. now right; right; left.
    + destruct (code =? 404) eqn:H404; cbn; intros [= <-].
      * now left.
      * right; left. exists code. repeat split; lia.
  - rewrite (Hextract e' eq_refl). cbn. intros [= <-]. now right; right; right.
Qed.

Lemma trigger_job_raises_on_fixture :
  let e := ValueError (create_job_not_found_error "nope" "triggering") in
  fst (trigger_job "nope" None Fixture.start) = Raise e
  /\ (e = ValueError (create_job_not_found_error "nope" "triggering")
      \/ (exists code, e = HTTPError code /\ 400 <= code < 600 /\ code <> 404)
      \/ e = TransportError
      \/ e = AttributeError).
Proof.
  intros e.
  assert (H : fst (trigger_job "nope" None Fixture.start) = Raise e) by reflexivity.
  split; [exact H | exact (trigger_job_raises "nope" None Fixture.start e H)].
Defined.

(** ** The items of a walk *)

Section ItemFacts.
Context `{env : Env}.

Lemma tree_item_shape path item ti :
  tree_item path item = Ok ti -> item_shape ti.
Proof.
  unfold tree_item.
  destruct (py_get item "name" (VStr "")) as [n|]; [|discriminate].
  destruct (py_get item "_class" (VStr "")) as [c|]; [|discriminate].
  destruct (py_get item "url" (VStr "")) as [u|]; [|discriminate].
  destruct (py_get item "description" (VStr "")) as [d|]; [|discriminate].
  cbn [result_bind].
  destruct (py_lower c) as [cl|]; [|discriminate].
  destruct (as_str n) as [n'|]; [|discriminate].
  destruct (as_opt_str u) as [u'|]; [|discriminate].
  destruct (as_opt_str d) as [d'|]; [|discriminate].
  cbn [result_bind]. intros [= <-]. split; cbn.
  - destruct (Str.contains "folder" cl); [now right | now left].
  - destruct (String.eqb path ""); [now left | right; now exists path].
Qed.

Lemma item_shape_kind ti : item_shape ti -> is_job ti = negb (is_folder ti).
Proof.
  intros [[H|H] _]; unfold is_job, is_folder; rewrite H; reflexivity.
Qed.

Lemma walk_items_shape (recurse : string -> P (list JobTreeItem)) path :
  (forall p st r st', recurse p st = Some (Ok r, st') -> Forall item_shape r) ->
  forall items jobs st r st',
    Forall item_shape jobs ->
    walk_items recurse path items jobs st = Some (Ok r, st') ->
    Forall item_shape r.
Proof.
  intros Hrec. induction items as [|item items IH]; intros jobs st r st' Hjobs; simpl.
  - unfold retP. now intros [= <- _].
  - unfold bindP, liftP, lift.
    destruct (tree_item path item) as [ti|e] eqn:Hti; [|discriminate].
    apply tree_item_shape in Hti.
    destruct (is_folder ti).
    + destruct (recurse (full_name ti) st) as [[[sub|e] st1]|] eqn:Hsub;
        [|discriminate|discriminate].
      apply IH. apply Forall_app. split; [exact Hjobs|].
      constructor; [exact Hti|]. eapply Hrec. exact Hsub.
    + apply IH. apply Forall_app. split; [exact Hjobs|]. now constructor.
Qed.

Lemma collect_jobs_shape fuel :
  forall path max_depth current_depth st r st',
    collect_jobs fuel path max_depth current_depth st = Some (Ok r, st') ->
    Forall item_shape r.
Proof.
  induction fuel as [|fuel IH]; intros path md cd st r st'; simpl; [discriminate|].
  destruct (cd >=? md); [unfold retP; intros [= <- _]; constructor|].
  unfold try_exceptP, bindP, liftP.
  destruct (fetch_children path st) as [[items|e] st1];
    [|unfold any_exception, retP; intros [= <- _]; constructor].
  destruct (walk_items _ path items [] st1) as [[[found|e] st2]|] eqn:Hwalk;
    [| |discriminate].
  - intros [= <- _]. eapply walk_items_shape; [|constructor|exact Hwalk].
    intros p s0 r0 s1. apply IH.
  - unfold any_exception, retP. intros [= <- _]. constructor.
Qed.

Lemma walk_shape path max_depth current_depth st :
  exists items,
    fst (_collect_jobs_recursive path max_depth current_depth st) = Ok items
    /\ Forall item_shape items.
Proof.
  pose proof (collect_jobs_walk_fuel path max_depth current_depth st) as Hrun.
  destruct (collect_jobs_returns path max_depth current_depth st) as (items & Hitems).
  destruct (_collect_jobs_recursive path max_depth current_depth st) as [r st'].
  simpl in Hitems. subst r. exists items. split; [reflexivity|].
  eapply collect_jobs_shape. exact Hrun.
Qed.

(** The loop raises what the first entry that is not well formed raises,
    over a recursive call that returns. *)
Lemma walk_loop_malformed (recurse : string -> M (list JobTreeItem)) path :
  (forall p st, exists items, fst (recurse p st) = Ok items) ->
  forall items jobs st e,
    all_results (tree_item path) items = Raise e ->
    fst (walk_loop recurse path items jobs st) = Raise e.
Proof.
  intros Hrec. induction items as [|item items IH]; intros jobs st e; simpl;
    [discriminate|].
  unfold bind, lift.
  destruct (tree_item path item) as [ti|e']; cbn [result_bind];
    [|now intros [= <-]].
  destruct (all_results (tree_item path) items) as [tis|e'] eqn:Htis;
    cbn [result_bind]; [discriminate|].
  intros [= <-]. destruct (is_folder ti); [|now apply IH].
  destruct (Hrec (full_name ti) st) as (sub & Hsub).
  destruct (recurse (full_name ti) st) as [r st1]. simpl in Hsub. subst r.
  now apply IH.
Qed.

(** Over a recursive call that finds nothing and does nothing, a listing
    contributes its entries. *)
Lemma listed_quiet (recurse : string -> M (list JobTreeItem)) :
  (forall p st, recurse p st = (Ok [], st)) ->
  forall entries st, listed recurse entries st = (Ok entries, st).
Proof.
  intros Hrec. induction entries as [|ti entries IH]; intros st; [reflexivity|].
  cbn [listed]. unfold bind.
  destruct (is_folder ti); [rewrite Hrec | unfold ret at 1]; rewrite IH; reflexivity.
Qed.

(** The walk of one level, by what the listing holds. *)
Lemma walk_one_level path max_depth current_depth st :
  current_depth + 1 = max_depth ->
  _collect_jobs_recursive path max_depth current_depth st
  = match fetch_children path st with
    | (Ok entries, st1) =>
        match all_results (tree_item path) entries with
        | Ok items => (Ok items, st1)
        | Raise _ => (Ok [], st1)
        end
    | (Raise _, st1) => (Ok [], st1)
    end.
Proof.
  intros Hlast. rewrite collect_jobs_equation. unfold walk_body.
  destruct (current_depth >=? max_depth) eqn:Hgate; [lia|].
  unfold try_except, bind.
  destruct (fetch_children path st) as [[entries|e] st1]; [|reflexivity].
  set (below := fun p => _collect_jobs_recursive p max_depth (current_depth + 1)).
  assert (Hgate' : forall p s, below p s = (Ok [], s))
    by (intros p s; apply collect_jobs_gate; lia).
  assert (Hret : forall p s, exists items, fst (below p s) = Ok items)
    by (intros p s; rewrite Hgate'; simpl; eauto).
  pose proof (walk_loop_quiet below path Hgate' entries [] st1) as Hquiet.
  destruct (all_results (tree_item path) entries) as [items|e] eqn:Hall.
  - rewrite (walk_loop_listed below path Hret entries items [] st1 Hall).
    unfold bind. rewrite (listed_quiet below Hgate'). reflexivity.
  - pose proof (walk_loop_malformed below path Hret entries [] st1 e Hall) as Hbad.
    destruct (walk_loop below path entries [] st1) as [r st2].
    simpl in Hbad, Hquiet. subst. reflexivity.
Qed.

End ItemFacts.

(** X9. Every item that the walk returns is a job or a folder, and its
    full name is its name or ends with a slash and its name - from any
    path, to any depth, whatever the server answers. *)
Theorem walk_items_well_shaped `{env : Env}
        (path : string) (max_depth current_depth : Z) (st : State) :
  exists items,
    fst (_collect_jobs_recursive path max_depth current_depth st) = Ok items
    /\ Forall item_shape items.
Proof. apply walk_shape. Qed.

(** X10. One entry of a listing that is not well formed (not an object,
    or with a name that is no string) empties the level: the walk of that
    path returns nothing, also not the entries before that one. *)
Theorem malformed_entry_empties_level `{env : Env}
        (path : string) (max_depth current_depth : Z) (st : State)
        (entries : list value) (e : exn) :
  current_depth < max_depth ->
  fst (fetch_children path st) = Ok entries ->
  all_results (tree_item path) entries = Raise e ->
  fst (_collect_jobs_recursive path max_depth current_depth st) = Ok [].
Proof.
  intros Hdepth Hfetch Hbad. rewrite collect_jobs_equation. unfold walk_body.
  destruct (current_depth >=? max_depth) eqn:Hgate; [lia|].
  unfold try_except, bind.
  destruct (fetch_children path st) as [r st1]. simpl in Hfetch. subst r.
  set (below := fun p => _collect_jobs_recursive p max_depth (current_depth + 1)).
  assert (Hret : forall p s, exists items, fst (below p s) = Ok items)
    by (intros p s; apply collect_jobs_returns).
  pose proof (walk_loop_malformed below path Hret entries [] st1 e Hbad) as Hraise.
  destruct (walk_loop below path entries [] st1) as [r st2].
  simpl in Hraise. subst r. reflexivity.
Qed.

Lemma malformed_entry_on_fixture :
  fst (@_collect_jobs_recursive Busy.jenkins "" 10 0 Busy.start) = Ok [].
Proof.
  apply (@malformed_entry_empties_level Busy.jenkins "" 10 0 Busy.start
           [Fixture.entry "deploy" Fixture.freestyle; VInt 7;
            Fixture.entry "later" Fixture.freestyle] AttributeError).
  - lia.
  - reflexivity.
  - reflexivity.
Defined.

(** ** Listing, searching, folders *)

Section ListFacts.
Context `{env : Env}.

Lemma fetch_children_request path st :
  fetch_children path st
  = bind (request_checked (listing_request path)) (fun resp =>
    bind (lift (json resp)) (fun data =>
    bind (lift (py_get data "jobs" (VList []))) (fun jobs =>
    lift (py_iter jobs)))) st.
Proof.
  unfold fetch_children, listing_request.
  destruct (String.eqb path ""); reflexivity.
Qed.

Lemma request_checked_refused r st :
  refused (fst (send r (world st))) ->
  exists e, is_RequestException e = true /\ fst (request_checked r st) = Raise e.
Proof.
  unfold request_checked, try_except, bind, requests_request, lift, refused.
  destruct (send r (world st)) as [[resp|] w]; cbn [fst snd].
  - unfold http_error, raise_for_status. intros Herr.
    destruct ((400 <=? status_code resp) && (status_code resp <? 600)) eqn:Hs;
      [|lia].
    exists (HTTPError (status_code resp)). split; reflexivity.
  - intros _. exists TransportError. split; reflexivity.
Qed.

Lemma fetch_children_refused path st :
  refused (fst (send (listing_request path) (world st))) ->
  exists e, is_RequestException e = true /\ fst (fetch_children path st) = Raise e.
Proof.
  intros Href. rewrite fetch_children_request.
  destruct (request_checked_refused _ _ Href) as (e & He & Hreq).
  exists e. split; [exact He|]. unfold bind.
  destruct (request_checked (listing_request path) st) as [r st1].
  simpl in Hreq. subst r. reflexivity.
Qed.

(** The top-level listing of [list_jobs] is the fetch of the walk at the
    root, followed by its own loop. *)
Lemma list_jobs_top_level max_depth include_folders st :
  list_jobs false max_depth include_folders st
  = bind (fetch_children "") (fun jobs =>
      lift (top_level_entries include_folders jobs)) st.
Proof.
  unfold list_jobs. rewrite try_raise. unfold fetch_children.
  cbn [String.eqb negb]. unfold bind.
  destruct (jenkins_request "GET" "api/json" false None [] st) as [[resp|e] st1];
    [|reflexivity].
  unfold lift. destruct (json resp) as [data|e]; [|reflexivity].
  destruct (py_get data "jobs" (VList [])) as [jobs|e]; [|reflexivity].
  destruct (py_iter jobs); reflexivity.
Qed.

Lemma list_jobs_recursive max_depth include_folders st :
  list_jobs true max_depth include_folders st
  = bind (_collect_jobs_recursive "" max_depth 0) (fun all_items =>
      ret (map JobTreeItem_dump
             (if include_folders then all_items
              else List.filter is_job all_items))) st.
Proof. unfold list_jobs. now rewrite try_raise. Qed.

(** On an entry that the walk takes, the loop of [list_jobs] writes what
    the walk would dump. *)
Lemma top_level_entry_item include_folders job ti :
  tree_item "" job = Ok ti ->
  top_level_entry include_folders job
  = Ok (if is_job ti || (is_folder ti && include_folders)
        then Some (JobTreeItem_dump ti) else None).
Proof.
  unfold tree_item, top_level_entry.
  destruct job as [| | | | |d]; try discriminate. cbn [py_get result_bind].
  destruct (dict_get_default "_class" (VStr "") d) as [| | |c| |];
    try discriminate.
  cbn [py_lower result_bind].
  destruct (dict_get_default "name" (VStr "") d) as [| | |n| |];
    try discriminate.
  cbn [as_str result_bind].
  destruct (dict_get_default "url" (VStr "") d) as [| | |u| |];
    try discriminate;
    destruct (dict_get_default "description" (VStr "") d) as [| | |de| |];
    try discriminate.
  all: cbn [as_opt_str result_bind String.eqb]; intros [= <-].
  all: unfold is_job, is_folder, JobTreeItem_dump; cbn.
  all: destruct (Str.contains "folder" (Str.lower c)); cbn;
    destruct include_folders; reflexivity.
Qed.

Lemma top_level_entries_items include_folders :
  forall entries items,
    all_results (tree_item "") entries = Ok items ->
    top_level_entries include_folders entries
    = Ok (map JobTreeItem_dump
            (List.filter (fun ti => is_job ti || (is_folder ti && include_folders))
                         items)).
Proof.
  induction entries as [|job entries IH]; intros items; simpl.
  - now intros [= <-].
  - destruct (tree_item "" job) as [ti|e] eqn:Hti; cbn [result_bind];
      [|discriminate].
    destruct (all_results (tree_item "") entries) as [tis|e]; cbn [result_bind];
      [|discriminate].
    intros [= <-]. rewrite (top_level_entry_item _ _ _ Hti), (IH tis eq_refl).
    cbn [result_bind List.filter].
    destruct (is_job ti || (is_folder ti && include_folders)); reflexivity.
Qed.

Lemma all_results_shape path :
  forall entries items,
    all_results (tree_item path) entries = Ok items -> Forall item_shape items.
Proof.
  induction entries as [|item entries IH]; intros items; simpl.
  - intros [= <-]. constructor.
  - destruct (tree_item path item) as [ti|e] eqn:Hti; cbn [result_bind];
      [|discriminate].
    destruct (all_results (tree_item path) entries) as [tis|e]; cbn [result_bind];
      [|discriminate].
    intros [= <-]. constructor; [eapply tree_item_shape; exact Hti | now apply IH].
Qed.

Lemma filter_kinds include_folders (items : list JobTreeItem) :
  Forall item_shape items ->
  List.filter (fun ti => is_job ti || (is_folder ti && include_folders)) items
  = if include_folders then items else List.filter is_job items.
Proof.
  induction 1 as [|ti items Hti _ IH]; [now destruct include_folders|].
  cbn [List.filter]. rewrite IH, (item_shape_kind _ Hti).
  destruct (is_folder ti), include_folders; reflexivity.
Qed.

Lemma filter_is_folder (items : list JobTreeItem) :
  Forall item_shape items ->
  List.filter (fun ti => negb (is_folder ti)) items = List.filter is_job items.
Proof.
  induction 1 as [|ti items Hti _ IH]; [reflexivity|].
  cbn [List.filter]. now rewrite IH, (item_shape_kind _ Hti).
Qed.

Lemma kinds_length (items : list JobTreeItem) :
  Forall item_shape items ->
  length items
  = (length (List.filter is_job items) + length (List.filter is_folder items))%nat.
Proof.
  induction 1 as [|ti items Hti _ IH]; [reflexivity|].
  cbn [List.filter]. rewrite (item_shape_kind _ Hti).
  destruct (is_folder ti); cbn [negb length]; lia.
Qed.

Lemma filter_swap {A} (f g : A -> bool) (l : list A) :
  List.filter f (List.filter g l) = List.filter g (List.filter f l).
Proof.
  induction l as [|a l IH]; [reflexivity|]. cbn [List.filter].
  destruct (f a) eqn:Hf, (g a) eqn:Hg; cbn [List.filter];
    rewrite ?Hf, ?Hg, IH; reflexivity.
Qed.

Lemma filter_shape (f : JobTreeItem -> bool) items :
  Forall item_shape items -> Forall item_shape (List.filter f items).
Proof.
  induction 1 as [|ti items Hti _ IH]; [constructor|].
  cbn [List.filter]. destruct (f ti); [now constructor | exact IH].
Qed.

(** The kind that a dumped item or a written entry shows. *)
Lemma dump_kind ti : py_get (JobTreeItem_dump ti) "type" VNone = Ok (VStr (type_ ti)).
Proof. reflexivity. Qed.

Lemma top_level_entry_kind include_folders job d :
  top_level_entry include_folders job = Ok (Some d) ->
  py_get d "type" VNone = Ok (VStr "job")
  \/ (include_folders = true /\ py_get d "type" VNone = Ok (VStr "folder")).
Proof.
  unfold top_level_entry.
  destruct (py_get job "name" (VStr "")) as [n|]; [|discriminate].
  destruct (py_get job "_class" (VStr "")) as [c|]; [|discriminate].
  cbn [result_bind].
  destruct (py_lower c) as [cl|]; [|discriminate]. cbn [result_bind].
  destruct (py_get job "url" (VStr "")) as [u|];
    destruct (py_get job "description" (VStr "")) as [de|];
    destruct (Str.contains "folder" cl); destruct include_folders;
    cbn; try discriminate; intros [= <-]; auto.
Qed.

Lemma top_level_entries_kinds include_folders :
  forall entries l,
    top_level_entries include_folders entries = Ok l ->
    Forall (fun d =>
              py_get d "type" VNone = Ok (VStr "job")
              \/ (include_folders = true
                  /\ py_get d "type" VNone = Ok (VStr "folder"))) l.
Proof.
  induction entries as [|job entries IH]; intros l; simpl.
  - intros [= <-]. constructor.
  - destruct (top_level_entry include_folders job) as [o|e] eqn:Ho;
      cbn [result_bind]; [|discriminate].
    destruct (top_level_entries include_folders entries) as [more|e];
      cbn [result_bind]; [|discriminate].
    intros [= <-]. destruct o as [d|]; [|now apply IH].
    constructor; [eapply top_level_entry_kind; exact Ho | now apply IH].
Qed.

(** [get_folder_info] *)
Lemma folder_item_tree_item path item :
  path <> "" -> folder_item path item = tree_item path item.
Proof.
  intros Hne. unfold folder_item, tree_item.
  apply String.eqb_neq in Hne. now rewrite Hne.
Qed.

Lemma split_items_spec path :
  forall entries jobs folders jobs' folders',
    split_items path entries jobs folders = Ok (jobs', folders') ->
    exists items,
      all_results (folder_item path) entries = Ok items
      /\ jobs' = jobs ++ List.filter (fun ti => negb (is_folder ti)) items
      /\ folders' = folders ++ List.filter is_folder items.
Proof.
  induction entries as [|item entries IH]; intros jobs folders jobs' folders'; simpl.
  - intros [= <- <-]. exists []. now rewrite !app_nil_r.
  - destruct (folder_item path item) as [ti|e]; cbn [result_bind]; [|discriminate].
    destruct (is_folder ti) eqn:Hk; intros Hrest;
      destruct (IH _ _ _ _ Hrest) as (items & -> & -> & ->);
      exists (ti :: items); cbn [result_bind List.filter]; rewrite Hk;
      cbn [negb]; rewrite <- ?app_assoc; auto.
Qed.

Lemma get_folder_info_run folder_path st :
  get_folder_info folder_path st
  = bind (request_checked (folder_request folder_path)) (fun resp =>
    bind (lift (json resp)) (fun data =>
    bind (lift (py_get data "jobs" (VList []))) (fun entries =>
    bind (lift (py_iter entries)) (fun entries =>
    bind (lift (split_items folder_path entries [] [])) (fun jf =>
    bind (lift (py_get data "description" (VStr ""))) (fun d =>
    bind (lift (as_opt_str d)) (fun d' =>
    ret (FolderInfo_dump
           {| folder_name := last_segment folder_path;
              folder_full_name := folder_path;
              folder_description := d';
              folder_jobs := fst jf; folder_folders := snd jf |} )))))))) st.
Proof. unfold get_folder_info. now rewrite try_raise. Qed.

Lemma listing_request_folder folder_path :
  folder_path <> "" -> listing_request folder_path = folder_request folder_path.
Proof.
  intros Hne. unfold listing_request, folder_request.
  apply String.eqb_neq in Hne. now rewrite Hne.
Qed.

End ListFacts.

(** X11. When the top-level listing is refused - the server does not
    answer, or answers with an error status - [list_jobs] raises in its
    top-level mode, and returns the empty list in its recursive mode:
    there, a server that cannot be reached looks like one without jobs. *)
Theorem list_jobs_unreachable `{env : Env}
        (max_depth : Z) (include_folders : bool) (st : State) :
  refused (fst (send (listing_request "") (world st))) ->
  0 < max_depth ->
  fst (list_jobs true max_depth include_folders st) = Ok []
  /\ exists e, is_RequestException e = true
               /\ fst (list_jobs false max_depth include_folders st) = Raise e.
Proof.
  intros Href Hdepth.
  destruct (fetch_children_refused "" st Href) as (e & He & Hfetch). split.
  - rewrite list_jobs_recursive. unfold bind.
    rewrite collect_jobs_equation. unfold walk_body.
    destruct (0 >=? max_depth) eqn:Hgate; [lia|].
    unfold try_except, bind.
    destruct (fetch_children "" st) as [r st1]. simpl in Hfetch. subst r.
    cbn. now destruct include_folders.
  - exists e. split; [exact He|]. rewrite list_jobs_top_level. unfold bind.
    destruct (fetch_children "" st) as [r st1]. simpl in Hfetch. subst r.
    reflexivity.
Qed.

Lemma list_jobs_unreachable_on_fixture :
  fst (@list_jobs Fixture.silent true 10 false (Fixture.silent_state empty_cache 0 []))
  = Ok []
  /\ exists e, is_RequestException e = true
               /\ fst (@list_jobs Fixture.silent false 10 false
                         (Fixture.silent_state empty_cache 0 [])) = Raise e.
Proof.
  apply (@list_jobs_unreachable Fixture.silent 10 false
           (Fixture.silent_state empty_cache 0 [])).
  - exact I.
  - lia.
Defined.

(** X12. The two modes of [list_jobs] agree on one level: what the
    recursive mode lists with [max_depth = 1], if it lists anything, the
    top-level mode lists as well, with the same request. *)
Theorem list_jobs_modes_agree `{env : Env}
        (max_depth : Z) (include_folders : bool) (st st' : State)
        (found : list value) :
  list_jobs true 1 include_folders st = (Ok found, st') ->
  found <> [] ->
  list_jobs false max_depth include_folders st = (Ok found, st').
Proof.
  rewrite list_jobs_recursive, list_jobs_top_level. unfold bind.
  rewrite (walk_one_level "" 1 0 st) by lia.
  destruct (fetch_children "" st) as [[entries|e] st1].
  - destruct (all_results (tree_item "") entries) as [items|e] eqn:Hall.
    + unfold ret, lift. intros [= <- <-] _.
      rewrite (top_level_entries_items _ _ _ Hall).
      now rewrite (filter_kinds _ _ (all_results_shape _ _ _ Hall)).
    + unfold ret. intros [= <- _] Hne. destruct include_folders; now destruct Hne.
  - unfold ret. intros [= <- _] Hne. destruct include_folders; now destruct Hne.
Qed.

Lemma list_jobs_modes_agree_on_fixture :
  fst (list_jobs false 10 true Fixture.start)
  = fst (list_jobs true 1 true Fixture.start).
Proof.
  destruct (list_jobs true 1 true Fixture.start) as [r st'] eqn:Hrec.
  assert (Hfound : exists found, r = Ok found /\ found <> []).
  { assert (Hr : r = fst (list_jobs true 1 true Fixture.start))
      by now rewrite Hrec.
    rewrite Hr. eexists. split; [reflexivity | discriminate]. }
  destruct Hfound as (found & -> & Hne).
  now rewrite (list_jobs_modes_agree 10 true Fixture.start st' found Hrec Hne).
Defined.

(** X13. What [list_jobs] returns shows the kind asked for: every entry
    has the type ["job"], or the type ["folder"] when folders were asked
    for - in either mode. *)
Theorem list_jobs_kinds `{env : Env}
        (recursive : bool) (max_depth : Z) (include_folders : bool) (st : State)
        (found : list value) :
  fst (list_jobs recursive max_depth include_folders st) = Ok found ->
  Forall (fun d =>
            py_get d "type" VNone = Ok (VStr "job")
            \/ (include_folders = true
                /\ py_get d "type" VNone = Ok (VStr "folder"))) found.
Proof.
  destruct recursive.
  - rewrite list_jobs_recursive. unfold bind.
    destruct (walk_shape "" max_depth 0 st) as (items & Hitems & Hshape).
    destruct (_collect_jobs_recursive "" max_depth 0 st) as [r st1].
    simpl in Hitems. subst r. cbn. intros [= <-].
    apply Forall_map. destruct include_folders.
    + eapply Forall_impl; [exact Hshape|]. intros ti [[Hk|Hk] _].
      * left. now rewrite dump_kind, Hk.
      * right. split; [reflexivity|]. now rewrite dump_kind, Hk.
    + apply Forall_forall. intros ti Hin. left.
      apply list_elem_of_In, List.filter_In in Hin as [_ Hjob].
      unfold is_job in Hjob. apply String.eqb_eq in Hjob.
      now rewrite dump_kind, Hjob.
  - rewrite list_jobs_top_level. unfold bind, lift.
    destruct (fetch_children "" st) as [[entries|e] st1]; [|discriminate].
    apply top_level_entries_kinds.
Qed.

Lemma list_jobs_kinds_on_fixture :
  exists found,
    fst (list_jobs true 10 false Fixture.start) = Ok found
    /\ Forall (fun d =>
                 py_get d "type" VNone = Ok (VStr "job")
                 \/ (false = true /\ py_get d "type" VNone = Ok (VStr "folder")))
              found.
Proof.
  eexists. split; [reflexivity|].
  apply (list_jobs_kinds true 10 false Fixture.start). reflexivity.
Defined.

(** X14. [search_jobs] never raises, and its three kinds of search fit
    together: any [job_type] other than ["job"] and ["folder"] searches
    both, and what it finds is what the two others find, each found
    once. *)
Theorem search_jobs_kinds `{env : Env}
        (pattern : string) (max_depth : Z) (st : State) :
  exists found,
    (forall job_type, job_type <> "job" -> job_type <> "folder" ->
       fst (search_jobs pattern job_type max_depth st)
       = Ok (map JobTreeItem_dump found))
    /\ fst (search_jobs pattern "job" max_depth st)
       = Ok (map JobTreeItem_dump (List.filter is_job found))
    /\ fst (search_jobs pattern "folder" max_depth st)
       = Ok (map JobTreeItem_dump (List.filter is_folder found))
    /\ length found
       = (length (List.filter is_job found)
          + length (List.filter is_folder found))%nat.
Proof.
  destruct (walk_shape "" max_depth 0 st) as (all_items & Hall & Hshape).
  assert (Hrun : forall job_type,
             fst (search_jobs pattern job_type max_depth st)
             = Ok (map JobTreeItem_dump
                     (List.filter (matches_pattern pattern)
                                  (filter_by_type job_type all_items)))).
  { intros job_type. unfold search_jobs, bind.
    destruct (search_jobs_items_run pattern job_type max_depth st)
      as (all' & st1 & Hwalk & ->).
    rewrite Hwalk in Hall. simpl in Hall. injection Hall as ->. reflexivity. }
  exists (List.filter (matches_pattern pattern) all_items).
  split; [|split; [|split]].
  - intros job_type Hj Hf. rewrite Hrun. unfold filter_by_type.
    apply String.eqb_neq in Hj, Hf. now rewrite Hj, Hf.
  - rewrite Hrun. unfold filter_by_type. cbn [String.eqb Ascii.eqb Bool.eqb].
    now rewrite filter_swap.
  - rewrite Hrun. unfold filter_by_type. cbn [String.eqb Ascii.eqb Bool.eqb].
    now rewrite filter_swap.
  - apply kinds_length, filter_shape, Hshape.
Qed.

(** X15. [get_folder_info] lists the children of a folder as the walk
    does: when it returns, the walk of one level from the same path
    returns, with the same request, the items that it shows - the jobs
    under ["jobs"], the folders under ["folders"], each in the order of
    the listing. *)
Theorem get_folder_info_lists_children `{env : Env}
        (folder_path : string) (st : State) (info : value) :
  folder_path <> "" ->
  fst (get_folder_info folder_path st) = Ok info ->
  exists items d,
    _collect_jobs_recursive folder_path 1 0 st
    = (Ok items, snd (get_folder_info folder_path st))
    /\ info = FolderInfo_dump
                {| folder_name := last_segment folder_path;
                   folder_full_name := folder_path;
                   folder_description := d;
                   folder_jobs := List.filter is_job items;
                   folder_folders := List.filter is_folder items |}.
Proof.
  intros Hne Hinfo. rewrite (walk_one_level folder_path 1 0 st) by lia.
  rewrite fetch_children_request, (listing_request_folder _ Hne).
  revert Hinfo. rewrite get_folder_info_run. unfold bind.
  destruct (request_checked (folder_request folder_path) st) as [[resp|e] st1];
    [|discriminate].
  unfold lift, ret.
  destruct (json resp) as [data|e]; [|discriminate].
  destruct (py_get data "jobs" (VList [])) as [jobs|e]; [|discriminate].
  destruct (py_iter jobs) as [entries|e]; [|discriminate].
  destruct (split_items folder_path entries [] []) as [[jobs' folders']|e] eqn:Hsplit;
    [|discriminate].
  destruct (split_items_spec _ _ _ _ _ _ Hsplit) as (items & Hitems & -> & ->).
  assert (Htree : all_results (tree_item folder_path) entries = Ok items).
  { rewrite <- Hitems. clear - Hne. induction entries as [|item entries IH];
      [reflexivity|].
    cbn [all_results]. now rewrite IH, folder_item_tree_item. }
  rewrite Htree.
  destruct (py_get data "description" (VStr "")) as [d|e]; [|discriminate].
  destruct (as_opt_str d) as [d'|e]; [|discriminate].
  cbn [fst snd app]. intros [= <-]. exists items, d'.
  split; [reflexivity|].
  now rewrite (filter_is_folder _ (all_results_shape _ _ _ Htree)).
Qed.

Lemma get_folder_info_on_fixture :
  exists items d,
    _collect_jobs_recursive "buildFolder" 1 0 Fixture.start
    = (Ok items, snd (get_folder_info "buildFolder" Fixture.start))
    /\ fst (get_folder_info "buildFolder" Fixture.start)
       = Ok (FolderInfo_dump
               {| folder_name := last_segment "buildFolder";
                  folder_full_name := "buildFolder";
                  folder_description := d;
                  folder_jobs := List.filter is_job items;
                  folder_folders := List.filter is_folder items |}).
Proof.
  assert (Hne : "buildFolder" <> "") by discriminate.
  destruct (fst (get_folder_info "buildFolder" Fixture.start)) as [info|e] eqn:Hinfo;
    [|discriminate].
  destruct (get_folder_info_lists_children "buildFolder" Fixture.start info Hne Hinfo)
    as (items & d & Hwalk & ->).
  exists items, d. split; [exact Hwalk | reflexivity].
Defined.

(** ** Builds, health, and the hints for a job that is not found *)

Section BuildFacts.
Context `{env : Env}.

Lemma request_checked_ok r st resp w :
  send r (world st) = (Some resp, w) ->
  ~ http_error resp ->
  request_checked r st = (Ok resp, after_request r w st).
Proof.
  intros Hsend Hok.
  unfold request_checked, try_except, bind, requests_request, lift, ret.
  rewrite Hsend. unfold raise_for_status, http_error in *.
  destruct ((400 <=? status_code resp) && (status_code resp <? 600)) eqn:Hs;
    [exfalso; apply Hok; lia | reflexivity].
Qed.

Lemma string_of_list_ascii_app (l1 l2 : list ascii) :
  string_of_list_ascii (l1 ++ l2)
  = string_of_list_ascii l1 +:+ string_of_list_ascii l2.
Proof.
  induction l1 as [|c l1 IH]; [reflexivity|].
  cbn [app string_of_list_ascii]. now rewrite IH.
Qed.

Lemma rev_string_app (a b : string) :
  rev_string (a +:+ b) = rev_string b +:+ rev_string a.
Proof.
  unfold rev_string.
  now rewrite list_ascii_app, rev_app_distr, string_of_list_ascii_app.
Qed.

Lemma rev_string_involutive s : rev_string (rev_string s) = s.
Proof.
  unfold rev_string.
  now rewrite list_ascii_of_string_of_list_ascii, rev_involutive,
    string_of_list_ascii_of_string.
Qed.

(** [strip] takes the newline off a line that ends a text of which the
    first character is no space. *)
Lemma strip_last_line c rest :
  is_space c = false ->
  strip (String c rest +:+ ")" +:+ nl) = String c rest +:+ ")".
Proof.
  intros Hc. unfold strip.
  assert (Hl : forall x, lstrip (String c x) = String c x)
    by (intros x; cbn [lstrip]; now rewrite Hc).
  rewrite string_cons_app, Hl, <- string_cons_app.
  rewrite rev_string_app.
  change (rev_string (")" +:+ nl)) with (nl +:+ ")").
  change (lstrip ((nl +:+ ")") +:+ rev_string (String c rest)))
    with (")" +:+ rev_string (String c rest)).
  rewrite rev_string_app, rev_string_involutive.
  change (rev_string ")") with ")". reflexivity.
Qed.

End BuildFacts.

(** X16. What [get_build_status] reports of a build that the server
    describes, the other fields of the description being valid: the
    value under ["result"] when the description has that key and the
    value is a string; with that key and another value - such as the
    [null] of a build that is still running - the response is refused
    with [ValidationError]; only without the key is the status
    ["BUILDING"] or ["UNKNOWN"], by the value under ["building"]. *)
Theorem get_build_status_result `{env : Env}
        (opt_int_field : value -> option (option Z))
        (job_name : string) (number : Z) (st : State)
        (resp : Response) (w : World) (d : dict value)
        (ts du : option Z) (u : option string) :
  send (build_status_request job_name number) (world st) = (Some resp, w) ->
  ~ http_error resp ->
  json_body resp = Some (VDict d) ->
  opt_int_field (dict_get_default "timestamp" VNone d) = Some ts ->
  opt_int_field (dict_get_default "duration" VNone d) = Some du ->
  as_opt_str (dict_get_default "url" VNone d) = Ok u ->
  let report s :=
    {| build_job_name := job_name; build_number := number; build_status := s;
       build_timestamp := ts; build_duration := du; build_url := u |} in
  fst (get_build_status opt_int_field job_name number st)
  = match dict_get "result" d with
    | Some (VStr s) => Ok (report s)
    | Some _ => Raise ValidationError
    | None =>
        Ok (report (if truthy (dict_get_default "building" VNone d)
                    then "BUILDING" else "UNKNOWN"))
    end.
Proof.
  intros Hsend Hok Hbody Hts Hdu Hu. cbn zeta.
  rewrite get_build_status_request. unfold try_except, bind at 1.
  rewrite (request_checked_ok _ _ _ _ Hsend Hok).
  unfold bind, lift, json. rewrite Hbody.
  unfold build_status_response, build_status_of, validate_opt_int.
  cbn [py_get result_bind]. rewrite Hts, Hdu, Hu.
  unfold dict_get_default.
  destruct (dict_get "result" d) as [[| | |s| |]|]; reflexivity.
Qed.

Lemma get_build_status_running_on_fixture :
  fst (@get_build_status Busy.jenkins Busy.strict_int "deploy" 7 Busy.start)
  = Raise ValidationError.
Proof.
  assert (Hok : ~ @http_error (Busy.build (Some VNone) true))
    by (unfold http_error; simpl; lia).
  exact (@get_build_status_result Busy.jenkins Busy.strict_int "deploy" 7
           Busy.start _ _ _ _ _ _ eq_refl Hok eq_refl eq_refl eq_refl eq_refl).
Defined.

(** X17. When the server answers the request of [get_build_status] with
    404, the call raises a [ValueError] whose message is the discovery
    hints for the job - also when the job is there and only the build is
    not. *)
Theorem get_build_status_not_found `{env : Env}
        (opt_int_field : value -> option (option Z))
        (job_name : string) (number : Z) (st : State)
        (resp : Response) (w : World) :
  send (build_status_request job_name number) (world st) = (Some resp, w) ->
  status_code resp = 404 ->
  get_build_status opt_int_field job_name number st
  = (Raise (ValueError
              (create_job_not_found_error job_name "getting build status")),
     after_request (build_status_request job_name number) w st).
Proof.
  intros Hsend H404. rewrite get_build_status_request.
  unfold try_except, bind at 1.
  rewrite (request_checked_http_error _ _ _ _ Hsend)
    by (unfold http_error; lia).
  unfold any_exception, not_found_handler. rewrite H404. reflexivity.
Qed.

Lemma get_build_status_not_found_on_fixture :
  fst (get_build_status Busy.strict_int "deploy" 7 Fixture.start)
  = Raise (ValueError
             (create_job_not_found_error "deploy" "getting build status")).
Proof.
  exact (f_equal fst
           (get_build_status_not_found Busy.strict_int "deploy" 7 Fixture.start
              (Fixture.plain 404) _ eq_refl eq_refl)).
Defined.

(** X18. [get_health] never raises: it returns a report, which says
    ["ok"] exactly when the server answers the request without an error
    status and with an [X-Jenkins] header (in any case of the letters),
    and ["error"] with details otherwise. *)
Theorem get_health_reports `{env : Env} (exn_str : exn -> string) (st : State) :
  exists report,
    fst (get_health exn_str st) = Ok report
    /\ ((health_status report = "ok" /\ health_details report = None)
        \/ (health_status report = "error" /\ health_details report <> None))
    /\ (health_status report = "ok" <->
        exists resp,
          fst (send health_request (world st)) = Some resp
          /\ ~ http_error resp
          /\ header_get "x-jenkins" (headers resp) <> None).
Proof.
  unfold get_health, try_except, bind, requests_request, lift, ret, raise.
  destruct (send health_request (world st)) as [[resp|] w]; cbn [fst snd].
  - unfold raise_for_status, http_error.
    destruct ((400 <=? status_code resp) && (status_code resp <? 600)) eqn:Hs.
    + eexists. split; [reflexivity|]. cbn. split; [right; split; congruence|].
      split; [discriminate|]. intros (resp' & [= <-] & Hok & _). lia.
    + destruct (header_get "x-jenkins" (headers resp)) as [v|] eqn:Hh.
      * eexists. split; [reflexivity|]. cbn. split; [now left|].
        split; [|reflexivity]. intros _. exists resp.
        split; [reflexivity|]. split; [lia|]. now rewrite Hh.
      * eexists. split; [reflexivity|]. cbn. split; [right; split; congruence|].
        split; [discriminate|]. intros (resp' & [= <-] & _ & Hx). congruence.
  - eexists. split; [reflexivity|]. cbn. split; [right; split; congruence|].
    split; [discriminate|]. intros (resp' & [=] & _).
Qed.

(** X19. The hints of [create_job_not_found_error]: the job name as it
    was given, between quotes, then the numbered suggestions - four of
    them, or three when the name holds a [*] - and no newline at the
    end. *)
Theorem create_job_not_found_error_text (job_name operation : string) :
  create_job_not_found_error job_name operation
  = "Job '" +:+ job_name +:+ "' not found for " +:+ operation
    +:+ ". Try these discovery tools:" +:+ nl
    +:+ "  1. search_jobs('" +:+ job_name +:+ "')" +:+ nl
    +:+ (if Str.contains "*" job_name
         then "  2. list_jobs(recursive=True)" +:+ nl
              +:+ "  3. get_job_info('" +:+ job_name +:+ "', auto_search=True)"
         else "  2. search_jobs('*" +:+ job_name +:+ "*')" +:+ nl
              +:+ "  3. list_jobs(recursive=True)" +:+ nl
              +:+ "  4. get_job_info('" +:+ job_name +:+ "', auto_search=True)").
Proof.
  unfold create_job_not_found_error.
  destruct (Str.contains "*" job_name); cbn [negb app numbered].
  all: change (Str.of_nat 1) with "1"; change (Str.of_nat 2) with "2";
    change (Str.of_nat 3) with "3"; change (Str.of_nat 4) with "4".
  - set (body := "ob '" +:+ job_name +:+ "' not found for " +:+ operation
                 +:+ ". Try these discovery tools:" +:+ nl
                 +:+ "  1. search_jobs('" +:+ job_name +:+ "')" +:+ nl
                 +:+ "  2. list_jobs(recursive=True)" +:+ nl
                 +:+ "  3. get_job_info('" +:+ job_name +:+ "', auto_search=True").
    match goal with
    | |- strip ?s = _ =>
        assert (Hs : s = String "J" body +:+ ")" +:+ nl)
          by (change (String "J" body +:+ ")" +:+ nl)
                with (String "J" (body +:+ ")" +:+ nl));
              subst body; rewrite !string_app_assoc; reflexivity)
    end.
    rewrite Hs, strip_last_line by reflexivity.
    change (String "J" body +:+ ")") with (String "J" (body +:+ ")")).
    subst body. rewrite !string_app_assoc. reflexivity.
  - set (body := "ob '" +:+ job_name +:+ "' not found for " +:+ operation
                 +:+ ". Try these discovery tools:" +:+ nl
                 +:+ "  1. search_jobs('" +:+ job_name +:+ "')" +:+ nl
                 +:+ "  2. search_jobs('*" +:+ job_name +:+ "*')" +:+ nl
                 +:+ "  3. list_jobs(recursive=True)" +:+ nl
                 +:+ "  4. get_job_info('" +:+ job_name +:+ "', auto_search=True").
    match goal with
    | |- strip ?s = _ =>
        assert (Hs : s = String "J" body +:+ ")" +:+ nl)
          by (change (String "J" body +:+ ")" +:+ nl)
                with (String "J" (body +:+ ")" +:+ nl));
              subst body; rewrite !string_app_assoc; reflexivity)
    end.
    rewrite Hs, strip_last_line by reflexivity.
    change (String "J" body +:+ ")") with (String "J" (body +:+ ")")).
    subst body. rewrite !string_app_assoc. reflexivity.
Qed.
